(** * doc-chatbot: the stream decoder and the document-chat proxy

  A shallow embedding of the two pieces of logic of the repository:

  - [streamChat] (the client library [@/lib/streamChat]): the incremental
    decoder of the server-sent-event stream relayed by the proxy;
  - the edge function [document-chat]: [isValidGoogleDocsUrl],
    [fetchGoogleDocContent] and the [serve] handler.

  Text is a [string] of 8-bit code units (the Latin-1 range of the code
  units of a JavaScript string).  Platform functions that are not part of
  the repository ([JSON.parse], [new URL], the network, the environment)
  are parameters of the development; a reference instance of [JSON.parse]
  and of the URL parser is given for the concrete runs. *)

From Stdlib Require Import ZArith List String Ascii Bool Lia.
From Stdlib Require Import Numbers.DecimalString.
From Stdlib Require Numbers.DecimalZ Numbers.DecimalPos.
Import ListNotations.

Local Open Scope string_scope.
Local Open Scope Z_scope.

Set Warnings "-register-all,-notation-for-abbreviation".

(** ** JavaScript string primitives *)

Module Str.

Definition LF : ascii := "010"%char.
Definition CR : ascii := "013"%char.

(** The strings ["\n"] and ["\r"]. *)
Definition nl : string := String LF EmptyString.
Definition cr : string := String CR EmptyString.

(** [s.indexOf(c)] for a one-character needle: the index of the first
    occurrence, or [-1]. *)
Fixpoint indexOf (c : ascii) (s : string) : Z :=
  match s with
  | EmptyString => -1
  | String a s' =>
      if Ascii.eqb a c then 0
      else let i := indexOf c s' in if i =? -1 then -1 else i + 1
  end.

(** Relative index resolution of [slice]: a negative index counts from
    the end, and the result is clamped to [0 .. len]. *)
Definition clamp (len i : Z) : Z :=
  if i <? 0 then Z.max (len + i) 0 else Z.min i len.

(** [s.slice(start, end)]; [end_ = None] is the one-argument form. *)
Definition slice (s : string) (start : Z) (end_ : option Z) : string :=
  let len := Z.of_nat (String.length s) in
  let from := clamp len start in
  let to := match end_ with None => len | Some e => clamp len e end in
  substring (Z.to_nat from) (Z.to_nat (to - from)) s.

Definition startsWith (s prefix : string) : bool := String.prefix prefix s.

Definition endsWith (s suffix : string) : bool :=
  let n := String.length s in
  let m := String.length suffix in
  (m <=? n)%nat && String.eqb (substring (n - m) m s) suffix.

(** White space and line terminators of ECMAScript that fit in 8 bits:
    TAB, LF, VT, FF, CR, SP and NBSP. *)
Definition isWhiteSpace (c : ascii) : bool :=
  let n := nat_of_ascii c in
  ((9 <=? n) && (n <=? 13) || (n =? 32) || (n =? 160))%nat.

Fixpoint trimStart (s : string) : string :=
  match s with
  | String c s' => if isWhiteSpace c then trimStart s' else s
  | EmptyString => EmptyString
  end.

Fixpoint trimEnd (s : string) : string :=
  match s with
  | EmptyString => EmptyString
  | String c s' =>
      match trimEnd s' with
      | EmptyString => if isWhiteSpace c then EmptyString else String c EmptyString
      | t => String c t
      end
  end.

(** Every character is white space. *)
Fixpoint all_ws (s : string) : bool :=
  match s with
  | EmptyString => true
  | String c s' => isWhiteSpace c && all_ws s'
  end.

Definition trim (s : string) : string := trimEnd (trimStart s).

(** [s.split(sep)] for a one-character separator: never empty, and
    [split] of the empty string is the one-element list of the empty string. *)
Fixpoint split (sep : ascii) (s : string) : list string :=
  match s with
  | EmptyString => [EmptyString]
  | String c s' =>
      if Ascii.eqb c sep then EmptyString :: split sep s'
      else match split sep s' with
           | piece :: pieces => String c piece :: pieces
           | [] => [String c EmptyString]
           end
  end.

(** [xs.slice(start)] on an array. *)
Definition slice_array {A : Type} (xs : list A) (start : Z) : list A :=
  let len := Z.of_nat (List.length xs) in
  skipn (Z.to_nat (clamp len start)) xs.

(** Decimal rendering of an integer, as in a template literal. *)
Definition of_Z (n : Z) : string := NilZero.string_of_int (Z.to_int n).

(** Source text of a literal: a backquote stands for a double quote, and
    the escapes [\n], [\r], [\t] and [\\] are those of JavaScript. *)
Fixpoint literal_from (escaped : bool) (s : string) : string :=
  match s with
  | EmptyString => EmptyString
  | String c s' =>
      if escaped then
        String (if Ascii.eqb c "n" then LF
                else if Ascii.eqb c "r" then CR
                else if Ascii.eqb c "t" then "009"%char
                else c) (literal_from false s')
      else if Ascii.eqb c "\" then literal_from true s'
      else if Ascii.eqb c "`" then String "034"%char (literal_from false s')
      else String c (literal_from false s')
  end.

Definition literal (s : string) : string := literal_from false s.

End Str.

(** ** JSON values

    The values [JSON.parse] can produce.  A number keeps the exact decimal
    value of its literal, [mantissa * 10 ^ exponent]; an object keeps its
    members in source order. *)

Inductive json : Type :=
| JNull
| JBool (b : bool)
| JNumber (mantissa exponent : Z)
| JString (s : string)
| JArray (items : list json)
| JObject (members : list (string * json)).

Module Json.

(** A duplicated member name keeps its last value. *)
Fixpoint lookup_last (name : string) (members : list (string * json)) : option json :=
  match members with
  | [] => None
  | (k, v) :: rest =>
      match lookup_last name rest with
      | Some v' => Some v'
      | None => if String.eqb k name then Some v else None
      end
  end.

Definition is_digit (c : ascii) : bool :=
  let n := nat_of_ascii c in ((48 <=? n) && (n <=? 57))%nat.

Definition digit_value (c : ascii) : Z := Z.of_nat (nat_of_ascii c) - 48.

(** The value of a string of decimal digits read after the value [acc];
    [None] when a character is not a digit. *)
Fixpoint digits_from (acc : Z) (s : string) : option Z :=
  match s with
  | EmptyString => Some acc
  | String c s' =>
      if is_digit c then digits_from (10 * acc + digit_value c) s' else None
  end.

(** A property name that denotes an array index: the canonical decimal
    form of a natural number. *)
Definition array_index (name : string) : option nat :=
  match name with
  | EmptyString => None
  | _ => match digits_from 0 name with
         | Some n => if String.eqb (Str.of_Z n) name then Some (Z.to_nat n) else None
         | None => None
         end
  end.

(** [v[name]] on a value that is neither [null] nor [undefined]: the own
    property, [None] for [undefined].  None of the names the program reads
    ([choices], [0], [delta], [content], [error]) is inherited from a
    prototype. *)
Definition member (name : string) (v : json) : option json :=
  match v with
  | JObject members => lookup_last name members
  | JArray items =>
      if String.eqb name "length" then Some (JNumber (Z.of_nat (List.length items)) 0)
      else match array_index name with
           | Some i => nth_error items i
           | None => None
           end
  | JString s =>
      if String.eqb name "length" then Some (JNumber (Z.of_nat (String.length s)) 0)
      else match array_index name with
           | Some i => option_map (fun c => JString (String c EmptyString)) (String.get i s)
           | None => None
           end
  | JNull | JBool _ | JNumber _ _ => None
  end.

(** [v?.[name]] where [v] may be [undefined]: short-circuits on [null]
    and [undefined]. *)
Definition optional (name : string) (v : option json) : option json :=
  match v with
  | None | Some JNull => None
  | Some v' => member name v'
  end.

(** A decimal literal denotes the double zero when its mantissa is zero or
    when it rounds to zero: at most half the least subnormal, [2 ^ -1075]
    (the tie goes to the even neighbour, zero). *)
Definition number_is_zero (mantissa exponent : Z) : bool :=
  (mantissa =? 0)
  || ((exponent <? 0) && (Z.abs mantissa * 2 ^ 1075 <=? 10 ^ (- exponent))).

(** ToBoolean. *)
Definition truthy (v : json) : bool :=
  match v with
  | JNull => false
  | JBool b => b
  | JNumber m e => negb (number_is_zero m e)
  | JString s => negb (String.eqb s EmptyString)
  | JArray _ | JObject _ => true
  end.

End Json.

(** ** The stream decoder: [streamChat] *)

(** The invocations of the three callbacks of [StreamChatParams]. *)
Inductive Callback : Type :=
| onDelta (deltaText : json)
| onDone
| onError (error : json).

(** The reader of the response body: each [reader.read()] resolves with
    [{done: true}], rejects, or resolves with a chunk.  A chunk is taken
    after [decoder.decode(value, {stream: true})], which maps the
    concatenation of the byte chunks to the concatenation of the text
    chunks. *)
Inductive Reader : Type :=
| Closed
| Errored
| Chunk (value : string) (next : Reader).

Fixpoint reader_of (chunks : list string) : Reader :=
  match chunks with
  | [] => Closed
  | value :: rest => Chunk value (reader_of rest)
  end.

(** The result of [fetch(CHAT_URL, ...)]. *)
Record ChatResponse : Type := mkChatResponse {
  resp_status : Z;
  resp_json : option json;      (* what [resp.json()] resolves to, [None] when it rejects *)
  resp_body : option Reader     (* [resp.body], [None] for [null] *)
}.

Definition status_ok (status : Z) : bool := (200 <=? status) && (status <=? 299).

(** The local variables of the decoding part of [streamChat]; [delivered]
    is the sequence of [onDelta] arguments so far. *)
Record Decoder : Type := mkDecoder {
  textBuffer : string;
  streamDone : bool;
  delivered : list json
}.

(** The outcome of the body of a [try] block. *)
Inductive Attempt : Type :=
| Threw
| Content (content : json)
| NoContent.

Section StreamChat.

(** [JSON.parse]: [None] when it throws a [SyntaxError]. *)
Variable JSON_parse : string -> option json.

(** Lines 68-70 and 88-90:
    [parsed = JSON.parse(jsonStr);
     content = parsed.choices?.[0]?.delta?.content;
     if (content) onDelta(content)].
    Reading [parsed.choices] throws a [TypeError] when [parsed] is [null]. *)
Definition try_content (jsonStr : string) : Attempt :=
  match JSON_parse jsonStr with
  | None => Threw
  | Some JNull => Threw
  | Some parsed =>
      let choices := Json.member "choices" parsed in
      let content :=
        Json.optional "content" (Json.optional "delta" (Json.optional "0" choices)) in
      match content with
      | Some c => if Json.truthy c then Content c else NoContent
      | None => NoContent
      end
  end.

(** [if (line.endsWith("\r")) line = line.slice(0, -1)] *)
Definition strip_cr (line : string) : string :=
  if Str.endsWith line Str.cr then Str.slice line 0 (Some (-1)) else line.

(** The inner [while] loop of lines 53-75, one line per iteration.  Every
    iteration that does not leave the loop shortens [textBuffer], so
    [String.length textBuffer + 1] iterations are enough ([process]). *)
Fixpoint lines_loop (fuel : nat) (d : Decoder) : Decoder :=
  match fuel with
  | O => d
  | S fuel' =>
      let newlineIndex := Str.indexOf Str.LF (textBuffer d) in
      if newlineIndex =? -1 then d
      else
        let line := Str.slice (textBuffer d) 0 (Some newlineIndex) in
        let buffer := Str.slice (textBuffer d) (newlineIndex + 1) None in
        let line := strip_cr line in
        if Str.startsWith line ":" || String.eqb (Str.trim line) EmptyString then
          lines_loop fuel' (mkDecoder buffer (streamDone d) (delivered d))
        else if negb (Str.startsWith line "data: ") then
          lines_loop fuel' (mkDecoder buffer (streamDone d) (delivered d))
        else
          let jsonStr := Str.trim (Str.slice line 6 None) in
          if String.eqb jsonStr "[DONE]" then
            mkDecoder buffer true (delivered d)
          else
            match try_content jsonStr with
            | Content content =>
                lines_loop fuel' (mkDecoder buffer (streamDone d) (delivered d ++ [content]))
            | NoContent =>
                lines_loop fuel' (mkDecoder buffer (streamDone d) (delivered d))
            | Threw =>
                mkDecoder (line ++ Str.nl ++ buffer) (streamDone d) (delivered d)
            end
  end.

Definition process (d : Decoder) : Decoder :=
  lines_loop (S (String.length (textBuffer d))) d.

(** The outer [while (!streamDone)] loop of lines 47-76.  The result is the
    decoder when the loop is left, with the part of the stream that was
    not read, or [inl] of the deltas delivered so far when [reader.read()]
    rejects. *)
Fixpoint read_loop (reader : Reader) (d : Decoder) : list json + Decoder * Reader :=
  if streamDone d then inr (d, reader)
  else
    match reader with
    | Closed => inr (d, Closed)
    | Errored => inl (delivered d)
    | Chunk value next =>
        read_loop next
          (process (mkDecoder (textBuffer d ++ value) (streamDone d) (delivered d)))
    end.

(** The [for] loop of the final flush, lines 80-94, over the pieces of
    [textBuffer.split("\n")]. *)
Fixpoint flush_loop (raws : list string) (out : list json) : list json :=
  match raws with
  | [] => out
  | raw :: rest =>
      if String.eqb raw EmptyString then flush_loop rest out
      else
        let raw := strip_cr raw in
        if Str.startsWith raw ":" || String.eqb (Str.trim raw) EmptyString then flush_loop rest out
        else if negb (Str.startsWith raw "data: ") then flush_loop rest out
        else
          let jsonStr := Str.trim (Str.slice raw 6 None) in
          if String.eqb jsonStr "[DONE]" then flush_loop rest out
          else
            match try_content jsonStr with
            | Content content => flush_loop rest (out ++ [content])
            | NoContent => flush_loop rest out
            | Threw => flush_loop rest out
            end
  end.

(** Lines 78-95: [if (textBuffer.trim()) { for (let raw of ...) ... }]. *)
Definition final_flush (d : Decoder) : list json :=
  if negb (String.eqb (Str.trim (textBuffer d)) EmptyString)
  then flush_loop (Str.split Str.LF (textBuffer d)) (delivered d)
  else delivered d.

Definition connection_error : json := JString "Connection error. Please try again.".

(** Lines 42-102: the decoding of a response body.  The result is the
    sequence of callback invocations. *)
Definition decode (reader : Reader) : list Callback :=
  match read_loop reader (mkDecoder EmptyString false []) with
  | inl deltas => map onDelta deltas ++ [onError connection_error]
  | inr (d, _) => map onDelta (final_flush d) ++ [onDone]
  end.

(** [streamChat], from the result of the [fetch] of line 23 ([None] when
    the [fetch] rejects). *)
Definition streamChat (fetched : option ChatResponse) : list Callback :=
  match fetched with
  | None => [onError connection_error]
  | Some resp =>
      if negb (status_ok (resp_status resp)) then
        let errorData :=
          match resp_json resp with
          | Some data => data
          | None => JObject [("error", JString "Request failed")]
          end in
        match errorData with
        | JNull => [onError connection_error]
        | _ =>
            match Json.member "error" errorData with
            | Some e =>
                if Json.truthy e then [onError e]
                else [onError (JString ("Error: " ++ Str.of_Z (resp_status resp)))]
            | None => [onError (JString ("Error: " ++ Str.of_Z (resp_status resp)))]
            end
        end
      else
        match resp_body resp with
        | None => [onError (JString "No response body received")]
        | Some reader => decode reader
        end
  end.

(** *** Views of a line, for the statements

    What the body of either loop does with a piece [raw] of the text,
    read off the conditions of lines 57-74. *)

Inductive Verdict : Type :=
| Skipped                     (* a blank line, a comment, or no [data: ] prefix *)
| Terminated                  (* the payload is [[DONE]] *)
| Delivered (content : json)  (* [onDelta(content)] *)
| Silent                      (* parsed, without a truthy content *)
| Malformed.                  (* the [try] block threw *)

Definition verdict (raw : string) : Verdict :=
  let line := strip_cr raw in
  if Str.startsWith line ":" || String.eqb (Str.trim line) EmptyString then Skipped
  else if negb (Str.startsWith line "data: ") then Skipped
  else
    let jsonStr := Str.trim (Str.slice line 6 None) in
    if String.eqb jsonStr "[DONE]" then Terminated
    else
      match try_content jsonStr with
      | Content content => Delivered content
      | NoContent => Silent
      | Threw => Malformed
      end.

(** The reading loop sets [streamDone] on this line. *)
Definition is_done_line (raw : string) : bool :=
  match verdict raw with
  | Terminated => true
  | _ => false
  end.

(** A data line whose payload makes the [try] block throw. *)
Definition is_malformed (raw : string) : bool :=
  match verdict raw with
  | Malformed => true
  | _ => false
  end.

(** A data line whose payload carries the content [c]. *)
Definition delivers (raw : string) (c : json) : Prop := verdict raw = Delivered c.

(** The reading loop, run over these lines in order, meets a [[DONE]]
    line before any malformed line. *)
Fixpoint reaches_done (lines : list string) : bool :=
  match lines with
  | [] => false
  | raw :: rest =>
      if is_done_line raw then true
      else if is_malformed raw then false
      else reaches_done rest
  end.

(** The lines of a text that are closed by a line feed. *)
Definition complete_lines (text : string) : list string :=
  removelast (Str.split Str.LF text).

(** The contents of the data lines of a text, in order. *)
Definition deliverable (text : string) : list json :=
  flush_loop (Str.split Str.LF text) [].

(** The decoder [d'] was reached from [d] by reading [used]: flushing the
    buffer of [d'], with any text that may still follow, delivers what
    flushing the buffer of [d] followed by [used] and that text would. *)
Definition flush_preserved (d d' : Decoder) (used : string) : Prop :=
  forall more,
    flush_loop (Str.split Str.LF (textBuffer d' ++ more)) (delivered d')
    = flush_loop (Str.split Str.LF (textBuffer d ++ used ++ more)) (delivered d).

End StreamChat.

(** All the text a reader holds. *)
Fixpoint text_of (reader : Reader) : string :=
  match reader with
  | Closed | Errored => EmptyString
  | Chunk value next => value ++ text_of next
  end.

(** [chunks.join("")] *)
Fixpoint concat_chunks (chunks : list string) : string :=
  match chunks with
  | [] => EmptyString
  | value :: rest => value ++ concat_chunks rest
  end.

(** A successful response whose body is read through [reader], and one
    whose body delivers the given chunks and then ends. *)
Definition responded (reader : Reader) : option ChatResponse :=
  Some (mkChatResponse 200 None (Some reader)).

Definition streamed (chunks : list string) : option ChatResponse :=
  responded (reader_of chunks).


(** *** Further views, for the statements *)

Section StreamViews.
Variable JSON_parse : string -> option json.

(** The deltas the reading loop delivers over these lines: those of the
    lines before the first [[DONE]] line or malformed line. *)
Fixpoint read_deliveries (lines : list string) : list json :=
  match lines with
  | [] => []
  | raw :: rest =>
      match verdict JSON_parse raw with
      | Delivered c => c :: read_deliveries rest
      | Skipped | Silent => read_deliveries rest
      | Terminated | Malformed => []
      end
  end.

(** Neither loop does anything with this line: it is blank, a comment, or
    has no [data: ] prefix. *)
Definition is_skipped (raw : string) : bool :=
  match verdict JSON_parse raw with
  | Skipped => true
  | _ => false
  end.

End StreamViews.

(** A body that delivers the given chunks and then goes on as [next]. *)
Fixpoint reader_then (chunks : list string) (next : Reader) : Reader :=
  match chunks with
  | [] => next
  | value :: rest => Chunk value (reader_then rest next)
  end.

(** The lines, each closed by [eol]. *)
Fixpoint join_lines (eol : string) (lines : list string) : string :=
  match lines with
  | [] => EmptyString
  | line :: rest => line ++ eol ++ join_lines eol rest
  end.

(** The line terminator CR LF. *)
Definition crlf : string := String Str.CR (String Str.LF EmptyString).

(** ** A reference [JSON.parse]

    The JSON grammar of ECMA-404 over 8-bit text.  An escape above
    code 255 denotes a code unit outside this text model and is rejected.
    The theorems on [streamChat] hold for every parser; this one is used
    for the concrete runs. *)

Module JsonText.

Definition is_ws (c : ascii) : bool :=
  let n := nat_of_ascii c in ((n =? 32) || (n =? 9) || (n =? 10) || (n =? 13))%nat.

Fixpoint skip_ws (s : string) : string :=
  match s with
  | String c s' => if is_ws c then skip_ws s' else s
  | EmptyString => EmptyString
  end.

Definition hex_value (c : ascii) : option Z :=
  let n := Z.of_nat (nat_of_ascii c) in
  if (48 <=? n) && (n <=? 57) then Some (n - 48)
  else if (65 <=? n) && (n <=? 70) then Some (n - 55)
  else if (97 <=? n) && (n <=? 102) then Some (n - 87)
  else None.

Inductive StringState : Type :=
| Plain
| Escaped
| Hex (remaining : nat) (code : Z).

Fixpoint string_of_rev (acc : list ascii) (tail : string) : string :=
  match acc with
  | [] => tail
  | c :: acc' => string_of_rev acc' (String c tail)
  end.

Definition escape (c : ascii) : option ascii :=
  match c with
  | "034"%char => Some "034"%char
  | "\"%char => Some "\"%char
  | "/"%char => Some "/"%char
  | "b"%char => Some "008"%char
  | "f"%char => Some "012"%char
  | "n"%char => Some "010"%char
  | "r"%char => Some "013"%char
  | "t"%char => Some "009"%char
  | _ => None
  end.

(** The characters of a string literal after its opening quote: the
    decoded string and the text after the closing quote. *)
Fixpoint string_body (st : StringState) (acc : list ascii) (s : string)
  : option (string * string) :=
  match s with
  | EmptyString => None
  | String c rest =>
      match st with
      | Plain =>
          if Ascii.eqb c "034" then Some (string_of_rev acc EmptyString, rest)
          else if Ascii.eqb c "\" then string_body Escaped acc rest
          else if (nat_of_ascii c <? 32)%nat then None
          else string_body Plain (c :: acc) rest
      | Escaped =>
          if Ascii.eqb c "u" then string_body (Hex 4 0) acc rest
          else match escape c with
               | Some e => string_body Plain (e :: acc) rest
               | None => None
               end
      | Hex remaining code =>
          match hex_value c with
          | None => None
          | Some h =>
              let code' := 16 * code + h in
              match remaining with
              | O => None
              | S O =>
                  if code' <? 256
                  then string_body Plain (ascii_of_nat (Z.to_nat code') :: acc) rest
                  else None
              | S remaining' => string_body (Hex remaining' code') acc rest
              end
          end
      end
  end.

(** The longest prefix of decimal digits, and the rest. *)
Fixpoint digits (s : string) : string * string :=
  match s with
  | String c s' =>
      if Json.is_digit c then let (d, r) := digits s' in (String c d, r)
      else (EmptyString, s)
  | EmptyString => (EmptyString, EmptyString)
  end.

Definition digits_value (d : string) : Z :=
  match Json.digits_from 0 d with Some n => n | None => 0 end.

(** [-? int frac? exp?] *)
Definition number (s : string) : option (json * string) :=
  let (negative, s1) :=
    match s with
    | String "-" r => (true, r)
    | _ => (false, s)
    end in
  let (int, s2) := digits s1 in
  let int_ok :=
    match int with
    | EmptyString => false
    | String "0" (String _ _) => false
    | _ => true
    end in
  if negb int_ok then None
  else
    let frac_part :=
      match s2 with
      | String "." r =>
          let (f, r') := digits r in
          match f with EmptyString => None | _ => Some (f, r') end
      | _ => Some (EmptyString, s2)
      end in
    match frac_part with
    | None => None
    | Some (frac, s3) =>
        let exp_part :=
          match s3 with
          | String c r =>
              if Ascii.eqb c "e" || Ascii.eqb c "E" then
                let (sign, r1) :=
                  match r with
                  | String "-" r' => (-1, r')
                  | String "+" r' => (1, r')
                  | _ => (1, r)
                  end in
                let (e, r2) := digits r1 in
                match e with
                | EmptyString => None
                | _ => Some (sign * digits_value e, r2)
                end
              else Some (0, s3)
          | EmptyString => Some (0, s3)
          end in
        match exp_part with
        | None => None
        | Some (e, s4) =>
            let m := digits_value (int ++ frac) in
            Some (JNumber (if negative then - m else m)
                          (e - Z.of_nat (String.length frac)), s4)
        end
    end.

Definition keyword (word : string) (v : json) (s : string) : option (json * string) :=
  if String.prefix word s
  then Some (v, substring (String.length word) (String.length s - String.length word) s)
  else None.

Fixpoint value (fuel : nat) (s : string) : option (json * string) :=
  match fuel with
  | O => None
  | S fuel' =>
      match skip_ws s with
      | EmptyString => None
      | String c rest as s' =>
          if Ascii.eqb c "{" then
            match skip_ws rest with
            | String "}" rest' => Some (JObject [], rest')
            | _ => members fuel' rest []
            end
          else if Ascii.eqb c "[" then
            match skip_ws rest with
            | String "]" rest' => Some (JArray [], rest')
            | _ => elements fuel' rest []
            end
          else if Ascii.eqb c "034" then
            match string_body Plain [] rest with
            | Some (str, rest') => Some (JString str, rest')
            | None => None
            end
          else if Ascii.eqb c "t" then keyword "true" (JBool true) s'
          else if Ascii.eqb c "f" then keyword "false" (JBool false) s'
          else if Ascii.eqb c "n" then keyword "null" JNull s'
          else number s'
      end
  end
with elements (fuel : nat) (s : string) (acc : list json) : option (json * string) :=
  match fuel with
  | O => None
  | S fuel' =>
      match value fuel' s with
      | None => None
      | Some (v, rest) =>
          match skip_ws rest with
          | String "," rest' => elements fuel' rest' (v :: acc)
          | String "]" rest' => Some (JArray (rev (v :: acc)), rest')
          | _ => None
          end
      end
  end
with members (fuel : nat) (s : string) (acc : list (string * json))
  : option (json * string) :=
  match fuel with
  | O => None
  | S fuel' =>
      match skip_ws s with
      | String "034" rest =>
          match string_body Plain [] rest with
          | None => None
          | Some (name, rest1) =>
              match skip_ws rest1 with
              | String ":" rest2 =>
                  match value fuel' rest2 with
                  | None => None
                  | Some (v, rest3) =>
                      match skip_ws rest3 with
                      | String "," rest4 => members fuel' rest4 ((name, v) :: acc)
                      | String "}" rest4 => Some (JObject (rev ((name, v) :: acc)), rest4)
                      | _ => None
                      end
                  end
              | _ => None
              end
          end
      | _ => None
      end
  end.

Definition JSON_parse (text : string) : option json :=
  match value (2 * String.length text + 2) text with
  | Some (v, rest) =>
      match skip_ws rest with
      | EmptyString => Some v
      | _ => None
      end
  | None => None
  end.

End JsonText.

(** ** The edge function [document-chat] *)

Inductive Role : Type := user | assistant.

(** [interface Message] of the edge function. *)
Record Message : Type := mkMessage {
  role : Role;
  content : string
}.

(** [interface RequestBody]; a field is [None] when it is absent from the
    body. *)
Record RequestBody : Type := mkRequestBody {
  question : option string;
  documentUrl : option string;
  conversationHistory : option (list Message)
}.

(** A thrown value: every one the handler can meet is an [Error] with a
    [name] and a [message]. *)
Record JsError : Type := mkError {
  error_name : string;
  error_message : string
}.

(** [new Error(message)] *)
Definition Error (message : string) : JsError := mkError "Error" message.

Definition TypeError (message : string) : JsError := mkError "TypeError" message.

Record Request : Type := mkRequest {
  method : string;
  req_json : JsError + RequestBody      (* [await req.json()] *)
}.

(** An entry of the [messages] array sent to the model. *)
Record ChatMessage : Type := mkChatMessage {
  chat_role : string;
  chat_content : string
}.

(** The upstream request of lines 362-373. *)
Record ChatRequest : Type := mkChatRequest {
  chat_url : string;
  authorization : string;
  model : string;
  messages : list ChatMessage;
  stream : bool
}.

(** What the handler reads of a response to one of its two fetches. *)
Record HttpResponse : Type := mkHttpResponse {
  http_status : Z;
  content_length : option string;     (* [headers.get('content-length')] *)
  http_text : JsError + string        (* [await response.text()] *)
}.

Inductive FetchOutcome : Type :=
| Resolved (response : HttpResponse)
| Rejected (error : JsError).

(** The world around one invocation of the handler. *)
Record Env : Type := mkEnv {
  LOVABLE_API_KEY : option string;               (* [Deno.env.get] *)
  fetch_document : string -> FetchOutcome;       (* the fetch of the export URL *)
  fetch_model : ChatRequest -> FetchOutcome      (* the fetch of the gateway *)
}.

(** The observable actions of the handler, in order. *)
Inductive Effect : Type :=
| FetchDocument (exportUrl : string)
| FetchModel (request : ChatRequest)
| ReadText (status : Z)
| Console (level : string) (args : list string).

Inductive ResponseBody : Type :=
| NoBody
| ErrorBody (error : string)             (* [JSON.stringify({ error })] *)
| RelayBody (upstream : HttpResponse).   (* [response.body], relayed as it is *)

(** The response of the handler; every response carries [corsHeaders]. *)
Record Response : Type := mkResponse {
  status : Z;
  content_type : option string;
  body : ResponseBody
}.

Definition json_response (error : string) (status : Z) : Response :=
  mkResponse status (Some "application/json") (ErrorBody error).

(** *** A monad for the handler: a trace of effects and exceptions *)

Definition M (A : Type) : Type := list Effect * (JsError + A).

Definition ret {A : Type} (a : A) : M A := ([], inr a).

Definition throw {A : Type} (e : JsError) : M A := ([], inl e).

Definition bind {A B : Type} (m : M A) (k : A -> M B) : M B :=
  match m with
  | (t, inl e) => (t, inl e)
  | (t, inr a) => let (t', r) := k a in ((t ++ t')%list, r)
  end.

(** [try { m } catch (error) { handler }] *)
Definition try_catch {A : Type} (m : M A) (handler : JsError -> M A) : M A :=
  match m with
  | (t, inl e) => let (t', r) := handler e in ((t ++ t')%list, r)
  | (t, inr a) => (t, inr a)
  end.

Definition emit (e : Effect) : M unit := ([e], inr tt).

Definition lift {A : Type} (r : JsError + A) : M A := ([], r).

Declare Scope js_scope.
Delimit Scope js_scope with js.
Notation "x <- m ;; k" := (bind m (fun x => k))
  (at level 61, m at next level, right associativity) : js_scope.
Notation "m ;;; k" := (bind m (fun _ => k))
  (at level 61, right associativity) : js_scope.

Definition trace {A : Type} (m : M A) : list Effect := fst m.

Definition outcome {A : Type} (m : M A) : JsError + A := snd m.

Definition is_fetch (e : Effect) : bool :=
  match e with
  | FetchDocument _ | FetchModel _ => true
  | ReadText _ | Console _ _ => false
  end.

(** No outbound network call was made. *)
Definition no_fetch (t : list Effect) : Prop := forallb (fun e => negb (is_fetch e)) t = true.


(** *** Constants *)

Definition SYSTEM_PROMPT : string := Eval vm_compute in Str.literal
  "You are an AI-powered document assistant that answers user questions strictly based on the content retrieved from a Google Document.\n\nCORE RULES:\n1. Use ONLY the provided document context when answering.\n2. If the answer is not present in the document, respond exactly with: `This info isn't in the document.`\n3. NEVER use external knowledge or assumptions.\n4. Always provide concise, professional answers.\n\nCITATION REQUIREMENTS:\n- Every factual statement MUST include inline citations.\n- Use the format: (Section X.Y) or (Page X) based on document structure.\n- If multiple sections are used, cite all relevant sections.\n\nCONVERSATION HANDLING:\n- Maintain context from the conversation history provided.\n- If a user follow-up depends on prior context, resolve it correctly.\n- Do NOT repeat previous answers unless explicitly asked.\n\nQUERY CLARIFICATION:\n- If the user query is ambiguous or underspecified, ask ONE short clarifying question before answering.\n\nEDGE CASE HANDLING:\n- If the document content is empty, respond: `The document does not contain any usable information.`\n- If the document appears inaccessible, respond: `Please provide a publicly accessible Google Doc link.`\n\nTONE & STYLE:\n- Neutral, professional, and business-friendly.\n- No emojis, no casual language.\n- Short paragraphs, clear formatting.\n\nOUTPUT FORMAT:\n- Plain text response.\n- Answer first, citations at the end of sentences.\n- No markdown unless explicitly requested.".

(** [5 * 1024 * 1024] *)
Definition MAX_DOCUMENT_SIZE : Z := 5 * 1024 * 1024.

Definition FETCH_TIMEOUT_MS : Z := 10000.

(** *** [isValidGoogleDocsUrl] *)

(** The two fields of a parsed [URL] the function reads. *)
Record URL : Type := mkURL {
  protocol : string;
  hostname : string
}.

Definition allowedHosts : list string := ["docs.google.com"; "drive.google.com"].

(** [allowedHosts.includes(h)] *)
Definition includes (xs : list string) (x : string) : bool :=
  existsb (String.eqb x) xs.

Section Handler.

(** [new URL(url)]: [None] when the constructor throws. *)
Variable URL_parse : string -> option URL.

Variable env : Env.

Definition isValidGoogleDocsUrl (url : string) : bool :=
  match URL_parse url with
  | Some parsed =>
      includes allowedHosts (hostname parsed) && String.eqb (protocol parsed) "https:"
  | None => false
  end.

(** *** The three patterns of [fetchGoogleDocContent]

    Each has the shape [literal([a-zA-Z0-9_-]+)]; the third is anchored at
    both ends. *)

Record Pattern : Type := mkPattern {
  whole : bool;          (* [^ ... $] *)
  literal : string
}.

(** [/\/document\/d\/([a-zA-Z0-9_-]+)/] *)
Definition path_pattern : Pattern := mkPattern false "/document/d/".

(** [/id=([a-zA-Z0-9_-]+)/] *)
Definition query_pattern : Pattern := mkPattern false "id=".

(** [/^([a-zA-Z0-9_-]+)$/] *)
Definition bare_pattern : Pattern := mkPattern true EmptyString.

Definition patterns : list Pattern := [path_pattern; query_pattern; bare_pattern].

(** [[a-zA-Z0-9_-]] *)
Definition id_char (c : ascii) : bool :=
  let n := nat_of_ascii c in
  ((97 <=? n) && (n <=? 122) || (65 <=? n) && (n <=? 90)
   || (48 <=? n) && (n <=? 57) || (n =? 95) || (n =? 45))%nat.

(** The longest run of identifier characters at the start of [s], and the
    rest: the greedy [+] never has to give a character back, since nothing
    or the end of the input follows the group. *)
Fixpoint id_run (s : string) : string * string :=
  match s with
  | String c s' =>
      if id_char c then let (run, rest) := id_run s' in (String c run, rest)
      else (EmptyString, s)
  | EmptyString => (EmptyString, EmptyString)
  end.

(** What follows a run of identifier characters is not one. *)
Definition run_ends (rest : string) : Prop :=
  match rest with
  | EmptyString => True
  | String c _ => id_char c = false
  end.

Fixpoint drop (n : nat) (s : string) : string :=
  match n, s with
  | S n', String _ s' => drop n' s'
  | _, _ => s
  end.

(** A match of the pattern that starts at the first character of [s]:
    the text of group 1. *)
Definition match_here (p : Pattern) (s : string) : option string :=
  if String.prefix (literal p) s then
    let (run, rest) := id_run (drop (String.length (literal p)) s) in
    match run with
    | EmptyString => None
    | _ => if whole p
           then match rest with EmptyString => Some run | _ => None end
           else Some run
    end
  else None.

(** The leftmost match. *)
Fixpoint search (p : Pattern) (s : string) : option string :=
  match match_here p s with
  | Some id => Some id
  | None =>
      match s with
      | EmptyString => None
      | String _ s' => search p s'
      end
  end.

(** [url.match(pattern)], projected on group 1; [None] for [null]. *)
Definition String_match (url : string) (p : Pattern) : option string :=
  if whole p then match_here p url else search p url.

(** The [for] loop of lines 240-246. *)
Fixpoint first_match (url : string) (ps : list Pattern) : option string :=
  match ps with
  | [] => None
  | pattern :: rest =>
      match String_match url pattern with
      | Some id => Some id
      | None => first_match url rest
      end
  end.

(** [parseInt(s, 10)]: [None] for [NaN]. *)
Definition parseInt (s : string) : option Z :=
  let s := Str.trimStart s in
  let (negative, s) :=
    match s with
    | String "-" r => (true, r)
    | String "+" r => (false, r)
    | _ => (false, s)
    end in
  match fst (JsonText.digits s) with
  | EmptyString => None
  | d => let n := JsonText.digits_value d in Some (if negative then - n else n)
  end.

Local Open Scope js_scope.

Definition fetch (outcome : FetchOutcome) : M HttpResponse :=
  match outcome with
  | Resolved response => ret response
  | Rejected error => throw error
  end.

(** Line 277:
    [contentLength && parseInt(contentLength, 10) > MAX_DOCUMENT_SIZE] *)
Definition declared_too_large (response : HttpResponse) : bool :=
  match content_length response with
  | None => false
  | Some EmptyString => false
  | Some contentLength =>
      match parseInt contentLength with
      | Some n => MAX_DOCUMENT_SIZE <? n
      | None => false
      end
  end.

(** Line 253. *)
Definition export_url (docId : string) : string :=
  "https://docs.google.com/document/d/" ++ docId ++ "/export?format=txt".

Definition fetchGoogleDocContent (url : string) : M string :=
  match first_match url patterns with
  | None => throw (Error "Invalid Google Doc URL format")
  | Some docId =>
      let exportUrl := export_url docId in
      try_catch
        (emit (FetchDocument exportUrl) ;;;
         response <- fetch (fetch_document env exportUrl) ;;
         if negb (status_ok (http_status response)) then
           if http_status response =? 404 then
             throw (Error "Document not found. Please check the URL.")
           else if http_status response =? 403 then
             throw (Error "Document is private. Please make it publicly accessible.")
           else
             throw (Error ("Failed to fetch document: " ++ Str.of_Z (http_status response)))
         else
           if declared_too_large response then
             throw (Error "Document is too large to process.")
           else
             emit (ReadText (http_status response)) ;;;
             content <- lift (http_text response) ;;
             if MAX_DOCUMENT_SIZE <? Z.of_nat (String.length content) then
               throw (Error "Document is too large to process.")
             else if String.eqb content EmptyString
                     || (String.length (Str.trim content) =? 0)%nat then
               throw (Error "The document does not contain any usable information.")
             else ret content)
        (fun error =>
           if String.eqb (error_name error) "AbortError" then
             throw (Error "Document fetch timed out. Please try again.")
           else throw error)
  end.

(** [!s] for an optional string. *)
Definition missing (s : option string) : bool :=
  match s with
  | None => true
  | Some s' => String.eqb s' EmptyString
  end.

Definition role_name (r : Role) : string :=
  match r with
  | user => "user"
  | assistant => "assistant"
  end.

Definition chat_message (m : Message) : ChatMessage :=
  mkChatMessage (role_name (role m)) (content m).

(** Lines 350-358. *)
Definition build_messages (documentContent : string) (recentHistory : list Message)
    (question : string) : list ChatMessage :=
  ([ mkChatMessage "system" SYSTEM_PROMPT;
     mkChatMessage "user"
       (Str.literal "DOCUMENT CONTENT:\n\n" ++ documentContent
        ++ Str.literal "\n\n---\n\nPlease answer questions based ONLY on the above document content.") ]
   ++ map chat_message recentHistory
   ++ [ mkChatMessage "user" question ])%list.

(** Lines 362-373. *)
Definition chat_request (key : string) (messages : list ChatMessage) : ChatRequest :=
  mkChatRequest "https://ai.gateway.lovable.dev/v1/chat/completions"
    ("Bearer " ++ key) "google/gemini-3-flash-preview" messages true.

Definition generic_failure : string := "An error occurred processing your request".

Definition serve (req : Request) : M Response :=
  if String.eqb (method req) "OPTIONS" then ret (mkResponse 200 None NoBody)
  else
    try_catch
      (body <- lift (req_json req) ;;
       if missing (question body) || missing (documentUrl body) then
         ret (json_response "Question and document URL are required" 400)
       else
         let question := match question body with Some q => q | None => EmptyString end in
         let documentUrl := match documentUrl body with Some u => u | None => EmptyString end in
         if negb (isValidGoogleDocsUrl documentUrl) then
           emit (Console "warn" ["Invalid document URL attempted:"; documentUrl]) ;;;
           ret (json_response "Invalid document URL. Please provide a valid Google Docs URL." 400)
         else if missing (LOVABLE_API_KEY env) then
           emit (Console "error" ["Configuration error: LOVABLE_API_KEY is missing"]) ;;;
           ret (json_response "Service temporarily unavailable" 500)
         else
           let key := match LOVABLE_API_KEY env with Some k => k | None => EmptyString end in
           fetched <- try_catch
                        (documentContent <- fetchGoogleDocContent documentUrl ;;
                         ret (inr documentContent))
                        (fun error => ret (inl (error_message error))) ;;
           match fetched with
           | inl errorMessage => ret (json_response errorMessage 400)
           | inr documentContent =>
               recentHistory <-
                 match conversationHistory body with
                 | Some history => ret (Str.slice_array history (-10))
                 | None => throw (TypeError "Cannot read properties of undefined (reading 'slice')")
                 end ;;
               let messages := build_messages documentContent recentHistory question in
               emit (Console "log"
                       ["Sending request to AI gateway with";
                        Str.of_Z (Z.of_nat (List.length messages)); "messages"]) ;;;
               let request := chat_request key messages in
               emit (FetchModel request) ;;;
               response <- fetch (fetch_model env request) ;;
               if negb (status_ok (http_status response)) then
                 if http_status response =? 429 then
                   ret (json_response "Too many requests. Please try again later." 429)
                 else if http_status response =? 402 then
                   ret (json_response "Service limit reached. Please try again later." 402)
                 else
                   emit (ReadText (http_status response)) ;;;
                   errorText <- lift (http_text response) ;;
                   emit (Console "error"
                           ["Upstream service error:"; Str.of_Z (http_status response); errorText]) ;;;
                   ret (json_response generic_failure 500)
               else
                 ret (mkResponse 200 (Some "text/event-stream") (RelayBody response))
           end)
      (fun error =>
         emit (Console "error" ["Document chat error:"; error_message error]) ;;;
         ret (json_response generic_failure 500)).

(** The request passes the checks of lines 303-333: it is not a
    preflight, its body carries a question [q] and a document URL [u] that
    is valid, and the key of the gateway is configured. *)
Definition admitted (req : Request) (q u : string) (h : option (list Message))
    (key : string) : Prop :=
  method req <> "OPTIONS"
  /\ req_json req = inr (mkRequestBody (Some q) (Some u) h)
  /\ q <> EmptyString
  /\ u <> EmptyString
  /\ isValidGoogleDocsUrl u = true
  /\ LOVABLE_API_KEY env = Some key
  /\ key <> EmptyString.

End Handler.

(** The requests sent to the model, in order. *)
Fixpoint model_requests (t : list Effect) : list ChatRequest :=
  match t with
  | [] => []
  | FetchModel request :: rest => request :: model_requests rest
  | _ :: rest => model_requests rest
  end.


(** *** The error taxonomy of the specification

    The name the specification gives to each failure, as the value the
    code produces for it. *)

Definition InvalidDocumentFormat : JsError := Error "Invalid Google Doc URL format".

Definition DocumentNotFound : JsError := Error "Document not found. Please check the URL.".

Definition DocumentPrivate : JsError :=
  Error "Document is private. Please make it publicly accessible.".

Definition FetchFailed (status : Z) : JsError :=
  Error ("Failed to fetch document: " ++ Str.of_Z status).

Definition DocumentTooLarge : JsError := Error "Document is too large to process.".

Definition MissingField : Response :=
  json_response "Question and document URL are required" 400.

Definition InvalidUrl : Response :=
  json_response "Invalid document URL. Please provide a valid Google Docs URL." 400.

Definition RateLimited : Response :=
  json_response "Too many requests. Please try again later." 429.

Definition QuotaExceeded : Response :=
  json_response "Service limit reached. Please try again later." 402.

Definition UpstreamError : Response := json_response generic_failure 500.

(** The answer to a preflight request, lines 303-305. *)
Definition Preflight : Response := mkResponse 200 None NoBody.

(** The answer when the key of the gateway is not configured, lines 326-333. *)
Definition Unavailable : Response := json_response "Service temporarily unavailable" 500.

(** The answer that relays the stream of the gateway, lines 396-398. *)
Definition relay (upstream : HttpResponse) : Response :=
  mkResponse 200 (Some "text/event-stream") (RelayBody upstream).

Definition TimedOut : JsError := Error "Document fetch timed out. Please try again.".


(** The outbound network calls of a trace, in order. *)
Definition fetches (t : list Effect) : list Effect := filter is_fetch t.

(** [id] occurs in [url]. *)
Definition occurs_in (id url : string) : Prop :=
  exists before after, url = before ++ id ++ after.

(** The number of bytes of the UTF-8 encoding of a text whose code units
    are below 256: one byte for a code unit below 128, two from 128 on. *)
Fixpoint utf8_length (s : string) : Z :=
  match s with
  | EmptyString => 0
  | String c s' => (if (nat_of_ascii c <? 128)%nat then 1 else 2) + utf8_length s'
  end.

(** [c.repeat(n)] for a one-character text. *)
Fixpoint String_repeat (c : ascii) (n : nat) : string :=
  match n with
  | O => EmptyString
  | S n' => String c (String_repeat c n')
  end.

(** ** A reference URL parser

    [new URL(url)] on absolute URLs whose host is a plain ASCII domain
    name: the scheme, the slashes after it, the credentials and the port
    are read as the URL standard prescribes.  Hosts that need further
    decoding (IP literals, percent escapes, characters above 127) are
    outside its domain and give [None].  The theorems on the handler hold
    for every parser; this one is used for the concrete runs. *)

Module UrlText.

Definition code (c : ascii) : nat := nat_of_ascii c.

Definition is_alpha (c : ascii) : bool :=
  ((97 <=? code c) && (code c <=? 122) || (65 <=? code c) && (code c <=? 90))%nat.

Definition lower (c : ascii) : ascii :=
  if ((65 <=? code c) && (code c <=? 90))%nat then ascii_of_nat (code c + 32) else c.

Fixpoint lowercase (s : string) : string :=
  match s with
  | EmptyString => EmptyString
  | String c s' => String (lower c) (lowercase s')
  end.

Definition is_c0_or_space (c : ascii) : bool := (code c <=? 32)%nat.

Fixpoint trim_start (s : string) : string :=
  match s with
  | String c s' => if is_c0_or_space c then trim_start s' else s
  | EmptyString => EmptyString
  end.

Fixpoint trim_end (s : string) : string :=
  match s with
  | EmptyString => EmptyString
  | String c s' =>
      match trim_end s' with
      | EmptyString => if is_c0_or_space c then EmptyString else String c EmptyString
      | t => String c t
      end
  end.

(** ASCII tab and newlines are removed from the input. *)
Fixpoint remove_tab_nl (s : string) : string :=
  match s with
  | EmptyString => EmptyString
  | String c s' =>
      if ((code c =? 9) || (code c =? 10) || (code c =? 13))%nat
      then remove_tab_nl s' else String c (remove_tab_nl s')
  end.

Definition scheme_char (c : ascii) : bool :=
  is_alpha c || Json.is_digit c
  || ((code c =? 43) || (code c =? 45) || (code c =? 46))%nat.

(** The characters before the first [:], when they are all scheme
    characters, and the text after it. *)
Fixpoint scheme_rest (s : string) : option (string * string) :=
  match s with
  | EmptyString => None
  | String c s' =>
      if Ascii.eqb c ":" then Some (EmptyString, s')
      else if scheme_char c then
        match scheme_rest s' with
        | Some (sch, rest) => Some (String c sch, rest)
        | None => None
        end
      else None
  end.

Definition special (scheme : string) : bool :=
  includes ["http"; "https"; "ftp"; "ws"; "wss"] scheme.

Definition is_slash (c : ascii) : bool := Ascii.eqb c "/" || Ascii.eqb c "\".

Fixpoint skip_slashes (s : string) : string :=
  match s with
  | String c s' => if is_slash c then skip_slashes s' else s
  | EmptyString => EmptyString
  end.

(** The authority: up to the first [/], [\], [?] or [#]. *)
Fixpoint authority (s : string) : string :=
  match s with
  | EmptyString => EmptyString
  | String c s' =>
      if is_slash c || Ascii.eqb c "?" || Ascii.eqb c "#" then EmptyString
      else String c (authority s')
  end.

(** The text after the last [@]. *)
Fixpoint after_credentials (s : string) : string :=
  match s with
  | EmptyString => EmptyString
  | String c s' =>
      if (0 <=? Str.indexOf "@" s) then after_credentials s' else s
  end.

Fixpoint host_of (s : string) : string :=
  match s with
  | EmptyString => EmptyString
  | String c s' => if Ascii.eqb c ":" then EmptyString else String c (host_of s')
  end.

Definition port_ok (hostport : string) : bool :=
  let i := Str.indexOf ":" hostport in
  if i =? -1 then true
  else
    match Json.digits_from 0 (Str.slice hostport (i + 1) None) with
    | Some n => n <=? 65535
    | None => false
    end.

(** A character of a plain domain name: ASCII, not a forbidden domain code
    point. *)
Definition domain_char (c : ascii) : bool :=
  ((33 <=? code c) && (code c <=? 126))%nat
  && negb (existsb (Ascii.eqb c)
             ["#"; "%"; "/"; ":"; "<"; ">"; "?"; "@"; "["; "\"; "]"; "^"; "|"]%char).

Fixpoint all_chars (p : ascii -> bool) (s : string) : bool :=
  match s with
  | EmptyString => true
  | String c s' => p c && all_chars p s'
  end.

Fixpoint last_label (s : string) : string :=
  match s with
  | EmptyString => EmptyString
  | String c s' =>
      if (0 <=? Str.indexOf "." s) then last_label s' else s
  end.

Definition plain_domain (host : string) : bool :=
  negb (String.eqb host EmptyString)
  && all_chars domain_char host
  && match last_label host with
     | String c _ => negb (Json.is_digit c)
     | EmptyString => true
     end.

Definition URL_parse (url : string) : option URL :=
  let input := remove_tab_nl (trim_end (trim_start url)) in
  match input with
  | EmptyString => None
  | String c _ =>
      if negb (is_alpha c) then None
      else
        match scheme_rest input with
        | None => None
        | Some (sch, rest) =>
            let scheme := lowercase sch in
            if special scheme then
              let hostport := after_credentials (authority (skip_slashes rest)) in
              let host := lowercase (host_of hostport) in
              if plain_domain host && port_ok hostport
              then Some (mkURL (scheme ++ ":") host)
              else None
            else None
        end
  end.

End UrlText.


(** ** The chat page and its input components *)

Module Page.

(** [interface Message] of the page. *)
Record Message : Type := mkMessage {
  id : string;
  role : Role;
  content : string
}.

(** [prev[prev.length - 1]]: [None] for [undefined]. *)
Fixpoint last_message (prev : list Message) : option Message :=
  match prev with
  | [] => None
  | [m] => Some m
  | _ :: rest => last_message rest
  end.

Definition is_assistant (r : Role) : bool :=
  match r with
  | assistant => true
  | user => false
  end.

(** The updater that [onDelta] passes to [setMessages], lines 176-184 of
    [handleSend]; [assistantContent] is the value the variable has when
    the updater runs. *)
Definition show_delta (assistantId assistantContent : string) (prev : list Message)
    : list Message :=
  match last_message prev with
  | Some last =>
      if is_assistant (role last) && String.eqb (id last) assistantId then
        map (fun m =>
               if String.eqb (id m) assistantId
               then mkMessage (id m) (role m) assistantContent
               else m) prev
      else (prev ++ [mkMessage assistantId assistant assistantContent])%list
  | None => (prev ++ [mkMessage assistantId assistant assistantContent])%list
  end.

(** The state [messages] after [handleSend(content)] when no other update
    of [messages] comes in between: the updater of line 159 and then
    those of the deltas, applied in the order of the calls of
    [setMessages].  [now] and [later] are the results of the two
    calls of [Date.now()], and [seen] the values of [assistantContent]
    that the updaters of the deltas read, in order. *)
Definition handleSend (now later : Z) (content : string) (seen : list string)
    (messages : list Message) : list Message :=
  let userMessage := mkMessage (Str.of_Z now) user content in
  let assistantId := Str.of_Z (later + 1) in
  fold_left (fun prev assistantContent => show_delta assistantId assistantContent prev)
    seen (messages ++ [userMessage])%list.

End Page.

(** [handleSubmit] of [ChatInput]: the argument of the call of [onSend],
    if it is made, and the new value of [input]. *)
Definition ChatInput_handleSubmit (input : string) (disabled : bool)
    : option string * string :=
  let trimmed := Str.trim input in
  if negb (String.eqb trimmed EmptyString) && negb disabled
  then (Some trimmed, EmptyString)
  else (None, input).

(** [handleSubmit] of [DocumentInput]: the argument of the call of
    [onConnect], if it is made. *)
Definition DocumentInput_handleSubmit (url : string) : option string :=
  if negb (String.eqb (Str.trim url) EmptyString) then Some (Str.trim url) else None.

(** [s.includes(sub)] *)
Fixpoint String_includes (s sub : string) : bool :=
  if String.prefix sub s then true
  else match s with
       | EmptyString => false
       | String _ s' => String_includes s' sub
       end.

(** Line 23 of [DocumentInput]. *)
Definition isValidUrl (url : string) : bool :=
  String_includes url "docs.google.com" || String_includes url "drive.google.com".


(** ** Sample inputs *)

Definition late_line : string :=
  Str.literal "data: {`choices`:[{`delta`:{`content`:`late`}}]}\n".

Definition done_line : string := Str.literal "data: [DONE]\n".

Definition sample_url : string := "https://docs.google.com/document/d/ABC123/edit".

Definition sample_document : string := "Section 1.1: the launch is planned for March.".

(** A world with a key, one public document and a gateway that answers
    with the given status. *)
Definition sample_env (document : HttpResponse) (gateway_status : Z) : Env :=
  mkEnv (Some "secret")
        (fun exportUrl =>
           if String.eqb exportUrl (export_url "ABC123") then Resolved document
           else Resolved (mkHttpResponse 404 None (inr "Not Found")))
        (fun _ => Resolved (mkHttpResponse gateway_status None (inr "upstream detail"))).

Definition public_document : HttpResponse :=
  mkHttpResponse 200 (Some "45") (inr sample_document).

Definition turn (n : nat) : Message :=
  mkMessage (if Nat.odd n then user else assistant) ("turn " ++ Str.of_Z (Z.of_nat n)).

(** Twelve prior messages, oldest first. *)
Definition twelve_turns : list Message := map turn (seq 1 12).

Definition sample_request (q u : option string) (h : list Message) : Request :=
  mkRequest "POST" (inr (mkRequestBody q u (Some h))).

Definition early_line : string :=
  Str.literal "data: {`choices`:[{`delta`:{`content`:`He`}}]}\n".

Definition next_line : string :=
  Str.literal "data: {`choices`:[{`delta`:{`content`:`llo`}}]}\n".

(** A complete data line whose payload is cut short. *)
Definition bad_line : string := Str.literal "data: {`choices`:[{`delta`\n".

(** A world whose document fetch is aborted by the timer. *)
Definition offline_env : Env :=
  mkEnv (Some "secret")
        (fun _ => Rejected (mkError "AbortError" "The signal has been aborted"))
        (fun _ => Rejected (TypeError "fetch failed")).

Definition private_document : HttpResponse := mkHttpResponse 403 None (inr "Forbidden").


(** A request with the sample question and document, with or without a
    history. *)
Definition launch_request (h : option (list Message)) : Request :=
  mkRequest "POST"
    (inr (mkRequestBody (Some "When is the launch?") (Some sample_url) h)).

(** * Properties *)

(** ** The primitives on sample inputs *)

Example slice_payload : Str.slice "data: {}" 6 None = "{}".
Proof. reflexivity. Qed.

Example slice_drops_last : Str.slice "abc" 0 (Some (-1)) = "ab".
Proof. reflexivity. Qed.

Example slice_array_window : Str.slice_array [1; 2; 3] (-10) = [1; 2; 3].
Proof. reflexivity. Qed.

Example split_keeps_empty_pieces : Str.split "/" "a//b/" = ["a"; EmptyString; "b"; EmptyString].
Proof. reflexivity. Qed.

Example trim_both_ends : Str.trim (Str.literal " \t a b \r\n") = "a b".
Proof. reflexivity. Qed.

Example indexOf_first : Str.indexOf "b" "aabab" = 2 /\ Str.indexOf "z" "aabab" = -1.
Proof. split; reflexivity. Qed.

Example parse_record :
  JsonText.JSON_parse (Str.literal "{`choices`:[{`delta`:{`content`:`Hi`},`index`:0}]}")
  = Some (JObject
            [("choices",
              JArray [JObject [("delta", JObject [("content", JString "Hi")]);
                               ("index", JNumber 0 0)]])]).
Proof. reflexivity. Qed.

Example parse_rejects :
  map JsonText.JSON_parse
    [Str.literal "{`choices`:[{`delta`"; "[DONE]"; EmptyString; "01"; Str.literal "{`a`:1,}"]
  = [None; None; None; None; None].
Proof. reflexivity. Qed.

Example parse_number : JsonText.JSON_parse "-12.50e3" = Some (JNumber (-1250) 1).
Proof. reflexivity. Qed.

Example content_of_record :
  try_content JsonText.JSON_parse
    (Str.literal "{`choices`:[{`delta`:{`content`:`Hi`}}]}")
  = Content (JString "Hi")
  /\ try_content JsonText.JSON_parse (Str.literal "{`choices`:[{`delta`:{}}]}") = NoContent
  /\ try_content JsonText.JSON_parse (Str.literal "{`choices`:[]}") = NoContent
  /\ try_content JsonText.JSON_parse "null" = Threw
  /\ try_content JsonText.JSON_parse (Str.literal "{`choices`") = Threw.
Proof. repeat split. Qed.

Example url_hosts :
  map UrlText.URL_parse
    ["https://docs.google.com/document/d/ABC123/edit";
     "https://user@Docs.Google.com:443/x";
     "https://docs.google.com.evil.com/";
     "http://docs.google.com/";
     "docs.google.com/document/d/ABC123"]
  = [Some (mkURL "https:" "docs.google.com");
     Some (mkURL "https:" "docs.google.com");
     Some (mkURL "https:" "docs.google.com.evil.com");
     Some (mkURL "http:" "docs.google.com");
     None].
Proof. reflexivity. Qed.

Example identifiers :
  map (fun url => first_match url patterns)
    ["https://docs.google.com/document/d/ABC123/edit";
     "https://drive.google.com/open?id=1a_B-c&x=1";
     "ABC123";
     "https://docs.google.com/document/d//edit"]
  = [Some "ABC123"; Some "1a_B-c"; Some "ABC123"; None].
Proof. reflexivity. Qed.

Example parseInt_prefix :
  map parseInt [" 6000000"; "12abc"; "abc"; "-5"; EmptyString]
  = [Some 6000000; Some 12; None; Some (-5); None].
Proof. reflexivity. Qed.

Example decode_split_record :
  streamChat JsonText.JSON_parse
    (streamed (map Str.literal
       ["data: {`choices`:[{`delta`:{`content`:`He`}}]}\r\n\r\n: ping\r\ndata: {`choi";
        "ces`:[{`delta`:{`content`:`llo`}}]}\n\ndata: [DONE]\n\n"]))
  = [onDelta (JString "He"); onDelta (JString "llo"); onDone].
Proof. vm_compute. reflexivity. Qed.

(** ** Strings *)

Module StrFacts.
Import Str.

Lemma append_assoc (a b c : string) : (a ++ b) ++ c = a ++ (b ++ c).
Proof. induction a as [|x a IH]; simpl; [reflexivity | now rewrite IH]. Qed.

Lemma append_nil_r (a : string) : a ++ EmptyString = a.
Proof. induction a as [|x a IH]; simpl; [reflexivity | now rewrite IH]. Qed.

Lemma length_append (a b : string) :
  String.length (a ++ b) = (String.length a + String.length b)%nat.
Proof. induction a as [|x a IH]; simpl; [reflexivity | now rewrite IH]. Qed.

Lemma substring_all (s : string) : substring 0 (String.length s) s = s.
Proof. induction s as [|x s IH]; simpl; [reflexivity | now rewrite IH]. Qed.

Lemma substring_prefix (a b : string) :
  substring 0 (String.length a) (a ++ b) = a.
Proof.
  induction a as [|x a IH]; simpl.
  - destruct b; reflexivity.
  - now rewrite IH.
Qed.

Lemma substring_suffix (a b : string) :
  substring (String.length a) (String.length b) (a ++ b) = b.
Proof.
  induction a as [|x a IH]; simpl.
  - apply substring_all.
  - exact IH.
Qed.

Lemma indexOf_range (c : ascii) (s : string) :
  indexOf c s = -1 \/ 0 <= indexOf c s < Z.of_nat (String.length s).
Proof.
  induction s as [|x s IH]; simpl.
  - now left.
  - destruct (Ascii.eqb x c).
    + right. lia.
    + destruct IH as [IH|IH].
      * rewrite IH. now left.
      * right. destruct (Z.eqb_spec (indexOf c s) (-1)); lia.
Qed.

(** The first occurrence of [c] cuts the string in two. *)
Lemma indexOf_cut (c : ascii) (s : string) :
  indexOf c s <> -1 ->
  exists line rest,
    s = line ++ String c rest
    /\ indexOf c s = Z.of_nat (String.length line)
    /\ indexOf c line = -1.
Proof.
  induction s as [|x s IH]; simpl; intros H.
  - congruence.
  - destruct (Ascii.eqb_spec x c) as [->|Hx].
    + exists EmptyString, s. repeat split.
    + destruct (Z.eqb_spec (indexOf c s) (-1)) as [E|E]; [congruence|].
      destruct (IH E) as (line & rest & Hs & Hi & Hl).
      exists (String x line), rest. repeat split.
      * simpl. now rewrite <- Hs.
      * simpl String.length. rewrite Hi. lia.
      * simpl. destruct (Ascii.eqb_spec x c); [congruence|]. now rewrite Hl.
Qed.

Lemma slice_before (a b : string) :
  slice (a ++ b) 0 (Some (Z.of_nat (String.length a))) = a.
Proof.
  unfold slice, clamp. rewrite length_append.
  replace (0 <? 0) with false by reflexivity.
  destruct (Z.ltb_spec (Z.of_nat (String.length a)) 0) as [H|H]; [lia|].
  rewrite Z.min_l by lia. rewrite Z.min_l by lia.
  rewrite Z.sub_0_r, Nat2Z.id. apply substring_prefix.
Qed.

Lemma slice_after (a b : string) (c : ascii) :
  slice (a ++ String c b) (Z.of_nat (String.length a) + 1) None = b.
Proof.
  unfold slice, clamp. rewrite length_append. simpl String.length.
  destruct (Z.ltb_spec (Z.of_nat (String.length a) + 1) 0) as [H|H]; [lia|].
  rewrite Z.min_l by lia.
  replace (Z.to_nat (Z.of_nat (String.length a) + 1))
    with (String.length (a ++ String c EmptyString))
    by (rewrite length_append; simpl; lia).
  replace (Z.to_nat _) with (String.length b) by lia.
  replace (a ++ String c b) with ((a ++ String c EmptyString) ++ b)
    by (rewrite append_assoc; reflexivity).
  apply substring_suffix.
Qed.

Lemma slice_from_length (a b : string) :
  slice (a ++ b) (Z.of_nat (String.length a)) None = b.
Proof.
  unfold slice, clamp. rewrite length_append.
  destruct (Z.ltb_spec (Z.of_nat (String.length a)) 0) as [H|H]; [lia|].
  rewrite Z.min_l by lia. rewrite Nat2Z.id.
  replace (Z.to_nat _) with (String.length b) by lia.
  apply substring_suffix.
Qed.

Lemma slice_drop_last (m : string) (c : ascii) :
  slice (m ++ String c EmptyString) 0 (Some (-1)) = m.
Proof.
  unfold slice, clamp. rewrite length_append. simpl String.length.
  replace (0 <? 0) with false by reflexivity.
  replace (-1 <? 0) with true by reflexivity.
  rewrite Z.min_l by lia. rewrite Z.max_l by lia.
  replace (Z.to_nat (Z.of_nat (String.length m + 1) + -1 - 0))
    with (String.length m) by lia.
  apply substring_prefix.
Qed.

Lemma indexOf_cons_none (c x : ascii) (s : string) :
  indexOf c (String x s) = -1 <-> Ascii.eqb x c = false /\ indexOf c s = -1.
Proof.
  simpl. destruct (Ascii.eqb x c); [split; [discriminate | intros [H _]; discriminate]|].
  destruct (indexOf_range c s) as [E|E].
  - rewrite E. simpl. tauto.
  - destruct (Z.eqb_spec (indexOf c s) (-1)); [lia|]. split; [lia | intros [_ H]; lia].
Qed.

Lemma indexOf_app_none (c : ascii) (a b : string) :
  indexOf c (a ++ b) = -1 <-> indexOf c a = -1 /\ indexOf c b = -1.
Proof.
  induction a as [|x a IH].
  - simpl. tauto.
  - change (String x a ++ b) with (String x (a ++ b)).
    rewrite !indexOf_cons_none, IH. tauto.
Qed.

Lemma split_nonempty (c : ascii) (s : string) : split c s <> [].
Proof.
  destruct s as [|x s]; simpl; [discriminate|].
  destruct (Ascii.eqb x c); [discriminate|].
  destruct (split c s); discriminate.
Qed.

Lemma split_none (c : ascii) (s : string) : indexOf c s = -1 -> split c s = [s].
Proof.
  induction s as [|x s IH]; intros H; [reflexivity|].
  apply indexOf_cons_none in H as [Hx Hs]. simpl. rewrite Hx.
  now rewrite (IH Hs).
Qed.

(** Splitting after a first line. *)
Lemma split_cut (c : ascii) (line rest : string) :
  indexOf c line = -1 ->
  split c (line ++ String c rest) = line :: split c rest.
Proof.
  induction line as [|x line IH]; intros H.
  - simpl. now rewrite Ascii.eqb_refl.
  - apply indexOf_cons_none in H as [Hx Hs]. simpl. rewrite Hx.
    now rewrite (IH Hs).
Qed.

Lemma removelast_cons {A : Type} (x : A) (l : list A) :
  l <> [] -> removelast (x :: l) = x :: removelast l.
Proof. destruct l; [congruence | reflexivity]. Qed.

(** The last character of a non-empty string. *)
Lemma endsWith_inv (l : string) (c : ascii) :
  endsWith l (String c EmptyString) = true ->
  exists m, l = m ++ String c EmptyString.
Proof.
  unfold endsWith. simpl String.length.
  induction l as [|x l IH]; [discriminate|].
  destruct l as [|y l].
  - simpl. intros H. destruct (Ascii.eqb_spec x c) as [->|]; [|discriminate].
    now exists EmptyString.
  - intros H.
    assert (H' : (1 <=? String.length (String y l))%nat
                 && String.eqb (substring (String.length (String y l) - 1) 1 (String y l))
                      (String c EmptyString) = true).
    { simpl. simpl in H. rewrite Nat.sub_0_r. exact H. }
    destruct (IH H') as [m Hm].
    exists (String x m). simpl. now rewrite <- Hm.
Qed.
Lemma prefix_inv (p s : string) :
  String.prefix p s = true -> exists x, s = p ++ x.
Proof.
  revert s. induction p as [|a p IH]; intros s H.
  - now exists s.
  - destruct s as [|b s]; simpl in H; [discriminate|].
    destruct (ascii_dec a b) as [->|]; [|discriminate].
    destruct (IH _ H) as [x ->]. now exists x.
Qed.

Lemma prefix_app (p x : string) : String.prefix p (p ++ x) = true.
Proof.
  induction p as [|a p IH]; simpl.
  - destruct x; reflexivity.
  - destruct (ascii_dec a a); [exact IH | congruence].
Qed.

(** A prefix without [c] of a string ending in [c] does not reach the end. *)
Lemma prefix_drop_last (p m : string) (c : ascii) :
  indexOf c p = -1 ->
  String.prefix p (m ++ String c EmptyString) = true ->
  String.prefix p m = true.
Proof.
  revert m. induction p as [|a p IH]; intros m Hc H.
  - destruct m; reflexivity.
  - apply indexOf_cons_none in Hc as [Ha E].
    destruct m as [|b m]; simpl in H |- *.
    + destruct (ascii_dec a c) as [->|]; [|discriminate].
      rewrite Ascii.eqb_refl in Ha. discriminate.
    + destruct (ascii_dec a b); [|discriminate]. now apply IH.
Qed.

Lemma append_inj_l (p x y : string) : p ++ x = p ++ y -> x = y.
Proof. induction p as [|a p IH]; simpl; intros H; [exact H | inversion H; auto]. Qed.

(** *** Trimming *)

Lemma trimEnd_ws (s : string) (c : ascii) :
  isWhiteSpace c = true -> trimEnd (s ++ String c EmptyString) = trimEnd s.
Proof.
  intros Hc. induction s as [|x s IH]; simpl.
  - now rewrite Hc.
  - now rewrite IH.
Qed.

Lemma trimStart_all_ws (s : string) : all_ws s = true -> trimStart s = EmptyString.
Proof.
  induction s as [|x s IH]; simpl; [reflexivity|].
  destruct (isWhiteSpace x); [exact IH | discriminate].
Qed.

Lemma trimStart_app (s t : string) :
  all_ws s = false -> trimStart (s ++ t) = trimStart s ++ t.
Proof.
  induction s as [|x s IH]; simpl; [discriminate|].
  destruct (isWhiteSpace x); simpl; [exact IH | reflexivity].
Qed.

Lemma trim_ws_end (s : string) (c : ascii) :
  isWhiteSpace c = true -> trim (s ++ String c EmptyString) = trim s.
Proof.
  intros Hc. unfold trim. destruct (all_ws s) eqn:E.
  - rewrite (trimStart_all_ws s E).
    rewrite trimStart_all_ws; [reflexivity|].
    clear -E Hc. induction s as [|x s IH]; simpl in *.
    + now rewrite Hc.
    + apply andb_true_iff in E as [-> E]. simpl. auto.
  - rewrite trimStart_app by exact E. now apply trimEnd_ws.
Qed.

Lemma trimEnd_empty (s : string) : trimEnd s = EmptyString <-> all_ws s = true.
Proof.
  induction s as [|x s IH]; simpl; [tauto|].
  destruct (trimEnd s) eqn:E.
  - destruct (isWhiteSpace x); simpl; [tauto | split; discriminate].
  - split; [discriminate|]. intros H. apply andb_true_iff in H as [_ H].
    apply IH in H. discriminate.
Qed.

Lemma trimStart_ws_suffix (s : string) :
  all_ws (trimStart s) = true -> all_ws s = true.
Proof.
  induction s as [|x s IH]; simpl; [reflexivity|].
  destruct (isWhiteSpace x) eqn:E; simpl.
  - exact IH.
  - now rewrite E.
Qed.

Lemma trim_empty (s : string) : trim s = EmptyString <-> all_ws s = true.
Proof.
  unfold trim. rewrite trimEnd_empty. split.
  - apply trimStart_ws_suffix.
  - intros H. now rewrite (trimStart_all_ws s H).
Qed.

End StrFacts.

(** ** The stream decoder *)

Section StreamChatFacts.
Import Str StrFacts.

Variable JSON_parse : string -> option json.

Local Notation verdict := (verdict JSON_parse).
Local Notation lines_loop := (lines_loop JSON_parse).
Local Notation flush_loop := (flush_loop JSON_parse).
Local Notation process := (process JSON_parse).
Local Notation read_loop := (read_loop JSON_parse).
Local Notation final_flush := (final_flush JSON_parse).
Local Notation decode := (decode JSON_parse).
Local Notation deliverable := (deliverable JSON_parse).
Local Notation delivers := (delivers JSON_parse).
Local Notation reaches_done := (reaches_done JSON_parse).
Local Notation is_done_line := (is_done_line JSON_parse).
Local Notation is_malformed := (is_malformed JSON_parse).
Local Notation flush_preserved := (flush_preserved JSON_parse).

Lemma strip_cr_spec (l : string) :
  strip_cr l = l \/ l = strip_cr l ++ cr.
Proof.
  unfold strip_cr. destruct (endsWith l cr) eqn:E; [right | now left].
  apply endsWith_inv in E as [m ->]. now rewrite slice_drop_last.
Qed.

Lemma strip_cr_no_LF (l : string) :
  indexOf LF l = -1 -> indexOf LF (strip_cr l) = -1.
Proof.
  intros H. destruct (strip_cr_spec l) as [E|E]; [now rewrite E|].
  rewrite E in H. now apply indexOf_app_none in H.
Qed.

Lemma all_ws_app (a b : string) : all_ws (a ++ b) = all_ws a && all_ws b.
Proof.
  induction a as [|x a IH]; simpl; [reflexivity|].
  now rewrite IH, andb_assoc.
Qed.

Lemma strip_cr_all_ws (l : string) : all_ws l = true -> all_ws (strip_cr l) = true.
Proof.
  intros H. destruct (strip_cr_spec l) as [E|E]; [now rewrite E|].
  rewrite E, all_ws_app in H. now apply andb_true_iff in H.
Qed.

Lemma trim_data_nonempty (x : string) : trim ("data: " ++ x) <> EmptyString.
Proof.
  unfold trim.
  change (trimStart ("data: " ++ x)) with (String "d" ("ata: " ++ x)).
  cbn [trimEnd]. destruct (trimEnd ("ata: " ++ x)); [|discriminate].
  replace (isWhiteSpace "d") with false by reflexivity. discriminate.
Qed.

(** Stripping a second carriage return from a data line leaves it a data
    line with the same payload. *)
Lemma data_line_strip (l : string) :
  startsWith l "data: " = true ->
  startsWith (strip_cr l) ":" = false
  /\ trim (strip_cr l) <> EmptyString
  /\ startsWith (strip_cr l) "data: " = true
  /\ trim (slice (strip_cr l) 6 None) = trim (slice l 6 None).
Proof.
  intros H.
  assert (H2 : startsWith (strip_cr l) "data: " = true).
  { destruct (strip_cr_spec l) as [E|E]; [now rewrite E|].
    rewrite E in H. unfold startsWith in *.
    now apply prefix_drop_last in H. }
  unfold startsWith in H, H2.
  destruct (prefix_inv _ _ H) as [x Hx], (prefix_inv _ _ H2) as [y Hy].
  repeat split.
  - rewrite Hy. reflexivity.
  - rewrite Hy. apply trim_data_nonempty.
  - exact H2.
  - destruct (strip_cr_spec l) as [E|E]; [now rewrite E|].
    assert (Sx : slice l 6 None = x)
      by (rewrite Hx; apply (slice_from_length "data: ")).
    assert (Sy : slice (strip_cr l) 6 None = y)
      by (rewrite Hy; apply (slice_from_length "data: ")).
    rewrite Sx, Sy.
    rewrite Hy in E. rewrite Hx in E. rewrite append_assoc in E.
    apply append_inj_l in E. rewrite E. symmetry. now apply trim_ws_end.
Qed.

Lemma verdict_data_line (raw : string) :
  verdict raw <> Skipped -> startsWith (strip_cr raw) "data: " = true.
Proof.
  unfold verdict.
  destruct (startsWith (strip_cr raw) ":" || _); [congruence|].
  destruct (startsWith (strip_cr raw) "data: "); simpl; congruence.
Qed.

(** A line that was pushed back fails again. *)
Lemma verdict_pushback (raw : string) :
  verdict raw = Malformed -> verdict (strip_cr raw) = Malformed.
Proof.
  intros H.
  assert (D : startsWith (strip_cr raw) "data: " = true)
    by (apply verdict_data_line; congruence).
  destruct (data_line_strip _ D) as (A & B & C & E).
  unfold verdict in *. rewrite A, C, E.
  apply String.eqb_neq in B. rewrite B. simpl.
  rewrite D in H.
  destruct (startsWith (strip_cr raw) ":" || _); [discriminate|]. exact H.
Qed.

(** One iteration of the reading loop, on a buffer that starts with a
    complete line. *)
Lemma lines_loop_step (fuel : nat) (d : Decoder) (line rest : string) :
  textBuffer d = line ++ String LF rest ->
  indexOf LF line = -1 ->
  lines_loop (S fuel) d =
    match verdict line with
    | Skipped | Silent => lines_loop fuel (mkDecoder rest (streamDone d) (delivered d))
    | Delivered c =>
        lines_loop fuel (mkDecoder rest (streamDone d) (delivered d ++ [c])%list)
    | Terminated => mkDecoder rest true (delivered d)
    | Malformed => mkDecoder (strip_cr line ++ nl ++ rest) (streamDone d) (delivered d)
    end.
Proof.
  intros Hb Hl.
  assert (Hi : indexOf LF (textBuffer d) = Z.of_nat (String.length line)).
  { rewrite Hb. clear Hb. induction line as [|x line IH].
    - reflexivity.
    - apply indexOf_cons_none in Hl as [Hx Hl].
      change (String x line ++ String LF rest) with (String x (line ++ String LF rest)).
      simpl indexOf. rewrite Hx, (IH Hl).
      destruct (Z.eqb_spec (Z.of_nat (String.length line)) (-1)); [lia|].
      simpl String.length. lia. }
  simpl. rewrite Hi.
  destruct (Z.eqb_spec (Z.of_nat (String.length line)) (-1)); [lia|].
  rewrite Hb, slice_before, slice_after.
  unfold verdict.
  destruct (startsWith (strip_cr line) ":" || _); [reflexivity|].
  destruct (startsWith (strip_cr line) "data: "); simpl; [|reflexivity].
  destruct (String.eqb _ "[DONE]"); [reflexivity|].
  destruct (try_content _ _); reflexivity.
Qed.

Lemma lines_loop_stop (fuel : nat) (d : Decoder) :
  indexOf LF (textBuffer d) = -1 -> lines_loop fuel d = d.
Proof. intros H. destruct fuel; simpl; [reflexivity | now rewrite H]. Qed.

(** One iteration of the flush loop. *)
Lemma flush_loop_step (raw : string) (rest : list string) (out : list json) :
  flush_loop (raw :: rest) out =
    match verdict raw with
    | Delivered c => flush_loop rest (out ++ [c])%list
    | _ => flush_loop rest out
    end.
Proof.
  simpl. destruct (String.eqb_spec raw EmptyString) as [->|_].
  - reflexivity.
  - unfold verdict.
    destruct (startsWith (strip_cr raw) ":" || _); [reflexivity|].
    destruct (startsWith (strip_cr raw) "data: "); simpl; [|reflexivity].
    destruct (String.eqb _ "[DONE]"); [reflexivity|].
    destruct (try_content _ _); reflexivity.
Qed.

Lemma flush_loop_app (a b : list string) (out : list json) :
  flush_loop (a ++ b)%list out = flush_loop b (flush_loop a out).
Proof.
  revert out. induction a as [|raw a IH]; intros out; [reflexivity|].
  change ((raw :: a) ++ b)%list with (raw :: (a ++ b))%list.
  rewrite !flush_loop_step. destruct (verdict raw); apply IH.
Qed.

(** The flush loop only adds to what was delivered, and what it adds
    comes from data lines. *)
Lemma flush_loop_extends (raws : list string) (out : list json) :
  exists more,
    flush_loop raws out = (out ++ more)%list
    /\ forall c, In c more -> exists raw, In raw raws /\ delivers raw c.
Proof.
  revert out. induction raws as [|raw raws IH]; intros out.
  - exists []. split; [now rewrite app_nil_r | intros c []].
  - rewrite flush_loop_step. destruct (verdict raw) as [| |c0| |] eqn:V.
    3: { destruct (IH (out ++ [c0])%list) as (more & E & P).
         exists (c0 :: more). split.
         - rewrite E, <- app_assoc. reflexivity.
         - intros c [<-|Hc].
           + exists raw. split; [now left | exact V].
           + destruct (P c Hc) as (r & Hr & Dr). exists r. split; [now right | exact Dr]. }
    all: destruct (IH out) as (more & E & P); exists more; split; [exact E|];
      intros c Hc; destruct (P c Hc) as (r & Hr & Dr); exists r; split;
      [now right | exact Dr].
Qed.

(** A text of white space has nothing to flush: the guard of line 79
    changes nothing. *)
Lemma split_all_ws (s : string) :
  all_ws s = true -> forall raw, In raw (split LF s) -> all_ws raw = true.
Proof.
  induction s as [|x s IH]; simpl; intros H raw Hr.
  - destruct Hr as [<-|[]]. reflexivity.
  - apply andb_true_iff in H as [Hx Hs]. specialize (IH Hs).
    destruct (Ascii.eqb x LF).
    + destruct Hr as [<-|Hr]; [reflexivity | now apply IH].
    + destruct (split LF s) as [|piece pieces] eqn:E.
      * destruct Hr as [<-|[]]. simpl. now rewrite Hx.
      * destruct Hr as [<-|Hr].
        -- simpl. rewrite Hx. apply IH. now left.
        -- apply IH. now right.
Qed.

Lemma verdict_all_ws (raw : string) : all_ws raw = true -> verdict raw = Skipped.
Proof.
  intros H. apply strip_cr_all_ws in H. apply trim_empty in H.
  unfold verdict. rewrite H. simpl. now rewrite orb_true_r.
Qed.

Lemma flush_loop_blank (raws : list string) (out : list json) :
  (forall raw, In raw raws -> all_ws raw = true) -> flush_loop raws out = out.
Proof.
  induction raws as [|raw raws IH]; intros H; [reflexivity|].
  rewrite flush_loop_step, verdict_all_ws by (apply H; now left).
  apply IH. intros r Hr. apply H. now right.
Qed.

Lemma final_flush_eq (d : Decoder) :
  final_flush d = flush_loop (split LF (textBuffer d)) (delivered d).
Proof.
  unfold final_flush.
  destruct (String.eqb_spec (trim (textBuffer d)) EmptyString) as [E|E]; simpl.
  - symmetry. apply flush_loop_blank. apply split_all_ws. now apply trim_empty.
  - reflexivity.
Qed.

(** *** The reading loop against the flush *)

Lemma lines_loop_flush (fuel : nat) (d : Decoder) :
  flush_preserved d (lines_loop fuel d) EmptyString.
Proof.
  revert d. induction fuel as [|fuel IH]; intros d more; [reflexivity|].
  destruct (Z.eq_dec (indexOf LF (textBuffer d)) (-1)) as [E|E].
  - now rewrite lines_loop_stop.
  - destruct (indexOf_cut _ _ E) as (line & rest & Hb & _ & Hl).
    rewrite (lines_loop_step fuel d _ _ Hb Hl).
    change (EmptyString ++ more) with more. rewrite Hb.
    rewrite append_assoc. change (String LF rest ++ more) with (String LF (rest ++ more)).
    rewrite split_cut by exact Hl. rewrite flush_loop_step.
    destruct (verdict line) eqn:V.
    + rewrite IH. reflexivity.
    + reflexivity.
    + rewrite IH. reflexivity.
    + rewrite IH. reflexivity.
    + cbn [textBuffer delivered]. unfold nl.
      rewrite !append_assoc.
      change (String LF EmptyString ++ rest ++ more) with (String LF (rest ++ more)).
      rewrite split_cut by (apply strip_cr_no_LF; exact Hl). rewrite flush_loop_step.
      now rewrite verdict_pushback by exact V.
Qed.

(** *** Enough fuel *)

Lemma lines_loop_fuel (fuel extra : nat) (d : Decoder) :
  (String.length (textBuffer d) < fuel)%nat ->
  lines_loop (fuel + extra) d = lines_loop fuel d.
Proof.
  revert d. induction fuel as [|fuel IH]; intros d H; [lia|].
  destruct (Z.eq_dec (indexOf LF (textBuffer d)) (-1)) as [E|E].
  - now rewrite !lines_loop_stop.
  - destruct (indexOf_cut _ _ E) as (line & rest & Hb & _ & Hl).
    change (S fuel + extra)%nat with (S (fuel + extra)).
    rewrite (lines_loop_step (fuel + extra) d _ _ Hb Hl), (lines_loop_step fuel d _ _ Hb Hl).
    assert (L : (String.length rest < fuel)%nat).
    { rewrite Hb, length_append in H. simpl in H. lia. }
    destruct (verdict line); try reflexivity; apply IH; exact L.
Qed.

(** [process] runs the inner loop to its end: more iterations change
    nothing. *)
Lemma process_complete (extra : nat) (d : Decoder) :
  lines_loop (S (String.length (textBuffer d)) + extra) d = process d.
Proof. apply lines_loop_fuel. lia. Qed.

(** *** Streams in which the reading loop meets no [[DONE]] line *)

Lemma split_app_LF (a b : string) :
  split LF (a ++ String LF b) = (split LF a ++ split LF b)%list.
Proof.
  induction a as [|x a IH]; simpl.
  - reflexivity.
  - destruct (Ascii.eqb x LF).
    + now rewrite IH.
    + rewrite IH. destruct (split LF a) eqn:E; [|reflexivity].
      now apply split_nonempty in E.
Qed.

Lemma removelast_app_nonempty {A : Type} (l l' : list A) :
  l' <> [] -> removelast (l ++ l') = (l ++ removelast l')%list.
Proof. intros H. now apply removelast_app. Qed.

Lemma complete_lines_app (a b : string) :
  complete_lines (a ++ String LF b) = (split LF a ++ complete_lines b)%list.
Proof.
  unfold complete_lines. rewrite split_app_LF.
  apply removelast_app_nonempty, split_nonempty.
Qed.

Lemma complete_lines_cut (line rest : string) :
  indexOf LF line = -1 ->
  complete_lines (line ++ String LF rest) = line :: complete_lines rest.
Proof. intros H. now rewrite complete_lines_app, split_none. Qed.

Lemma lines_loop_no_done (fuel : nat) (d : Decoder) (more : string) :
  streamDone d = false ->
  reaches_done (complete_lines (textBuffer d ++ more)) = false ->
  streamDone (lines_loop fuel d) = false
  /\ reaches_done (complete_lines (textBuffer (lines_loop fuel d) ++ more)) = false.
Proof.
  revert d. induction fuel as [|fuel IH]; intros d Hd Hr; [now split|].
  destruct (Z.eq_dec (indexOf LF (textBuffer d)) (-1)) as [E|E].
  - now rewrite lines_loop_stop.
  - destruct (indexOf_cut _ _ E) as (line & rest & Hb & _ & Hl).
    rewrite (lines_loop_step fuel d _ _ Hb Hl).
    rewrite Hb, append_assoc in Hr.
    change (String LF rest ++ more) with (String LF (rest ++ more)) in Hr.
    rewrite complete_lines_cut in Hr by exact Hl.
    simpl in Hr. unfold is_done_line, is_malformed in Hr.
    destruct (verdict line) eqn:V; try discriminate;
      try (apply IH; [exact Hd | exact Hr]).
    cbn [streamDone textBuffer]. split; [exact Hd|].
    unfold nl. rewrite !append_assoc.
    change (String LF EmptyString ++ rest ++ more) with (String LF (rest ++ more)).
    rewrite complete_lines_cut by (apply strip_cr_no_LF; exact Hl).
    simpl. unfold is_done_line, is_malformed.
    now rewrite verdict_pushback by exact V.
Qed.

(** *** The outer loop *)

Lemma process_flush (d : Decoder) : flush_preserved d (process d) EmptyString.
Proof. exact (lines_loop_flush _ d). Qed.

Lemma process_no_done (d : Decoder) (more : string) :
  streamDone d = false ->
  reaches_done (complete_lines (textBuffer d ++ more)) = false ->
  streamDone (process d) = false
  /\ reaches_done (complete_lines (textBuffer (process d) ++ more)) = false.
Proof. exact (lines_loop_no_done _ d more). Qed.

Lemma read_loop_flush (reader : Reader) (d : Decoder) :
  match read_loop reader d with
  | inl ds =>
      exists d' used rest,
        text_of reader = used ++ rest /\ ds = delivered d' /\ flush_preserved d d' used
  | inr (d', remaining) =>
      exists used,
        text_of reader = used ++ text_of remaining /\ flush_preserved d d' used
  end.
Proof.
  revert d. induction reader as [| |value next IH]; intros d.
  - simpl. destruct (streamDone d); exists EmptyString; split;
      solve [reflexivity | intros more; reflexivity].
  - simpl. destruct (streamDone d).
    + exists EmptyString; split; [reflexivity | intros more; reflexivity].
    + exists d, EmptyString, EmptyString.
      split; [reflexivity | split; [reflexivity | intros more; reflexivity]].
  - simpl. destruct (streamDone d) eqn:Hd.
    + exists EmptyString. split; [reflexivity | intros more; reflexivity].
    + set (d1 := mkDecoder (textBuffer d ++ value) false (delivered d)).
      specialize (IH (process d1)).
      assert (P : forall d' used, flush_preserved (process d1) d' used ->
                  flush_preserved d d' (value ++ used)).
      { intros d' used F more. rewrite F.
        rewrite (process_flush d1 (used ++ more)).
        cbn [d1 textBuffer delivered]. change (EmptyString ++ used ++ more) with (used ++ more).
        now rewrite !append_assoc. }
      destruct (read_loop next (process d1)) as [ds|[d' remaining]].
      * destruct IH as (d' & used & rest & T & D & F).
        exists d', (value ++ used), rest. repeat split.
        -- rewrite T. now rewrite append_assoc.
        -- exact D.
        -- now apply P.
      * destruct IH as (used & T & F).
        exists (value ++ used). split.
        -- rewrite T. now rewrite append_assoc.
        -- now apply P.
Qed.

Lemma read_loop_no_done (chunks : list string) (d : Decoder) :
  streamDone d = false ->
  reaches_done (complete_lines (textBuffer d ++ concat_chunks chunks)) = false ->
  exists d', read_loop (reader_of chunks) d = inr (d', Closed).
Proof.
  revert d. induction chunks as [|value rest IH]; intros d Hd Hr.
  - exists d. simpl. now rewrite Hd.
  - simpl. rewrite Hd.
    set (d1 := mkDecoder (textBuffer d ++ value) false (delivered d)).
    destruct (process_no_done d1 (concat_chunks rest) eq_refl) as [A B].
    { cbn [d1 textBuffer]. rewrite append_assoc. exact Hr. }
    apply IH; assumption.
Qed.

Lemma concat_chunks_text (chunks : list string) :
  text_of (reader_of chunks) = concat_chunks chunks.
Proof. induction chunks as [|v rest IH]; simpl; [reflexivity | now rewrite IH]. Qed.

(** What [decode] delivers is the content of the data lines of the text
    it has read when it stops: all of them when the body ends, a first
    part of them when the transport fails. *)
Lemma decode_spec (reader : Reader) :
  exists used rest,
    text_of reader = used ++ rest
    /\ (decode reader = (map onDelta (deliverable used) ++ [onDone])%list
        \/ exists ds more,
             deliverable used = (ds ++ more)%list
             /\ decode reader = (map onDelta ds ++ [onError connection_error])%list).
Proof.
  unfold decode.
  pose proof (read_loop_flush reader (mkDecoder EmptyString false [])) as H.
  destruct (read_loop reader (mkDecoder EmptyString false []))
    as [ds|[d' remaining]].
  - destruct H as (d' & used & rest & T & D & F).
    exists used, rest. split; [exact T|]. right.
    destruct (flush_loop_extends (split LF (textBuffer d')) (delivered d'))
      as (more & E & _).
    exists ds, more. split; [|reflexivity].
    specialize (F EmptyString). cbn [textBuffer delivered] in F.
    rewrite !append_nil_r in F. change (EmptyString ++ used) with used in F.
    unfold deliverable. rewrite <- F, E, D. reflexivity.
  - destruct H as (used & T & F).
    exists used, (text_of remaining). split; [exact T|]. left.
    rewrite final_flush_eq.
    specialize (F EmptyString). cbn [textBuffer delivered] in F.
    rewrite !append_nil_r in F. change (EmptyString ++ used) with used in F.
    unfold deliverable. now rewrite F.
Qed.

(** When the reading loop meets no [[DONE]] line in the whole text, every
    chunk is read and the deltas are the contents of the data lines of the
    text, whatever the chunking. *)
Lemma decode_deliverable (chunks : list string) :
  reaches_done (complete_lines (concat_chunks chunks)) = false ->
  decode (reader_of chunks)
  = (map onDelta (deliverable (concat_chunks chunks)) ++ [onDone])%list.
Proof.
  intros H. unfold decode.
  destruct (read_loop_no_done chunks (mkDecoder EmptyString false []) eq_refl H)
    as [d' R].
  pose proof (read_loop_flush (reader_of chunks) (mkDecoder EmptyString false [])) as F.
  rewrite R in F |- *. destruct F as (used & T & F).
  rewrite concat_chunks_text in T. simpl in T. rewrite append_nil_r in T. subst used.
  rewrite final_flush_eq.
  specialize (F EmptyString). cbn [textBuffer delivered] in F.
  rewrite !append_nil_r in F.
  change (EmptyString ++ concat_chunks chunks) with (concat_chunks chunks) in F.
  unfold deliverable. now rewrite F.
Qed.

(** The decoder is insensitive to the chunking of such a stream. *)
Lemma decode_partition (chunks : list string) :
  reaches_done (complete_lines (concat_chunks chunks)) = false ->
  decode (reader_of chunks) = decode (reader_of [concat_chunks chunks]).
Proof.
  intros H. rewrite (decode_deliverable chunks H).
  rewrite (decode_deliverable [concat_chunks chunks]);
    simpl; rewrite append_nil_r; [reflexivity | exact H].
Qed.

(** The reading loop stops at a [[DONE]] line: nothing is delivered for
    it and the lines behind it stay in the buffer. *)
Lemma done_line_stops_reading (fuel : nat) (d : Decoder) (line rest : string) :
  textBuffer d = line ++ String LF rest ->
  indexOf LF line = -1 ->
  is_done_line line = true ->
  lines_loop (S fuel) d = mkDecoder rest true (delivered d).
Proof.
  intros Hb Hl Hd. rewrite (lines_loop_step fuel d _ _ Hb Hl).
  unfold is_done_line in Hd. now destruct (verdict line).
Qed.

(** Once [streamDone] is set the reading loop reads nothing more and
    delivers nothing more. *)
Lemma read_loop_done (reader : Reader) (d : Decoder) :
  streamDone d = true -> read_loop reader d = inr (d, reader).
Proof. intros H. destruct reader; simpl; now rewrite H. Qed.

Lemma delivers_data_line (raw : string) (c : json) :
  delivers raw c ->
  startsWith raw "data: " = true
  /\ startsWith raw ":" = false
  /\ trim raw <> EmptyString.
Proof.
  intros D.
  assert (P : startsWith (strip_cr raw) "data: " = true).
  { apply verdict_data_line.
    assert (V : verdict raw = Delivered c) by exact D. congruence. }
  destruct (prefix_inv _ _ P) as [y Hy].
  assert (exists z, raw = "data: " ++ z) as [z ->].
  { destruct (strip_cr_spec raw) as [E|E].
    - exists y. congruence.
    - exists (y ++ cr). rewrite E, Hy. apply append_assoc. }
  repeat split.
  - apply (prefix_app "data: ").
  - apply trim_data_nonempty.
Qed.

Lemma reaches_done_stalled (before after : list string) (bad : string) :
  reaches_done before = false ->
  is_malformed bad = true ->
  reaches_done (before ++ bad :: after) = false.
Proof.
  intros H B. induction before as [|raw before IH]; simpl in *.
  - rewrite B. destruct (is_done_line bad) eqn:E; [|reflexivity].
    unfold is_done_line, is_malformed in *. destruct (verdict bad); discriminate.
  - destruct (is_done_line raw); [discriminate|].
    destruct (is_malformed raw); [reflexivity | now apply IH].
Qed.

Lemma deliverable_cut (line rest : string) :
  indexOf LF line = -1 ->
  deliverable (line ++ String LF rest)
  = flush_loop (split LF rest)
      match verdict line with
      | Delivered c => [c]
      | _ => []
      end.
Proof.
  intros H. unfold deliverable. rewrite split_cut by exact H.
  rewrite flush_loop_step. now destruct (verdict line).
Qed.

Lemma read_loop_closed (chunks : list string) (d : Decoder) :
  exists d' remaining, read_loop (reader_of chunks) d = inr (d', remaining).
Proof.
  revert d. induction chunks as [|v rest IH]; intros d; simpl.
  - destruct (streamDone d); eauto.
  - destruct (streamDone d); eauto.
Qed.

(** A body that ends is decoded to the end: the deltas, then [onDone]. *)
Lemma decode_closed (chunks : list string) :
  exists used rest,
    concat_chunks chunks = used ++ rest
    /\ decode (reader_of chunks) = (map onDelta (deliverable used) ++ [onDone])%list.
Proof.
  destruct (decode_spec (reader_of chunks)) as (used & rest & T & [D|D]).
  - exists used, rest. now rewrite <- concat_chunks_text.
  - exfalso. destruct D as (ds & more & _ & D). unfold decode in D.
    destruct (read_loop_closed chunks (mkDecoder EmptyString false []))
      as (d' & remaining & R).
    rewrite R in D. apply (f_equal (@rev Callback)) in D.
    rewrite !rev_app_distr in D. simpl in D. discriminate.
Qed.

Lemma streamChat_responded (reader : Reader) :
  streamChat JSON_parse (responded reader) = decode reader.
Proof. reflexivity. Qed.

Lemma in_map_onDelta (c : json) (ds : list json) (e : Callback) :
  In (onDelta c) (map onDelta ds ++ [e])%list -> e <> onDelta c -> In c ds.
Proof.
  intros H Ne. apply in_app_or in H as [H|[H|[]]]; [|congruence].
  apply in_map_iff in H as (x & E & Hx). now inversion E; subst.
Qed.

(** C9: every delta that [streamChat] delivers is the content of a line of
    the text it has read that begins with [data: ]; no blank line and no
    line beginning with a colon is the source of a delta. *)
Theorem deltas_come_from_data_lines (fetched : option ChatResponse) (c : json) :
  In (onDelta c) (streamChat JSON_parse fetched) ->
  exists resp reader used rest raw,
    fetched = Some resp
    /\ resp_body resp = Some reader
    /\ text_of reader = used ++ rest
    /\ In raw (split LF used)
    /\ delivers raw c
    /\ startsWith raw "data: " = true
    /\ startsWith raw ":" = false
    /\ trim raw <> EmptyString.
Proof.
  intros H. destruct fetched as [resp|]; simpl in H.
  2: { destruct H as [H|[]]; discriminate. }
  destruct (status_ok (resp_status resp)); simpl in H.
  2: { destruct (resp_json resp) as [[]|]; simpl in H;
       repeat match type of H with
         | context [match ?x with _ => _ end] => destruct x; simpl in H
         end;
       destruct H as [H|[]]; discriminate. }
  destruct (resp_body resp) as [reader|] eqn:B.
  2: { destruct H as [H|[]]; discriminate. }
  destruct (decode_spec reader) as (used & rest & T & D).
  assert (Hc : In c (deliverable used)).
  { destruct D as [D|(ds & more & E & D)]; rewrite D in H;
      apply in_map_onDelta in H; try discriminate.
    - exact H.
    - rewrite E. apply in_or_app. now left. }
  unfold deliverable in Hc.
  destruct (flush_loop_extends (split LF used) []) as (more & E & P).
  rewrite E in Hc. simpl in Hc. destruct (P c Hc) as (raw & Hr & Dr).
  destruct (delivers_data_line raw c Dr) as (A1 & A2 & A3).
  exists resp, reader, used, rest, raw. repeat split; assumption.
Qed.

(** Blank lines and comments are dropped by both loops. *)
Lemma verdict_blank_or_comment (raw : string) :
  startsWith raw ":" = true \/ trim raw = EmptyString -> verdict raw = Skipped.
Proof.
  intros [H|H].
  - unfold verdict.
    assert (S : startsWith (strip_cr raw) ":" = true).
    { destruct (strip_cr_spec raw) as [E|E]; [now rewrite E|].
      rewrite E in H. unfold startsWith in *.
      now apply prefix_drop_last in H. }
    now rewrite S.
  - apply verdict_all_ws. now apply trim_empty.
Qed.

Lemma reading_loop_discards (fuel : nat) (d : Decoder) (raw rest : string) :
  textBuffer d = raw ++ String LF rest ->
  indexOf LF raw = -1 ->
  startsWith raw ":" = true \/ trim raw = EmptyString ->
  lines_loop (S fuel) d = lines_loop fuel (mkDecoder rest (streamDone d) (delivered d)).
Proof.
  intros Hb Hl H. rewrite (lines_loop_step fuel d _ _ Hb Hl).
  now rewrite verdict_blank_or_comment.
Qed.

Lemma final_flush_discards (raw : string) (rest : list string) (out : list json) :
  startsWith raw ":" = true \/ trim raw = EmptyString ->
  flush_loop (raw :: rest) out = flush_loop rest out.
Proof. intros H. now rewrite flush_loop_step, verdict_blank_or_comment. Qed.

Lemma reaches_done_prefix (before after : list string) :
  reaches_done (before ++ after) = false -> reaches_done before = false.
Proof.
  induction before as [|raw before IH]; simpl; [reflexivity|].
  destruct (is_done_line raw); [discriminate|].
  destruct (is_malformed raw); [reflexivity | exact IH].
Qed.

(** In a body that ends, a complete data line whose payload does not
    parse is dropped by the final flush: [onDone] follows the deltas and
    [onError] is not invoked; when the reading loop reaches the line (no
    [[DONE]] line stopped it before), the deltas are those of the data
    lines of the text without the line; without any [[DONE]] line to
    meet, the callbacks are those of the stream without the line.  The
    reading loop itself does not drop the line: it pushes it back and
    stops at it on every chunk. *)
Lemma malformed_line_in_ended_body (chunks : list string) (pre bad post : string) :
  concat_chunks chunks = pre ++ bad ++ nl ++ post ->
  pre = EmptyString \/ (exists p, pre = p ++ nl) ->
  indexOf LF bad = -1 ->
  is_malformed bad = true ->
  (exists used rest,
     concat_chunks chunks = used ++ rest
     /\ streamChat JSON_parse (streamed chunks)
        = (map onDelta (deliverable used) ++ [onDone])%list)
  /\ (reaches_done (complete_lines pre) = false ->
      streamChat JSON_parse (streamed chunks)
      = (map onDelta (deliverable (pre ++ post)) ++ [onDone])%list)
  /\ (reaches_done (complete_lines (pre ++ post)) = false ->
      streamChat JSON_parse (streamed chunks)
      = streamChat JSON_parse (streamed [pre ++ post])).
Proof.
  intros T Hpre Hl Hbad.
  assert (P2 : reaches_done (complete_lines pre) = false ->
               streamChat JSON_parse (streamed chunks)
               = (map onDelta (deliverable (pre ++ post)) ++ [onDone])%list).
  2: { refine (conj (decode_closed chunks) (conj P2 _)).
       intros Hr. rewrite P2.
       - unfold streamed. rewrite streamChat_responded.
         rewrite decode_deliverable; simpl; rewrite append_nil_r;
           [reflexivity | exact Hr].
       - destruct Hpre as [->|[p ->]]; [reflexivity|].
         unfold nl in *. rewrite append_assoc in Hr.
         change (String LF EmptyString ++ post) with (String LF post) in Hr.
         rewrite complete_lines_app in Hr |- *.
         change (complete_lines EmptyString) with (@nil string).
         rewrite app_nil_r. revert Hr. apply reaches_done_prefix. }
  - intros Hr. unfold streamed. rewrite streamChat_responded.
    assert (V : verdict bad = Malformed).
    { unfold is_malformed in Hbad. destruct (verdict bad); congruence. }
    rewrite decode_deliverable; rewrite T.
    + f_equal. f_equal. unfold nl. destruct Hpre as [->|[p ->]].
      * change (EmptyString ++ bad ++ String LF EmptyString ++ post)
          with (bad ++ String LF post).
        rewrite deliverable_cut by exact Hl. now rewrite V.
      * unfold nl, deliverable. rewrite !append_assoc.
        change (String LF EmptyString ++ bad ++ String LF EmptyString ++ post)
          with (String LF (bad ++ String LF post)).
        change (String LF EmptyString ++ post) with (String LF post).
        rewrite !split_app_LF, !flush_loop_app.
        rewrite (split_none LF bad Hl), flush_loop_step. now rewrite V.
    + unfold nl. destruct Hpre as [->|[p ->]].
      * change (EmptyString ++ bad ++ String LF EmptyString ++ post)
          with (bad ++ String LF post).
        rewrite complete_lines_cut by exact Hl.
        now apply (reaches_done_stalled []).
      * unfold nl in *. rewrite append_assoc.
        change (String LF EmptyString ++ bad ++ String LF EmptyString ++ post)
          with (String LF (bad ++ String LF post)).
        rewrite complete_lines_app, complete_lines_cut by exact Hl.
        apply reaches_done_stalled; [|exact Hbad].
        rewrite complete_lines_app in Hr.
        change (complete_lines EmptyString) with (@nil string) in Hr.
        now rewrite app_nil_r in Hr.
Qed.

End StreamChatFacts.

(** ** The edge function *)

Section HandlerFacts.

Variable URL_parse : string -> option URL.
Variable env : Env.


(** One step of the handler, leaving the arithmetic and the texts alone. *)
Ltac run_handler :=
  cbn -[Str.of_Z build_messages chat_request status_ok Z.eqb Z.ltb
        MAX_DOCUMENT_SIZE export_url Str.trim].

Lemma missing_some (s : string) : s <> EmptyString -> missing (Some s) = false.
Proof. intros H. simpl. now apply String.eqb_neq. Qed.

(** The handler, for a request that passes the checks, in terms of what
    the document fetch and the gateway answer. *)
Lemma serve_admitted (req : Request) (q u key : string) (h : option (list Message))
    (t : list Effect) (r : JsError + string) :
  admitted URL_parse env req q u h key ->
  fetchGoogleDocContent env u = (t, r) ->
  serve URL_parse env req =
    match r with
    | inl e => (t, inr (json_response (error_message e) 400))
    | inr d =>
        match h with
        | None =>
            ((t ++ [Console "error"
                      ["Document chat error:";
                       "Cannot read properties of undefined (reading 'slice')"]])%list,
             inr UpstreamError)
        | Some history =>
            let messages := build_messages d (Str.slice_array history (-10)) q in
            let request := chat_request key messages in
            let sent :=
              (t ++ [Console "log"
                       ["Sending request to AI gateway with";
                        Str.of_Z (Z.of_nat (List.length messages)); "messages"];
                     FetchModel request])%list in
            match fetch_model env request with
            | Rejected e =>
                ((sent ++ [Console "error" ["Document chat error:"; error_message e]])%list,
                 inr UpstreamError)
            | Resolved response =>
                if status_ok (http_status response) then
                  (sent, inr (mkResponse 200 (Some "text/event-stream") (RelayBody response)))
                else if http_status response =? 429 then (sent, inr RateLimited)
                else if http_status response =? 402 then (sent, inr QuotaExceeded)
                else
                  match http_text response with
                  | inl e =>
                      ((sent ++ [ReadText (http_status response);
                                 Console "error" ["Document chat error:"; error_message e]])%list,
                       inr UpstreamError)
                  | inr errorText =>
                      ((sent ++ [ReadText (http_status response);
                                 Console "error"
                                   ["Upstream service error:";
                                    Str.of_Z (http_status response); errorText]])%list,
                       inr UpstreamError)
                  end
            end
        end
    end.
Proof.
  intros (Hm & Hj & Hq & Hu & Hv & Hk & Hk') Hf.
  unfold serve.
  apply String.eqb_neq in Hm. rewrite Hm, Hj.
  cbn [lift bind try_catch question documentUrl conversationHistory].
  rewrite (missing_some q Hq), (missing_some u Hu). cbn [orb].
  rewrite Hv, Hk. cbn [negb]. rewrite (missing_some key Hk').
  rewrite Hf.
  destruct r as [e|d]; [cbn; now rewrite ?app_nil_r|].
  destruct h as [history|]. 2: { cbn -[Str.of_Z]. rewrite ?app_nil_r. reflexivity. }
  run_handler.
  destruct (fetch_model env _) as [response|e];
    run_handler.
  2: { now rewrite ?app_nil_r, <- ?app_assoc. }
  destruct (status_ok (http_status response));
    run_handler.
  { now rewrite ?app_nil_r. }
  destruct (http_status response =? 429);
    run_handler.
  { now rewrite ?app_nil_r. }
  destruct (http_status response =? 402);
    run_handler.
  { now rewrite ?app_nil_r. }
  destruct (http_text response) as [e|errorText];
    run_handler;
    now rewrite ?app_nil_r, <- ?app_assoc.
Qed.

(** The document fetch, for a URL with an identifier, in terms of the
    response to the fetch of the export URL. *)
Lemma fetch_resolved (url docId : string) (response : HttpResponse) :
  first_match url patterns = Some docId ->
  fetch_document env (export_url docId) = Resolved response ->
  fetchGoogleDocContent env url =
    let fetched := [FetchDocument (export_url docId)] in
    let read := [FetchDocument (export_url docId); ReadText (http_status response)] in
    if negb (status_ok (http_status response)) then
      (fetched,
       inl (if http_status response =? 404 then DocumentNotFound
            else if http_status response =? 403 then DocumentPrivate
            else FetchFailed (http_status response)))
    else if declared_too_large response then (fetched, inl DocumentTooLarge)
    else
      match http_text response with
      | inl e =>
          (read,
           inl (if String.eqb (error_name e) "AbortError"
                then Error "Document fetch timed out. Please try again."
                else e))
      | inr content =>
          if MAX_DOCUMENT_SIZE <? Z.of_nat (String.length content) then
            (read, inl DocumentTooLarge)
          else if String.eqb content EmptyString
                  || (String.length (Str.trim content) =? 0)%nat then
            (read, inl (Error "The document does not contain any usable information."))
          else (read, inr content)
      end.
Proof.
  intros Hid Hf. unfold fetchGoogleDocContent. rewrite Hid, Hf.
  run_handler.
  destruct (status_ok (http_status response));
    run_handler.
  2: { destruct (http_status response =? 404); [reflexivity|].
       destruct (http_status response =? 403); reflexivity. }
  destruct (declared_too_large response);
    run_handler;
    [reflexivity|].
  destruct (http_text response) as [e|content];
    run_handler.
  - destruct (String.eqb (error_name e) "AbortError"); reflexivity.
  - destruct (MAX_DOCUMENT_SIZE <? Z.of_nat (String.length content)); [reflexivity|].
    destruct (String.eqb content EmptyString || _); reflexivity.
Qed.

Lemma model_requests_app (a b : list Effect) :
  model_requests (a ++ b) = (model_requests a ++ model_requests b)%list.
Proof.
  induction a as [|e a IH]; [reflexivity|].
  destruct e; simpl; now rewrite IH.
Qed.

(** The document fetch never calls the model. *)
Lemma fetch_document_only (url : string) :
  model_requests (trace (fetchGoogleDocContent env url)) = [].
Proof.
  unfold fetchGoogleDocContent.
  destruct (first_match url patterns) as [docId|]; [|reflexivity].
  destruct (fetch_document env (export_url docId)) as [response|e];
    run_handler.
  2: { destruct (String.eqb (error_name e) "AbortError"); reflexivity. }
  destruct (status_ok (http_status response));
    run_handler.
  2: { destruct (http_status response =? 404); [reflexivity|].
       destruct (http_status response =? 403); reflexivity. }
  destruct (declared_too_large response);
    run_handler;
    [reflexivity|].
  destruct (http_text response) as [e|content];
    run_handler.
  - destruct (String.eqb (error_name e) "AbortError"); reflexivity.
  - destruct (MAX_DOCUMENT_SIZE <? Z.of_nat (String.length content)); [reflexivity|].
    destruct (String.eqb content EmptyString || _); reflexivity.
Qed.

(** [history.slice(-10)] is the list without its first [length - 10]
    entries. *)
Lemma slice_array_last {A : Type} (n : nat) (xs : list A) :
  Str.slice_array xs (- Z.of_nat (S n)) = skipn (List.length xs - S n) xs.
Proof.
  unfold Str.slice_array, Str.clamp.
  destruct (Z.ltb_spec (- Z.of_nat (S n)) 0) as [_|H]; [|lia].
  f_equal. lia.
Qed.

Lemma in_model_requests (request : ChatRequest) (t : list Effect) :
  In (FetchModel request) t -> In request (model_requests t).
Proof.
  induction t as [|e t IH]; intros H; [destruct H|].
  destruct H as [-> | H]; [now left|].
  destruct e; simpl; auto.
Qed.

(** A request that does not pass the checks never reaches the model. *)
Lemma serve_checks (req : Request) (request : ChatRequest) :
  In (FetchModel request) (trace (serve URL_parse env req)) ->
  exists q u h key,
    admitted URL_parse env req q u h key.
Proof.
  unfold serve, admitted.
  destruct (String.eqb_spec (method req) "OPTIONS") as [Hm|Hm]; [intros []|].
  destruct (req_json req) as [e|[q u h]];
    [cbn; intros [H|[]]; discriminate|].
  cbn [lift bind try_catch question documentUrl conversationHistory].
  destruct q as [q|]; [|intros []].
  destruct (String.eqb_spec q EmptyString) as [Hq|Hq]; [subst; intros []|].
  destruct u as [u|]; [|rewrite (missing_some q Hq); intros []].
  destruct (String.eqb_spec u EmptyString) as [Hu|Hu];
    [subst; rewrite (missing_some q Hq); intros []|].
  rewrite (missing_some q Hq), (missing_some u Hu). cbn [orb].
  destruct (isValidGoogleDocsUrl URL_parse u) eqn:Hv;
    [|cbn; intros [H|[]]; discriminate].
  cbn [negb].
  destruct (LOVABLE_API_KEY env) as [key|] eqn:Hk;
    [|cbn; intros [H|[]]; discriminate].
  destruct (String.eqb_spec key EmptyString) as [Hk'|Hk'];
    [subst; cbn; intros [H|[]]; discriminate|].
  intros _. exists q, u, h, key. repeat split; assumption.
Qed.

(** C3: for a request with question [q], history [h] and fetched document
    text [d], the messages of a request sent to the model are the system
    prompt, one user message that frames [d], the last ten entries of [h]
    in their order, and [q] as the last user message; such a request is
    sent, once, when the request passes the checks; a history of twelve
    entries contributes its last ten. *)
Theorem context_assembly (req : Request) (q u d : string) (h : list Message) :
  req_json req = inr (mkRequestBody (Some q) (Some u) (Some h)) ->
  outcome (fetchGoogleDocContent env u) = inr d ->
  let expected :=
    (mkChatMessage "system" SYSTEM_PROMPT
     :: mkChatMessage "user"
          (Str.literal "DOCUMENT CONTENT:\n\n" ++ d
           ++ Str.literal "\n\n---\n\nPlease answer questions based ONLY on the above document content.")
     :: map chat_message (skipn (List.length h - 10) h)
     ++ [mkChatMessage "user" q])%list in
  (forall request,
     In (FetchModel request) (trace (serve URL_parse env req)) ->
     messages request = expected)
  /\ (forall key,
        admitted URL_parse env req q u (Some h) key ->
        model_requests (trace (serve URL_parse env req)) = [chat_request key expected])
  /\ (List.length h = 12%nat ->
      exists first second recent,
        h = first :: second :: recent
        /\ List.length recent = 10%nat
        /\ skipn (List.length h - 10) h = recent).
Proof.
  intros Hj Hd expected.
  destruct (fetchGoogleDocContent env u) as [t r] eqn:Hf.
  simpl in Hd. subst r.
  pose proof (fetch_document_only u) as Ht. rewrite Hf in Ht. simpl in Ht.
  assert (E : build_messages d (Str.slice_array h (-10)) q = expected).
  { unfold build_messages, expected.
    change (-10) with (- Z.of_nat 10). now rewrite slice_array_last. }
  assert (S : forall key,
             admitted URL_parse env req q u (Some h) key ->
             model_requests (trace (serve URL_parse env req))
             = [chat_request key expected]).
  { intros key Ha.
    rewrite (serve_admitted req q u key (Some h) t (inr d) Ha Hf).
    cbv zeta. rewrite E.
    destruct (fetch_model env _) as [response|e].
    + destruct (status_ok (http_status response)).
      { cbn [trace fst]. now rewrite model_requests_app, Ht. }
      destruct (http_status response =? 429).
      { cbn [trace fst]. now rewrite model_requests_app, Ht. }
      destruct (http_status response =? 402).
      { cbn [trace fst]. now rewrite model_requests_app, Ht. }
      destruct (http_text response); cbn [trace fst];
        now rewrite !model_requests_app, Ht.
    + cbn [trace fst]. now rewrite !model_requests_app, Ht. }
  refine (conj _ (conj S _)).
  - intros request Hin.
    destruct (serve_checks req request Hin) as (q' & u' & h' & key & Ha).
    assert (Hb : req_json req = inr (mkRequestBody (Some q') (Some u') h'))
      by apply Ha.
    rewrite Hj in Hb. inversion Hb; subst q' u' h'.
    apply in_model_requests in Hin. rewrite (S key Ha) in Hin.
    destruct Hin as [<-|[]]. reflexivity.
  - intros L.
    destruct h as [|first [|second recent]]; try discriminate.
    exists first, second, recent. simpl in L.
    assert (L' : List.length recent = 10%nat) by lia.
    repeat split; [exact L'|].
    cbn [List.length]. rewrite L'. reflexivity.
Qed.

(** C10: an empty [question] or [documentUrl] is answered exactly like an
    absent one; for a request that is not a preflight the answer is the
    [MissingField] response (HTTP 400), and nothing else happens. *)
Theorem empty_field_is_missing (m : string) (q u : option string)
    (h : option (list Message)) :
  q = Some EmptyString \/ u = Some EmptyString ->
  let answer (q' u' : option string) :=
    serve URL_parse env (mkRequest m (inr (mkRequestBody q' u' h))) in
  answer q u = answer None u
  /\ answer q u = answer q None
  /\ (m <> "OPTIONS" -> answer q u = ([], inr MissingField) /\ status MissingField = 400).
Proof.
  intros H answer.
  assert (E : missing q || missing u = true)
    by (destruct H as [-> | ->]; simpl; [reflexivity | apply orb_true_r]).
  assert (A : forall q' u', missing q' || missing u' = true ->
              answer q' u'
              = if String.eqb m "OPTIONS" then ret (mkResponse 200 None NoBody)
                else ([], inr MissingField)).
  { intros q' u' M. unfold answer, serve. cbn [method req_json].
    destruct (String.eqb m "OPTIONS"); [reflexivity|].
    cbn [lift bind try_catch question documentUrl]. now rewrite M. }
  rewrite (A q u E), (A None u eq_refl), (A q None (orb_true_r _)).
  refine (conj eq_refl (conj eq_refl _)).
  intros Hm. apply String.eqb_neq in Hm. now rewrite Hm.
Qed.

(** C4 (amended): a request whose document URL does not parse, or whose
    scheme is not [https:], or whose host is neither [docs.google.com] nor
    [drive.google.com], is never followed by an outbound fetch, whatever
    its method and its question; when it is not a preflight ([OPTIONS])
    and its question and its document URL are both present and not empty,
    it is answered with [InvalidUrl] (HTTP 400). *)
Theorem invalid_url_rejected (req : Request) (q : option string) (u : string)
    (h : option (list Message)) :
  req_json req = inr (mkRequestBody q (Some u) h) ->
  URL_parse u = None
  \/ (exists parsed,
        URL_parse u = Some parsed
        /\ (protocol parsed <> "https:"
            \/ (hostname parsed <> "docs.google.com"
                /\ hostname parsed <> "drive.google.com"))) ->
  no_fetch (trace (serve URL_parse env req))
  /\ (forall question,
        method req <> "OPTIONS" ->
        q = Some question -> question <> EmptyString -> u <> EmptyString ->
        outcome (serve URL_parse env req) = inr InvalidUrl /\ status InvalidUrl = 400).
Proof.
  intros Hj Hbad.
  assert (V : isValidGoogleDocsUrl URL_parse u = false).
  { unfold isValidGoogleDocsUrl. destruct Hbad as [->|(parsed & -> & [P|[H1 H2]])].
    - reflexivity.
    - apply String.eqb_neq in P. rewrite P. apply andb_false_r.
    - unfold includes, allowedHosts. simpl.
      apply String.eqb_neq in H1, H2. now rewrite H1, H2. }
  unfold serve. rewrite Hj.
  destruct (String.eqb_spec (method req) "OPTIONS") as [Hm|Hm].
  { split; [reflexivity|]. intros question N. now destruct N. }
  cbn [lift bind try_catch question documentUrl conversationHistory].
  rewrite V. split.
  - destruct (missing q || missing (Some u)); reflexivity.
  - intros question _ -> Hq Hu.
    rewrite (missing_some question Hq), (missing_some u Hu). split; reflexivity.
Qed.

(** C5: the status of the document fetch and of the model call decide the
    failure.  Whenever the fetch of the export is answered, 404 and 403
    give [DocumentNotFound] and [DocumentPrivate], and any other status
    outside 200-299 gives [FetchFailed].  Whenever the call of the model
    is answered, 429 and 402 give [RateLimited] (HTTP 429) and
    [QuotaExceeded] (HTTP 402), and any other status outside 200-299
    gives [UpstreamError] (HTTP 500), whose body is a fixed text, whatever
    the gateway answered.  Neither part depends on the other. *)
Theorem status_errors :
  (forall (url docId : string) (document : HttpResponse),
     first_match url patterns = Some docId ->
     fetch_document env (export_url docId) = Resolved document ->
     (http_status document = 404 ->
      outcome (fetchGoogleDocContent env url) = inl DocumentNotFound)
     /\ (http_status document = 403 ->
         outcome (fetchGoogleDocContent env url) = inl DocumentPrivate)
     /\ (status_ok (http_status document) = false ->
         http_status document <> 404 -> http_status document <> 403 ->
         outcome (fetchGoogleDocContent env url)
         = inl (FetchFailed (http_status document))))
  /\ (forall (req : Request) (q u key d : string) (h : list Message)
        (gateway : HttpResponse),
        admitted URL_parse env req q u (Some h) key ->
        outcome (fetchGoogleDocContent env u) = inr d ->
        fetch_model env (chat_request key (build_messages d (Str.slice_array h (-10)) q))
        = Resolved gateway ->
        (http_status gateway = 429 ->
         outcome (serve URL_parse env req) = inr RateLimited /\ status RateLimited = 429)
        /\ (http_status gateway = 402 ->
            outcome (serve URL_parse env req) = inr QuotaExceeded
            /\ status QuotaExceeded = 402)
        /\ (status_ok (http_status gateway) = false ->
            http_status gateway <> 429 -> http_status gateway <> 402 ->
            outcome (serve URL_parse env req) = inr UpstreamError
            /\ status UpstreamError = 500
            /\ body UpstreamError = ErrorBody "An error occurred processing your request")).
Proof.
  split.
  - intros url docId document Hid Hdoc.
    rewrite (fetch_resolved url docId document Hid Hdoc). cbv zeta.
    refine (conj _ (conj _ _)).
    + intros ->. reflexivity.
    + intros ->. reflexivity.
    + intros Hbad N1 N2. rewrite Hbad. apply Z.eqb_neq in N1, N2.
      cbn [negb outcome snd]. now rewrite N1, N2.
  - intros req q u key d h gateway Ha Hd Hg.
    destruct (fetchGoogleDocContent env u) as [t r] eqn:Hf. simpl in Hd. subst r.
    rewrite (serve_admitted req q u key (Some h) t (inr d) Ha Hf). cbv zeta.
    rewrite Hg.
    refine (conj _ (conj _ _)).
    + intros ->. split; reflexivity.
    + intros ->. split; reflexivity.
    + intros Hbad N1 N2. rewrite Hbad. apply Z.eqb_neq in N1, N2. rewrite N1, N2.
      destruct (http_text gateway); repeat split.
Qed.


Lemma trace_try_emit {A : Type} (e : Effect) (m : M A) (handler : JsError -> M A) :
  exists t, trace (try_catch (bind (emit e) (fun _ => m)) handler) = e :: t.
Proof.
  destruct m as [t' [x|a]]; simpl.
  - destruct (handler x) as [t'' r]. eexists. reflexivity.
  - eexists. reflexivity.
Qed.

(** C7: for a URL that passed validation, the identifier of the document
    is the match of the first of the three patterns that matches, tried
    in the order path, query parameter, bare identifier, and the export of
    that identifier is what is fetched; the sample URL yields [ABC123];
    when no pattern matches the fetch fails with [InvalidDocumentFormat]
    before any network call. *)
Theorem document_id_priority (url : string) :
  isValidGoogleDocsUrl URL_parse url = true ->
  let fetches (docId : string) :=
    exists t, trace (fetchGoogleDocContent env url) = FetchDocument (export_url docId) :: t in
  (forall docId, String_match url path_pattern = Some docId -> fetches docId)
  /\ (forall docId,
        String_match url path_pattern = None ->
        String_match url query_pattern = Some docId -> fetches docId)
  /\ (forall docId,
        String_match url path_pattern = None ->
        String_match url query_pattern = None ->
        String_match url bare_pattern = Some docId -> fetches docId)
  /\ (String_match url path_pattern = None ->
      String_match url query_pattern = None ->
      String_match url bare_pattern = None ->
      fetchGoogleDocContent env url = ([], inl InvalidDocumentFormat))
  /\ first_match sample_url patterns = Some "ABC123".
Proof.
  intros _ fetches.
  assert (F : forall docId, first_match url patterns = Some docId -> fetches docId).
  { intros docId H. unfold fetches, fetchGoogleDocContent. rewrite H.
    apply trace_try_emit. }
  refine (conj _ (conj _ (conj _ (conj _ _)))).
  - intros docId H1. apply F. simpl. now rewrite H1.
  - intros docId H1 H2. apply F. simpl. now rewrite H1, H2.
  - intros docId H1 H2 H3. apply F. simpl. now rewrite H1, H2, H3.
  - intros H1 H2 H3. unfold fetchGoogleDocContent. simpl first_match.
    now rewrite H1, H2, H3.
  - vm_compute. reflexivity.
Qed.

End HandlerFacts.

(** ** The patterns of [fetchGoogleDocContent] *)

Module PatternFacts.

(** The text of a string without its first [n] characters. *)
Lemma drop_length_append (a b : string) : drop (String.length a) (a ++ b) = b.
Proof. induction a as [|x a IH]; simpl; [now destruct b | exact IH]. Qed.

Lemma id_run_spec (s : string) :
  s = fst (id_run s) ++ snd (id_run s)
  /\ UrlText.all_chars id_char (fst (id_run s)) = true
  /\ run_ends (snd (id_run s)).
Proof.
  induction s as [|c s (E & A & R)]; simpl.
  - repeat split.
  - destruct (id_char c) eqn:C.
    + destruct (id_run s) as [run rest]. simpl in *.
      rewrite C, A. repeat split; [now rewrite <- E | exact R].
    + simpl. repeat split. exact C.
Qed.

(** A match at the start of [s]: the literal, then group 1 as the longest
    run of identifier characters, not empty, up to the end of [s] for an
    anchored pattern. *)
Lemma match_here_sound (p : Pattern) (s id : string) :
  match_here p s = Some id ->
  exists rest,
    s = literal p ++ id ++ rest
    /\ id <> EmptyString
    /\ UrlText.all_chars id_char id = true
    /\ run_ends rest
    /\ (whole p = true -> rest = EmptyString).
Proof.
  unfold match_here. destruct (String.prefix (literal p) s) eqn:P; [|discriminate].
  destruct (StrFacts.prefix_inv _ _ P) as [x ->].
  rewrite drop_length_append.
  destruct (id_run_spec x) as (E & A & R).
  destruct (id_run x) as [run rest]. simpl in *.
  destruct run as [|c run]; [discriminate|].
  destruct (whole p).
  - destruct rest; [|discriminate]. intros H. inversion H; subst id.
    exists EmptyString. rewrite E. repeat split; try assumption. discriminate.
  - intros H. inversion H; subst id.
    exists rest. rewrite E. repeat split; try assumption; discriminate.
Qed.

(** No match at the start of [s]: the literal is not there, or no
    identifier character follows it (or, for an anchored pattern, the run
    does not reach the end). *)
Lemma match_here_none (p : Pattern) (s : string) :
  match_here p s = None ->
  forall c x, s = literal p ++ String c x -> id_char c = true ->
  whole p = true /\ snd (id_run (String c x)) <> EmptyString.
Proof.
  unfold match_here. intros H c x -> C.
  rewrite StrFacts.prefix_app, drop_length_append in H.
  destruct (id_run (String c x)) as [run rest] eqn:R.
  simpl in R. rewrite C in R. destruct (id_run x) as [run' rest'].
  inversion R; subst run rest. simpl.
  destruct (whole p); [|discriminate].
  destruct rest'; [discriminate|]. split; [reflexivity | discriminate].
Qed.

(** The search returns the leftmost match: there is none at any earlier
    position. *)
Lemma search_sound (p : Pattern) (s id : string) :
  search p s = Some id ->
  exists before after,
    s = before ++ after
    /\ match_here p after = Some id
    /\ forall b1 b2, before = b1 ++ b2 -> b2 <> EmptyString ->
         match_here p (b2 ++ after) = None.
Proof.
  induction s as [|c s IH].
  - simpl. destruct (match_here p EmptyString) eqn:M; [|discriminate].
    intros H. inversion H; subst. exists EmptyString, EmptyString.
    repeat split; [exact M|]. intros [|? ?] b2 E N; [|discriminate].
    simpl in E. congruence.
  - simpl. destruct (match_here p (String c s)) eqn:M.
    + intros H. inversion H; subst. exists EmptyString, (String c s).
      repeat split; [exact M|]. intros [|? ?] b2 E N; [|discriminate].
      simpl in E. congruence.
    + intros H. destruct (IH H) as (before & after & E & Ma & L).
      exists (String c before), after. repeat split.
      * simpl. now rewrite E.
      * exact Ma.
      * intros [|x b1] b2 Eb N.
        -- simpl in Eb. subst b2. simpl. rewrite <- E. exact M.
        -- simpl in Eb. inversion Eb; subst. now apply (L b1 b2).
Qed.

Lemma search_none (p : Pattern) (s : string) :
  search p s = None ->
  forall before after, s = before ++ after -> match_here p after = None.
Proof.
  induction s as [|c s IH]; simpl.
  - destruct (match_here p EmptyString) eqn:M; [discriminate|].
    intros _ [|? ?] after E; [|discriminate]. simpl in E. now subst.
  - destruct (match_here p (String c s)) eqn:M; [discriminate|].
    intros H [|x before] after E.
    + simpl in E. now subst.
    + simpl in E. inversion E; subst. now apply (IH H before).
Qed.

End PatternFacts.

(** ** Concrete runs, with the reference parsers *)

(** C1: on the single chunk [data: [DONE]\n] followed by a data line, the
    reading loop stops at the [[DONE]] line, but the final flush then
    delivers the content of the data line that follows it in the buffer:
    [onDelta] is invoked after [[DONE]] was seen. *)
Theorem delta_delivered_after_done :
  streamChat JsonText.JSON_parse (streamed [done_line ++ late_line])
  = [onDelta (JString "late"); onDone].
Proof. vm_compute. reflexivity. Qed.

(** C2: the same text delivers different deltas under two chunkings: cut
    after the [[DONE]] line nothing is delivered, in one chunk the line
    after [[DONE]] is. *)
Theorem chunking_changes_deltas :
  concat_chunks [done_line; late_line] = concat_chunks [done_line ++ late_line]
  /\ streamChat JsonText.JSON_parse (streamed [done_line; late_line]) = [onDone]
  /\ streamChat JsonText.JSON_parse (streamed [done_line ++ late_line])
     = [onDelta (JString "late"); onDone].
Proof. repeat split; vm_compute; reflexivity. Qed.

(** C8: a complete data line whose payload does not parse is not dropped
    by the reading loop: it is pushed back and met again on every chunk,
    so that nothing behind it is delivered while the body is read and a
    [[DONE]] line behind it no longer ends the decoding.  When the
    transport then fails, the stream with the line ends with [onError]
    and loses the delta behind the line, where the stream without the
    line delivers it and ends with [onDone]. *)
Theorem malformed_line_stalls_reading :
  is_malformed JsonText.JSON_parse (Str.literal "data: {`choices`:[{`delta`") = true
  /\ streamChat JsonText.JSON_parse
       (responded (reader_then [early_line; bad_line; next_line; done_line] Errored))
     = [onDelta (JString "He"); onError connection_error]
  /\ streamChat JsonText.JSON_parse
       (responded (reader_then [early_line; next_line; done_line] Errored))
     = [onDelta (JString "He"); onDelta (JString "llo"); onDone].
Proof. repeat split; vm_compute; reflexivity. Qed.

Lemma deltas_come_from_data_lines_witness :
  exists resp reader used rest raw,
    streamed [late_line] = Some resp
    /\ resp_body resp = Some reader
    /\ text_of reader = used ++ rest
    /\ In raw (Str.split Str.LF used)
    /\ delivers JsonText.JSON_parse raw (JString "late")
    /\ Str.startsWith raw "data: " = true
    /\ Str.startsWith raw ":" = false
    /\ Str.trim raw <> EmptyString.
Proof.
  apply (deltas_come_from_data_lines JsonText.JSON_parse (streamed [late_line])
           (JString "late")).
  vm_compute. left. reflexivity.
Defined.

Lemma malformed_line_in_ended_body_run :
  let pre := Str.literal "data: {`choices`:[{`delta`:{`content`:`He`}}]}\n" in
  let bad := Str.literal "data: {`choices`:[{`delta`" in
  let post := Str.literal "data: {`choices`:[{`delta`:{`content`:`llo`}}]}\r\n" in
  is_malformed JsonText.JSON_parse bad = true
  /\ streamChat JsonText.JSON_parse
       (streamed [pre ++ Str.literal "data: {`cho"; Str.literal "ices`:[{`delta`\n" ++ post])
     = [onDelta (JString "He"); onDelta (JString "llo"); onDone].
Proof.
  intros pre bad post. split; [vm_compute; reflexivity|].
  refine (eq_trans
            (proj1 (proj2 (malformed_line_in_ended_body JsonText.JSON_parse
                      [pre ++ Str.literal "data: {`cho"; Str.literal "ices`:[{`delta`\n" ++ post]
                      pre bad post _ _ _ _)) _) _).
  - vm_compute. reflexivity.
  - right. exists (Str.literal "data: {`choices`:[{`delta`:{`content`:`He`}}]}").
    vm_compute. reflexivity.
  - vm_compute. reflexivity.
  - vm_compute. reflexivity.
  - vm_compute. reflexivity.
  - vm_compute. reflexivity.
Defined.


Lemma sample_admitted (status : Z) (h : list Message) :
  admitted UrlText.URL_parse (sample_env public_document status)
    (sample_request (Some "When is the launch?") (Some sample_url) h)
    "When is the launch?" sample_url (Some h) "secret".
Proof.
  repeat split; try discriminate; vm_compute; reflexivity.
Defined.

Lemma context_assembly_witness :
  List.length twelve_turns = 12%nat
  /\ exists request,
       model_requests
         (trace (serve UrlText.URL_parse (sample_env public_document 200)
                   (sample_request (Some "When is the launch?") (Some sample_url)
                      twelve_turns)))
       = [request]
       /\ map chat_content (messages request)
          = [ SYSTEM_PROMPT;
              Str.literal "DOCUMENT CONTENT:\n\n" ++ sample_document
              ++ Str.literal "\n\n---\n\nPlease answer questions based ONLY on the above document content.";
              "turn 3"; "turn 4"; "turn 5"; "turn 6"; "turn 7"; "turn 8";
              "turn 9"; "turn 10"; "turn 11"; "turn 12";
              "When is the launch?" ].
Proof.
  split; [reflexivity|].
  destruct (context_assembly UrlText.URL_parse (sample_env public_document 200)
              (sample_request (Some "When is the launch?") (Some sample_url) twelve_turns)
              "When is the launch?" sample_url sample_document twelve_turns
              eq_refl eq_refl)
    as (_ & Hr & _).
  eexists. split; [exact (Hr "secret" (sample_admitted 200 twelve_turns))|].
  reflexivity.
Defined.

Lemma empty_field_is_missing_witness :
  serve UrlText.URL_parse (sample_env public_document 200)
    (mkRequest "POST" (inr (mkRequestBody (Some EmptyString) (Some sample_url) (Some []))))
  = ([], inr MissingField).
Proof.
  destruct (empty_field_is_missing UrlText.URL_parse (sample_env public_document 200)
              "POST" (Some EmptyString) (Some sample_url) (Some [])
              (or_introl eq_refl))
    as (_ & _ & A).
  apply A. discriminate.
Defined.

Lemma invalid_url_rejected_witness :
  UrlText.URL_parse "https://evil.com/document/d/ABC123" = Some (mkURL "https:" "evil.com")
  /\ outcome (serve UrlText.URL_parse (sample_env public_document 200)
               (sample_request (Some "When is the launch?")
                  (Some "https://evil.com/document/d/ABC123") []))
     = inr InvalidUrl
  /\ no_fetch (trace (serve UrlText.URL_parse (sample_env public_document 200)
                        (sample_request (Some "When is the launch?")
                           (Some "https://evil.com/document/d/ABC123") []))).
Proof.
  split; [vm_compute; reflexivity|].
  destruct (invalid_url_rejected UrlText.URL_parse (sample_env public_document 200)
              (sample_request (Some "When is the launch?")
                 (Some "https://evil.com/document/d/ABC123") [])
              (Some "When is the launch?") "https://evil.com/document/d/ABC123" (Some []))
    as (B & A).
  - reflexivity.
  - right. exists (mkURL "https:" "evil.com").
    split; [vm_compute; reflexivity|]. right. split; discriminate.
  - split; [|exact B].
    apply (A "When is the launch?"); [discriminate | reflexivity | discriminate | discriminate].
Defined.

(** C4, as stated, fails: the empty string does not parse as a URL, and a
    request with an empty [documentUrl] is answered with [MissingField],
    not with [InvalidUrl]. *)
Lemma empty_url_reported_missing :
  UrlText.URL_parse EmptyString = None
  /\ outcome (serve UrlText.URL_parse (sample_env public_document 200)
               (sample_request (Some "When is the launch?") (Some EmptyString) []))
     = inr MissingField
  /\ outcome (serve UrlText.URL_parse (sample_env public_document 200)
               (sample_request (Some "When is the launch?") (Some EmptyString) []))
     <> inr InvalidUrl.
Proof.
  split; [reflexivity|]. split; [reflexivity|]. discriminate.
Qed.

(** A preflight is answered before the body is read: with the same
    question and document URL it gets the 200 answer, not [InvalidUrl];
    no fetch is made either. *)
Lemma preflight_not_validated :
  serve UrlText.URL_parse (sample_env public_document 200)
    (mkRequest "OPTIONS"
       (inr (mkRequestBody (Some "When is the launch?")
               (Some "https://evil.com/document/d/ABC123") (Some []))))
  = ([], inr Preflight).
Proof. reflexivity. Qed.

Lemma status_errors_witness :
  outcome (fetchGoogleDocContent (sample_env public_document 200)
             "https://docs.google.com/document/d/XYZ/edit")
  = inl DocumentNotFound
  /\ outcome (serve UrlText.URL_parse (sample_env public_document 429)
               (sample_request (Some "When is the launch?") (Some sample_url) []))
     = inr RateLimited.
Proof.
  split.
  - destruct (status_errors UrlText.URL_parse (sample_env public_document 200))
      as [A _].
    destruct (A "https://docs.google.com/document/d/XYZ/edit" "XYZ"
                (mkHttpResponse 404 None (inr "Not Found")))
      as (N & _).
    + vm_compute. reflexivity.
    + vm_compute. reflexivity.
    + apply N. reflexivity.
  - destruct (status_errors UrlText.URL_parse (sample_env public_document 429))
      as [_ B].
    destruct (B (sample_request (Some "When is the launch?") (Some sample_url) [])
                "When is the launch?" sample_url "secret" sample_document []
                (mkHttpResponse 429 None (inr "upstream detail")))
      as (R & _).
    + exact (sample_admitted 429 []).
    + vm_compute. reflexivity.
    + reflexivity.
    + apply R. reflexivity.
Defined.


Lemma length_repeat (c : ascii) (n : nat) : String.length (String_repeat c n) = n.
Proof. induction n as [|n IH]; simpl; [reflexivity | now rewrite IH]. Qed.

Lemma utf8_length_repeat (c : ascii) (n : nat) :
  utf8_length (String_repeat c n)
  = Z.of_nat n * (if (nat_of_ascii c <? 128)%nat then 1 else 2).
Proof.
  induction n as [|n IH]; [reflexivity|].
  cbn [String_repeat utf8_length]. rewrite IH. lia.
Qed.

(** A text within the limit that is not blank is returned when no
    [content-length] is declared. *)
Lemma undeclared_document_returned (env : Env) (url docId : string)
    (response : HttpResponse) (content : string) :
  first_match url patterns = Some docId ->
  fetch_document env (export_url docId) = Resolved response ->
  status_ok (http_status response) = true ->
  content_length response = None ->
  http_text response = inr content ->
  Z.of_nat (String.length content) <= 5242880 ->
  Str.all_ws content = false ->
  outcome (fetchGoogleDocContent env url) = inr content.
Proof.
  intros Hid Hf Ok Hl Ht L W.
  rewrite (fetch_resolved env url docId response Hid Hf). cbv zeta.
  unfold declared_too_large. rewrite Ok, Hl, Ht. cbn [negb].
  destruct (Z.ltb_spec MAX_DOCUMENT_SIZE (Z.of_nat (String.length content))) as [L'|_].
  { unfold MAX_DOCUMENT_SIZE in L'. lia. }
  assert (T : Str.trim content <> EmptyString).
  { intros E. apply StrFacts.trim_empty in E. congruence. }
  destruct content as [|c content]; [discriminate|].
  destruct (Str.trim (String c content)); [now destruct T|]. reflexivity.
Qed.

(** What is compared with the limit after the reading is the number of
    characters of the text, not the number of bytes of the body: a body
    of 6000000 bytes that is the UTF-8 encoding of 3000000 characters,
    sent without [content-length], is returned. *)
Lemma size_is_counted_in_characters :
  let content := String_repeat "233"%char (Z.to_nat 3000000) in
  let response := mkHttpResponse 200 None (inr content) in
  utf8_length content = 6000000
  /\ Z.of_nat (String.length content) = 3000000
  /\ outcome (fetchGoogleDocContent (sample_env response 200) sample_url) = inr content.
Proof.
  intros content response.
  assert (L : Z.of_nat (String.length content) = 3000000).
  { unfold content. rewrite length_repeat. apply Z2Nat.id. lia. }
  split; [|split; [exact L|]].
  - unfold content. rewrite utf8_length_repeat, Z2Nat.id by lia. reflexivity.
  - apply (undeclared_document_returned (sample_env response 200) sample_url "ABC123"
             response content).
    + vm_compute. reflexivity.
    + unfold sample_env. cbn [fetch_document]. now rewrite String.eqb_refl.
    + reflexivity.
    + reflexivity.
    + reflexivity.
    + rewrite L. lia.
    + unfold content. destruct (Z.to_nat 3000000) eqn:E; [lia | reflexivity].
Qed.


Lemma document_id_priority_witness :
  isValidGoogleDocsUrl UrlText.URL_parse sample_url = true
  /\ String_match sample_url path_pattern = Some "ABC123"
  /\ exists t,
       trace (fetchGoogleDocContent (sample_env public_document 200) sample_url)
       = FetchDocument "https://docs.google.com/document/d/ABC123/export?format=txt" :: t.
Proof.
  split; [vm_compute; reflexivity|]. split; [vm_compute; reflexivity|].
  destruct (document_id_priority UrlText.URL_parse (sample_env public_document 200)
              sample_url) as (A & _).
  - vm_compute. reflexivity.
  - apply (A "ABC123"). vm_compute. reflexivity.
Defined.

(** ** The stream decoder, further *)

Section StreamChatMore.
Import Str StrFacts.

Variable JSON_parse : string -> option json.

Local Notation verdict := (verdict JSON_parse).
Local Notation lines_loop := (lines_loop JSON_parse).
Local Notation flush_loop := (flush_loop JSON_parse).
Local Notation process := (process JSON_parse).
Local Notation read_loop := (read_loop JSON_parse).
Local Notation final_flush := (final_flush JSON_parse).
Local Notation decode := (decode JSON_parse).
Local Notation deliverable := (deliverable JSON_parse).
Local Notation delivers := (delivers JSON_parse).
Local Notation reaches_done := (reaches_done JSON_parse).
Local Notation is_done_line := (is_done_line JSON_parse).
Local Notation is_malformed := (is_malformed JSON_parse).
Local Notation read_deliveries := (read_deliveries JSON_parse).
Local Notation is_skipped := (is_skipped JSON_parse).

Lemma complete_lines_none (s : string) :
  indexOf LF s = -1 -> complete_lines s = [].
Proof. intros H. unfold complete_lines. now rewrite split_none. Qed.

Lemma buffer_cut (line rest more : string) :
  (line ++ String LF rest) ++ more = line ++ String LF (rest ++ more).
Proof. now rewrite append_assoc. Qed.

Lemma pushback_cut (line rest more : string) :
  (line ++ nl ++ rest) ++ more = line ++ String LF (rest ++ more).
Proof. unfold nl. now rewrite !append_assoc. Qed.

(** The inner loop, run to its end without meeting a [[DONE]] line: what
    it leaves in the buffer starts with no line it could still process,
    and the lines it has consumed count as read. *)
Lemma lines_loop_drained (fuel : nat) (d : Decoder) :
  (String.length (textBuffer d) < fuel)%nat ->
  streamDone d = false ->
  streamDone (lines_loop fuel d) = false ->
  read_deliveries (complete_lines (textBuffer (lines_loop fuel d))) = []
  /\ reaches_done (complete_lines (textBuffer (lines_loop fuel d))) = false
  /\ (forall more,
        reaches_done (complete_lines (textBuffer (lines_loop fuel d) ++ more))
        = reaches_done (complete_lines (textBuffer d ++ more)))
  /\ (forall more,
        (delivered (lines_loop fuel d)
         ++ read_deliveries (complete_lines (textBuffer (lines_loop fuel d) ++ more)))%list
        = (delivered d ++ read_deliveries (complete_lines (textBuffer d ++ more)))%list).
Proof.
  revert d. induction fuel as [|fuel IH]; intros d Hf Hd Hn; [lia|].
  destruct (Z.eq_dec (indexOf LF (textBuffer d)) (-1)) as [E|E].
  - rewrite lines_loop_stop by exact E.
    rewrite (complete_lines_none _ E). repeat split.
  - destruct (indexOf_cut _ _ E) as (line & rest & Hb & _ & Hl).
    rewrite (lines_loop_step JSON_parse fuel d _ _ Hb Hl) in Hn |- *.
    assert (L : (String.length rest < fuel)%nat).
    { rewrite Hb, length_append in Hf. simpl in Hf. lia. }
    assert (C : forall more,
              complete_lines (textBuffer d ++ more)
              = line :: complete_lines (rest ++ more)).
    { intros more. rewrite Hb, buffer_cut. now apply complete_lines_cut. }
    assert (R : forall X,
              reaches_done (line :: X)
              = match verdict line with
                | Terminated => true
                | Malformed => false
                | _ => reaches_done X
                end).
    { intros X. simpl. unfold is_done_line, is_malformed.
      now destruct (verdict line). }
    assert (D : forall X,
              read_deliveries (line :: X)
              = match verdict line with
                | Delivered c => c :: read_deliveries X
                | Skipped | Silent => read_deliveries X
                | Terminated | Malformed => []
                end) by reflexivity.
    destruct (verdict line) as [| |c| |] eqn:V.
    + destruct (IH (mkDecoder rest (streamDone d) (delivered d)) L Hd Hn)
        as (A1 & A2 & A3 & A4).
      refine (conj A1 (conj A2 (conj _ _))); intros more.
      * rewrite A3, C, R. reflexivity.
      * rewrite A4, C, D. reflexivity.
    + discriminate.
    + destruct (IH (mkDecoder rest (streamDone d) (delivered d ++ [c])%list) L Hd Hn)
        as (A1 & A2 & A3 & A4).
      refine (conj A1 (conj A2 (conj _ _))); intros more.
      * rewrite A3, C, R. reflexivity.
      * rewrite A4, C, D. cbn [textBuffer delivered].
        now rewrite <- app_assoc.
    + destruct (IH (mkDecoder rest (streamDone d) (delivered d)) L Hd Hn)
        as (A1 & A2 & A3 & A4).
      refine (conj A1 (conj A2 (conj _ _))); intros more.
      * rewrite A3, C, R. reflexivity.
      * rewrite A4, C, D. reflexivity.
    + cbn [textBuffer delivered streamDone].
      pose proof (verdict_pushback JSON_parse line V) as V'.
      pose proof (strip_cr_no_LF line Hl) as Hs.
      assert (C' : forall more,
                complete_lines ((strip_cr line ++ nl ++ rest) ++ more)
                = strip_cr line :: complete_lines (rest ++ more)).
      { intros more. rewrite pushback_cut. now apply complete_lines_cut. }
      assert (C0 : complete_lines (strip_cr line ++ nl ++ rest)
                   = strip_cr line :: complete_lines rest).
      { unfold nl. now apply complete_lines_cut. }
      refine (conj _ (conj _ (conj _ _))).
      * assert (D' : forall X, read_deliveries (strip_cr line :: X)
                = match verdict (strip_cr line) with
                  | Delivered c => c :: read_deliveries X
                  | Skipped | Silent => read_deliveries X
                  | Terminated | Malformed => []
                  end) by reflexivity.
        rewrite C0, D', V'. reflexivity.
      * rewrite C0. simpl. unfold is_done_line, is_malformed. now rewrite V'.
      * intros more. rewrite C', C, R. simpl. unfold is_done_line, is_malformed.
        now rewrite V'.
      * intros more.
        assert (D' : forall X, read_deliveries (strip_cr line :: X)
                = match verdict (strip_cr line) with
                  | Delivered c => c :: read_deliveries X
                  | Skipped | Silent => read_deliveries X
                  | Terminated | Malformed => []
                  end) by reflexivity.
        rewrite C', C, D, D', V'. reflexivity.
Qed.

(** When the inner loop sets [streamDone], a [[DONE]] line was among the
    complete lines of the buffer, whatever text follows. *)
Lemma lines_loop_done (fuel : nat) (d : Decoder) (more : string) :
  streamDone d = false ->
  streamDone (lines_loop fuel d) = true ->
  reaches_done (complete_lines (textBuffer d ++ more)) = true.
Proof.
  revert d. induction fuel as [|fuel IH]; intros d Hd Hn; [simpl in Hn; congruence|].
  destruct (Z.eq_dec (indexOf LF (textBuffer d)) (-1)) as [E|E].
  - rewrite lines_loop_stop in Hn by exact E. congruence.
  - destruct (indexOf_cut _ _ E) as (line & rest & Hb & _ & Hl).
    rewrite (lines_loop_step JSON_parse fuel d _ _ Hb Hl) in Hn.
    rewrite Hb, buffer_cut, complete_lines_cut by exact Hl.
    simpl. unfold is_done_line, is_malformed.
    destruct (verdict line) as [| |c| |] eqn:V.
    + exact (IH (mkDecoder rest (streamDone d) (delivered d)) Hd Hn).
    + reflexivity.
    + exact (IH (mkDecoder rest (streamDone d) (delivered d ++ [c])%list) Hd Hn).
    + exact (IH (mkDecoder rest (streamDone d) (delivered d)) Hd Hn).
    + simpl in Hn. congruence.
Qed.

Lemma process_drained (d : Decoder) :
  streamDone d = false ->
  streamDone (process d) = false ->
  read_deliveries (complete_lines (textBuffer (process d))) = []
  /\ reaches_done (complete_lines (textBuffer (process d))) = false
  /\ (forall more,
        reaches_done (complete_lines (textBuffer (process d) ++ more))
        = reaches_done (complete_lines (textBuffer d ++ more)))
  /\ (forall more,
        (delivered (process d)
         ++ read_deliveries (complete_lines (textBuffer (process d) ++ more)))%list
        = (delivered d ++ read_deliveries (complete_lines (textBuffer d ++ more)))%list).
Proof. apply lines_loop_drained. lia. Qed.

Lemma process_done (d : Decoder) (more : string) :
  streamDone d = false ->
  streamDone (process d) = true ->
  reaches_done (complete_lines (textBuffer d ++ more)) = true.
Proof. apply lines_loop_done. Qed.

Lemma read_loop_then (chunks : list string) (next : Reader) (d : Decoder) :
  streamDone d = false ->
  read_deliveries (complete_lines (textBuffer d)) = [] ->
  reaches_done (complete_lines (textBuffer d ++ concat_chunks chunks)) = false ->
  exists d',
    streamDone d' = false
    /\ delivered d'
       = (delivered d
          ++ read_deliveries (complete_lines (textBuffer d ++ concat_chunks chunks)))%list
    /\ read_loop (reader_then chunks next) d = read_loop next d'.
Proof.
  revert d. induction chunks as [|value rest IH]; intros d Hd Hr Hn.
  - exists d. simpl. rewrite append_nil_r, Hr, app_nil_r. auto.
  - set (d1 := mkDecoder (textBuffer d ++ value) false (delivered d)).
    assert (Hn1 : reaches_done
                    (complete_lines (textBuffer d1 ++ concat_chunks rest)) = false).
    { cbn [d1 textBuffer]. rewrite append_assoc. exact Hn. }
    destruct (process_no_done JSON_parse d1 (concat_chunks rest) eq_refl Hn1) as [A B].
    destruct (process_drained d1 eq_refl A) as (D1 & _ & _ & D4).
    destruct (IH (process d1) A D1 B) as (d' & E1 & E2 & E3).
    exists d'. split; [exact E1|]. split.
    + rewrite E2, (D4 (concat_chunks rest)). cbn [d1 textBuffer delivered].
      simpl concat_chunks. now rewrite append_assoc.
    + simpl. rewrite Hd. exact E3.
Qed.

Lemma read_loop_stops (chunks : list string) (next : Reader) (d : Decoder) :
  streamDone d = false ->
  reaches_done (complete_lines (textBuffer d)) = false ->
  reaches_done (complete_lines (textBuffer d ++ concat_chunks chunks)) = true ->
  exists d' remaining remaining',
    read_loop (reader_then chunks next) d = inr (d', remaining)
    /\ read_loop (reader_of chunks) d = inr (d', remaining').
Proof.
  revert d. induction chunks as [|value rest IH]; intros d Hd Hr Hn.
  - simpl in Hn. rewrite append_nil_r in Hn. congruence.
  - set (d1 := mkDecoder (textBuffer d ++ value) false (delivered d)).
    simpl. rewrite Hd. fold d1.
    destruct (streamDone (process d1)) eqn:S.
    + rewrite !(read_loop_done JSON_parse _ _ S). eauto.
    + destruct (process_drained d1 eq_refl S) as (_ & D2 & D3 & _).
      apply (IH (process d1) S D2).
      rewrite D3. cbn [d1 textBuffer]. rewrite append_assoc. exact Hn.
Qed.

Lemma reader_then_closed (chunks : list string) :
  reader_then chunks Closed = reader_of chunks.
Proof. induction chunks as [|v rest IH]; simpl; [reflexivity | now rewrite IH]. Qed.

(** X1: if the reading loop meets a [[DONE]] line in the chunks, what the body
    delivers afterwards - more chunks, its end or a failure of the
    transport - is never read and changes nothing. *)
Theorem nothing_read_after_done (chunks : list string) (next : Reader) :
  reaches_done (complete_lines (concat_chunks chunks)) = true ->
  streamChat JSON_parse (responded (reader_then chunks next))
  = streamChat JSON_parse (streamed chunks).
Proof.
  intros H. unfold streamed. rewrite !streamChat_responded. unfold decode.
  destruct (read_loop_stops chunks next (mkDecoder EmptyString false [])
              eq_refl eq_refl H) as (d' & r1 & r2 & E1 & E2).
  now rewrite E1, E2.
Qed.

(** X2: when the transport fails and the reading loop has met no [[DONE]]
    line, the deltas delivered before [onError] are those of the complete
    lines before the first malformed line, whatever the chunking: a last
    line without line feed and the lines behind a malformed line are
    lost. *)
Theorem deltas_before_transport_failure (chunks : list string) :
  reaches_done (complete_lines (concat_chunks chunks)) = false ->
  streamChat JSON_parse (responded (reader_then chunks Errored))
  = (map onDelta (read_deliveries (complete_lines (concat_chunks chunks)))
     ++ [onError connection_error])%list.
Proof.
  intros H. rewrite streamChat_responded. unfold decode.
  destruct (read_loop_then chunks Errored (mkDecoder EmptyString false [])
              eq_refl eq_refl H) as (d' & E1 & E2 & E3).
  rewrite E3. simpl. rewrite E1, E2. reflexivity.
Qed.

(** X3: without a [[DONE]] line for the reading loop to meet, two chunkings of
    the same text give the same callbacks: the contents of all the data
    lines of the text in order, the last line included when it has no
    line feed, then [onDone]. *)
Theorem chunking_is_irrelevant (chunks chunks' : list string) :
  concat_chunks chunks = concat_chunks chunks' ->
  reaches_done (complete_lines (concat_chunks chunks)) = false ->
  streamChat JSON_parse (streamed chunks) = streamChat JSON_parse (streamed chunks')
  /\ streamChat JSON_parse (streamed chunks)
     = (map onDelta (deliverable (concat_chunks chunks)) ++ [onDone])%list.
Proof.
  intros E H. unfold streamed. rewrite !streamChat_responded.
  rewrite (decode_deliverable JSON_parse chunks H).
  rewrite E in H. rewrite (decode_deliverable JSON_parse chunks' H).
  now rewrite E.
Qed.

Lemma verdict_delivered_truthy (raw : string) (c : json) :
  verdict raw = Delivered c -> Json.truthy c = true.
Proof.
  unfold verdict.
  destruct (startsWith (strip_cr raw) ":" || _); [discriminate|].
  destruct (negb _); [discriminate|].
  destruct (String.eqb _ "[DONE]"); [discriminate|].
  unfold try_content.
  destruct (JSON_parse _) as [parsed|]; [|discriminate].
  destruct parsed; try discriminate;
    match goal with
    | |- context [match ?x with Some _ => _ | None => _ end] =>
        destruct x as [v|]; try discriminate;
        destruct (Json.truthy v) eqn:T; try discriminate;
        intros H; inversion H; subst; exact T
    end.
Qed.

(** X4: every delta is a truthy value: never the empty string, [null],
    [false] or zero. *)
Theorem deltas_are_truthy (fetched : option ChatResponse) (c : json) :
  In (onDelta c) (streamChat JSON_parse fetched) -> Json.truthy c = true.
Proof.
  intros H. destruct fetched as [resp|]; simpl in H.
  2: { destruct H as [H|[]]; discriminate. }
  destruct (status_ok (resp_status resp)); simpl in H.
  2: { destruct (resp_json resp) as [[]|]; simpl in H;
       repeat match type of H with
         | context [match ?x with _ => _ end] => destruct x; simpl in H
         end;
       destruct H as [H|[]]; discriminate. }
  destruct (resp_body resp) as [reader|].
  2: { destruct H as [H|[]]; discriminate. }
  destruct (decode_spec JSON_parse reader) as (used & rest & T & D).
  assert (Hc : In c (deliverable used)).
  { destruct D as [D|(ds & more & E & D)]; rewrite D in H;
      apply in_map_onDelta in H; try discriminate.
    - exact H.
    - rewrite E. apply in_or_app. now left. }
  unfold deliverable in Hc.
  destruct (flush_loop_extends JSON_parse (split LF used) []) as (more & E & P).
  rewrite E in Hc. simpl in Hc. destruct (P c Hc) as (raw & _ & Dr).
  exact (verdict_delivered_truthy raw c Dr).
Qed.

(** *** Carriage returns *)

Lemma endsWith_last (m : string) (c : ascii) :
  endsWith (m ++ String c EmptyString) (String c EmptyString) = true.
Proof.
  unfold endsWith. rewrite length_append. simpl String.length.
  replace (String.length m + 1 - 1)%nat with (String.length m) by lia.
  replace (1 <=? String.length m + 1)%nat with true
    by (symmetry; apply Nat.leb_le; lia).
  change 1%nat with (String.length (String c EmptyString)) at 1.
  rewrite substring_suffix. simpl. now rewrite Ascii.eqb_refl.
Qed.

Lemma strip_cr_last (m : string) : strip_cr (m ++ cr) = m.
Proof.
  unfold strip_cr, cr. now rewrite endsWith_last, slice_drop_last.
Qed.

Lemma prefix_app_r (p m x : string) :
  String.prefix p m = true -> String.prefix p (m ++ x) = true.
Proof.
  intros H. destruct (prefix_inv _ _ H) as [y ->].
  rewrite append_assoc. apply prefix_app.
Qed.

Lemma prefix_last (p m : string) (c : ascii) :
  indexOf c p = -1 ->
  String.prefix p (m ++ String c EmptyString) = String.prefix p m.
Proof.
  intros H. destruct (String.prefix p m) eqn:E.
  - now apply prefix_app_r.
  - destruct (String.prefix p (m ++ String c EmptyString)) eqn:F; [|reflexivity].
    apply prefix_drop_last in F; [congruence | exact H].
Qed.

(** One more carriage return at the end of a line changes nothing. *)
Lemma verdict_cr (raw : string) : verdict (raw ++ cr) = verdict raw.
Proof.
  assert (G : forall m, verdict ((m ++ cr) ++ cr) = verdict (m ++ cr)).
  { intros m. unfold verdict. rewrite !strip_cr_last.
    unfold startsWith, cr. rewrite !prefix_last by reflexivity.
    rewrite trim_ws_end by reflexivity.
    destruct (String.prefix ":" m || _); [reflexivity|].
    destruct (String.prefix "data: " m) eqn:P; [|reflexivity].
    cbn [negb].
    assert (Q : startsWith (m ++ cr) "data: " = true)
      by (unfold startsWith; now apply prefix_app_r).
    destruct (data_line_strip _ Q) as (_ & _ & _ & E).
    rewrite strip_cr_last in E. unfold cr in E. now rewrite E. }
  destruct (strip_cr_spec raw) as [E|E].
  - unfold verdict. now rewrite strip_cr_last, E.
  - rewrite E. apply G.
Qed.

Lemma split_join_lf (lines : list string) :
  (forall l, In l lines -> indexOf LF l = -1) ->
  split LF (join_lines nl lines) = (lines ++ [EmptyString])%list.
Proof.
  induction lines as [|l lines IH]; intros H; [reflexivity|].
  change (join_lines nl (l :: lines)) with (l ++ String LF (join_lines nl lines)).
  rewrite split_cut by (apply H; now left).
  rewrite IH by (intros x Hx; apply H; now right). reflexivity.
Qed.

Lemma split_join_crlf (lines : list string) :
  (forall l, In l lines -> indexOf LF l = -1) ->
  split LF (join_lines crlf lines)
  = (map (fun l => (l ++ cr)%string) lines ++ [EmptyString])%list.
Proof.
  induction lines as [|l lines IH]; intros H; [reflexivity|].
  replace (join_lines crlf (l :: lines))
    with ((l ++ cr) ++ String LF (join_lines crlf lines))
    by (simpl join_lines; unfold crlf, cr; now rewrite append_assoc).
  rewrite split_cut.
  - rewrite IH by (intros x Hx; apply H; now right). reflexivity.
  - apply indexOf_app_none. split; [apply H; now left | reflexivity].
Qed.

Lemma flush_loop_cr (lines tail : list string) (out : list json) :
  flush_loop (map (fun l => (l ++ cr)%string) lines ++ tail)%list out
  = flush_loop (lines ++ tail)%list out.
Proof.
  revert out. induction lines as [|l lines IH]; intros out; [reflexivity|].
  simpl map. simpl app. rewrite !(flush_loop_step JSON_parse), verdict_cr.
  destruct (verdict l); apply IH.
Qed.

Lemma reaches_done_cr (lines : list string) :
  reaches_done (map (fun l => (l ++ cr)%string) lines) = reaches_done lines.
Proof.
  induction lines as [|l lines IH]; [reflexivity|].
  simpl. unfold is_done_line, is_malformed. rewrite verdict_cr, IH. reflexivity.
Qed.

(** X5: a stream whose lines end in CR LF is decoded like the stream whose
    lines end in LF, whatever the chunking of either, when no [[DONE]]
    line is there for the reading loop to meet. *)
Theorem crlf_like_lf (lines chunks chunks' : list string) :
  (forall l, In l lines -> indexOf LF l = -1) ->
  concat_chunks chunks = join_lines crlf lines ->
  concat_chunks chunks' = join_lines nl lines ->
  reaches_done lines = false ->
  streamChat JSON_parse (streamed chunks) = streamChat JSON_parse (streamed chunks').
Proof.
  intros Hl E E' H.
  assert (R : reaches_done (complete_lines (concat_chunks chunks)) = false).
  { rewrite E. unfold complete_lines. rewrite split_join_crlf by exact Hl.
    now rewrite removelast_last, reaches_done_cr. }
  assert (R' : reaches_done (complete_lines (concat_chunks chunks')) = false).
  { rewrite E'. unfold complete_lines. rewrite split_join_lf by exact Hl.
    now rewrite removelast_last. }
  unfold streamed. rewrite !streamChat_responded.
  rewrite (decode_deliverable JSON_parse chunks R).
  rewrite (decode_deliverable JSON_parse chunks' R').
  rewrite E, E'. unfold deliverable.
  rewrite split_join_crlf, split_join_lf by exact Hl.
  now rewrite flush_loop_cr.
Qed.


Lemma split_join_tail (lines : list string) (raw : string) :
  (forall l, In l lines -> indexOf LF l = -1) ->
  indexOf LF raw = -1 ->
  split LF (join_lines nl lines ++ raw) = (lines ++ [raw])%list.
Proof.
  intros H Hr. induction lines as [|l lines IH]; [now apply split_none|].
  change (join_lines nl (l :: lines) ++ raw)
    with ((l ++ String LF (join_lines nl lines)) ++ raw).
  rewrite buffer_cut, split_cut by (apply H; now left).
  rewrite IH by (intros x Hx; apply H; now right). reflexivity.
Qed.

(** X6: when the lines before it hold no [[DONE]] line for the reading
    loop to meet, a data line at the end of the body that has no line
    feed is delivered, by the final flush, after the deltas of the lines
    before it. *)
Theorem unterminated_last_line_delivered (chunks lines : list string)
    (raw : string) (c : json) :
  concat_chunks chunks = join_lines nl lines ++ raw ->
  (forall l, In l lines -> indexOf LF l = -1) ->
  indexOf LF raw = -1 ->
  reaches_done lines = false ->
  delivers raw c ->
  streamChat JSON_parse (streamed chunks)
  = (map onDelta (deliverable (join_lines nl lines)) ++ [onDelta c; onDone])%list.
Proof.
  intros E Hl Hr Hd Dr.
  assert (R : reaches_done (complete_lines (concat_chunks chunks)) = false).
  { rewrite E. unfold complete_lines. rewrite split_join_tail by assumption.
    now rewrite removelast_last. }
  unfold streamed. rewrite streamChat_responded.
  rewrite (decode_deliverable JSON_parse chunks R), E. unfold deliverable.
  rewrite split_join_tail, split_join_lf by assumption.
  rewrite !(flush_loop_app JSON_parse).
  assert (V : verdict raw = Delivered c) by exact Dr.
  assert (B : flush_loop [EmptyString] (flush_loop lines []) = flush_loop lines [])
    by reflexivity.
  rewrite B.
  assert (F : forall out, flush_loop [raw] out = (out ++ [c])%list).
  { intros out. rewrite (flush_loop_step JSON_parse), V. reflexivity. }
  rewrite F, map_app, <- app_assoc. reflexivity.
Qed.

(** X7: every call of [streamChat] makes exactly one call of [onDone] or
    [onError], as its last call, after the deltas; there is a delta, or
    the last call is [onDone], only for a successful response with a
    body. *)
Theorem one_terminal_callback (fetched : option ChatResponse) :
  exists deltas final,
    streamChat JSON_parse fetched = (map onDelta deltas ++ [final])%list
    /\ (final = onDone \/ exists e, final = onError e)
    /\ (final = onDone \/ deltas <> [] ->
        exists resp reader,
          fetched = Some resp
          /\ status_ok (resp_status resp) = true
          /\ resp_body resp = Some reader).
Proof.
  assert (Err : forall e, exists deltas final,
            [onError e] = (map onDelta deltas ++ [final])%list
            /\ (final = onDone \/ exists e, final = onError e)
            /\ (final = onDone \/ deltas <> [] ->
                exists resp reader,
                  fetched = Some resp
                  /\ status_ok (resp_status resp) = true
                  /\ resp_body resp = Some reader)).
  { intros e. exists [], (onError e). split; [reflexivity|].
    split; [right; now exists e|]. intros [H|H]; [discriminate | now destruct H]. }
  destruct fetched as [resp|]; simpl; [|apply Err].
  destruct (status_ok (resp_status resp)) eqn:Ok; simpl.
  2: { destruct (resp_json resp) as [[]|]; simpl;
       repeat match goal with
         | |- context [match ?x with _ => _ end] => destruct x; simpl
         end;
       apply Err. }
  destruct (resp_body resp) as [reader|] eqn:B; [|apply Err].
  destruct (decode_spec JSON_parse reader) as (used & rest & _ & [D|(ds & more & _ & D)]);
    rewrite D.
  - exists (deliverable used), onDone. split; [reflexivity|]. split; [now left|].
    intros _. exists resp, reader. now repeat split.
  - exists ds, (onError connection_error). split; [reflexivity|].
    split; [right; now eexists|].
    intros _. exists resp, reader. now repeat split.
Qed.

Lemma flush_loop_kept (lines tail : list string) (out : list json) :
  flush_loop (filter (fun l => negb (is_skipped l)) lines ++ tail)%list out
  = flush_loop (lines ++ tail)%list out.
Proof.
  revert out. induction lines as [|l lines IH]; intros out; [reflexivity|].
  cbn [filter app]. unfold is_skipped at 1.
  rewrite (flush_loop_step JSON_parse l).
  destruct (verdict l) as [| |c| |] eqn:V; cbn [negb app];
    rewrite ?(flush_loop_step JSON_parse l), ?V; apply IH.
Qed.

Lemma reaches_done_kept (lines : list string) :
  reaches_done (filter (fun l => negb (is_skipped l)) lines) = reaches_done lines.
Proof.
  induction lines as [|l lines IH]; [reflexivity|].
  cbn [filter]. unfold is_skipped at 1.
  assert (D : forall rest, reaches_done (l :: rest)
              = match verdict l with
                | Terminated => true
                | Malformed => false
                | _ => reaches_done rest
                end).
  { intros rest. simpl. unfold is_done_line, is_malformed. now destruct (verdict l). }
  rewrite (D lines).
  destruct (verdict l) as [| |c| |] eqn:V; cbn [negb]; rewrite ?D, ?V; try reflexivity;
    exact IH.
Qed.

Lemma filter_no_LF (f : string -> bool) (lines : list string) :
  (forall l, In l lines -> indexOf LF l = -1) ->
  forall l, In l (filter f lines) -> indexOf LF l = -1.
Proof. intros H l Hl. apply filter_In in Hl as [Hl _]. now apply H. Qed.

(** X8: blank lines, comments and lines without the [data: ] prefix are
    transparent: a stream gives the same callbacks as the stream without
    these lines, under any chunking of either, when the lines hold no
    [[DONE]] line for the reading loop to meet. *)
Theorem skipped_lines_are_transparent (lines chunks chunks' : list string) :
  (forall l, In l lines -> indexOf LF l = -1) ->
  concat_chunks chunks = join_lines nl lines ->
  concat_chunks chunks' = join_lines nl (filter (fun l => negb (is_skipped l)) lines) ->
  reaches_done lines = false ->
  streamChat JSON_parse (streamed chunks) = streamChat JSON_parse (streamed chunks').
Proof.
  intros Hl E E' H.
  pose proof (filter_no_LF (fun l => negb (is_skipped l)) lines Hl) as Hl'.
  assert (R : reaches_done (complete_lines (concat_chunks chunks)) = false).
  { rewrite E. unfold complete_lines. rewrite (split_join_lf lines Hl).
    now rewrite removelast_last. }
  assert (R' : reaches_done (complete_lines (concat_chunks chunks')) = false).
  { rewrite E'. unfold complete_lines. rewrite (split_join_lf _ Hl').
    now rewrite removelast_last, reaches_done_kept. }
  unfold streamed. rewrite !streamChat_responded.
  rewrite (decode_deliverable JSON_parse chunks R).
  rewrite (decode_deliverable JSON_parse chunks' R').
  rewrite E, E'. unfold deliverable.
  rewrite (split_join_lf lines Hl), (split_join_lf _ Hl').
  now rewrite flush_loop_kept.
Qed.

End StreamChatMore.

(** ** The edge function, further *)

Section HandlerMore.

Variable URL_parse : string -> option URL.
Variable env : Env.

Ltac step_handler :=
  cbn -[Str.of_Z build_messages chat_request status_ok Z.eqb Z.ltb
        MAX_DOCUMENT_SIZE export_url Str.trim].

(** The handler on a request that does not pass the checks. *)
Lemma serve_cases (req : Request) :
  (exists t resp,
     serve URL_parse env req = (t, inr resp)
     /\ no_fetch t
     /\ In resp [Preflight; UpstreamError; MissingField; InvalidUrl; Unavailable])
  \/ (exists q u h key, admitted URL_parse env req q u h key).
Proof.
  unfold serve, admitted.
  destruct (String.eqb_spec (method req) "OPTIONS") as [Hm|Hm].
  { left. eexists _, _. split; [reflexivity|]. split; [reflexivity|]. simpl. auto. }
  destruct (req_json req) as [e|[q u h]].
  { left. eexists _, _. split; [reflexivity|]. split; [reflexivity|]. simpl. auto. }
  cbn [lift bind try_catch question documentUrl conversationHistory].
  destruct q as [q|].
  2: { left. eexists _, _. split; [reflexivity|]. split; [reflexivity|]. simpl. auto. }
  destruct (String.eqb_spec q EmptyString) as [Hq|Hq].
  { subst. left. eexists _, _. split; [reflexivity|]. split; [reflexivity|]. simpl. auto. }
  destruct u as [u|].
  2: { left. rewrite (missing_some q Hq).
       eexists _, _. split; [reflexivity|]. split; [reflexivity|]. simpl. auto. }
  destruct (String.eqb_spec u EmptyString) as [Hu|Hu].
  { subst. left. rewrite (missing_some q Hq).
    eexists _, _. split; [reflexivity|]. split; [reflexivity|]. simpl. auto. }
  rewrite (missing_some q Hq), (missing_some u Hu). cbn [orb].
  destruct (isValidGoogleDocsUrl URL_parse u) eqn:Hv.
  2: { left. eexists _, _. split; [reflexivity|]. split; [reflexivity|]. simpl. auto. }
  cbn [negb].
  destruct (LOVABLE_API_KEY env) as [key|] eqn:Hk.
  2: { left. eexists _, _. split; [reflexivity|]. split; [reflexivity|]. simpl. auto 6. }
  destruct (String.eqb_spec key EmptyString) as [Hk'|Hk'].
  { subst. left. eexists _, _. split; [reflexivity|]. split; [reflexivity|]. simpl. auto 6. }
  right. exists q, u, h, key. repeat split; assumption.
Qed.


(** The document fetch, when the fetch of the export URL rejects. *)
Lemma fetch_rejected (url docId : string) (e : JsError) :
  first_match url patterns = Some docId ->
  fetch_document env (export_url docId) = Rejected e ->
  fetchGoogleDocContent env url =
    ([FetchDocument (export_url docId)],
     inl (if String.eqb (error_name e) "AbortError" then TimedOut else e)).
Proof.
  intros Hid Hf. unfold fetchGoogleDocContent. rewrite Hid, Hf.
  step_handler.
  destruct (String.eqb (error_name e) "AbortError"); reflexivity.
Qed.

(** The effects of the document fetch: nothing without an identifier,
    else the fetch of the export of the identifier, and at most the
    reading of its body. *)
Lemma fetch_trace (url : string) :
  (first_match url patterns = None
   /\ fetchGoogleDocContent env url = ([], inl InvalidDocumentFormat))
  \/ (exists docId t,
        first_match url patterns = Some docId
        /\ trace (fetchGoogleDocContent env url) = FetchDocument (export_url docId) :: t
        /\ fetches t = []).
Proof.
  destruct (first_match url patterns) as [docId|] eqn:Hid.
  2: { left. split; [reflexivity|]. unfold fetchGoogleDocContent. now rewrite Hid. }
  right. exists docId.
  destruct (fetch_document env (export_url docId)) as [response|e] eqn:Hf.
  - rewrite (fetch_resolved env url docId response Hid Hf). cbv zeta.
    destruct (negb (status_ok (http_status response)));
      [eexists; repeat split|].
    destruct (declared_too_large response); [eexists; repeat split|].
    destruct (http_text response) as [e|content]; [eexists; repeat split|].
    destruct (MAX_DOCUMENT_SIZE <? Z.of_nat (String.length content));
      [eexists; repeat split|].
    destruct (String.eqb content EmptyString || _); eexists; repeat split.
  - rewrite (fetch_rejected url docId e Hid Hf). eexists; repeat split.
Qed.

Lemma fetches_app (a b : list Effect) : fetches (a ++ b) = (fetches a ++ fetches b)%list.
Proof. apply filter_app. Qed.

(** The handler on a request that passes the checks: the effects of the
    document fetch, then at most one call of the model, made when the
    document was fetched and the history is there. *)
Lemma serve_admitted_trace (req : Request) (q u key : string) (h : option (list Message)) :
  admitted URL_parse env req q u h key ->
  exists t',
    trace (serve URL_parse env req) = (trace (fetchGoogleDocContent env u) ++ t')%list
    /\ (fetches t' = []
        \/ exists d history,
             outcome (fetchGoogleDocContent env u) = inr d
             /\ h = Some history
             /\ fetches t'
                = [FetchModel (chat_request key
                                 (build_messages d (Str.slice_array history (-10)) q))]).
Proof.
  intros A.
  destruct (fetchGoogleDocContent env u) as [t r] eqn:F.
  rewrite (serve_admitted URL_parse env req q u key h t r A F).
  unfold trace, outcome. cbn [fst snd].
  destruct r as [e|d].
  { exists []. rewrite app_nil_r. split; [reflexivity | now left]. }
  destruct h as [history|].
  2: { eexists. split; [reflexivity | now left]. }
  cbv zeta.
  destruct (fetch_model env _) as [response|e];
    [destruct (status_ok (http_status response));
     [|destruct (http_status response =? 429);
       [|destruct (http_status response =? 402);
         [|destruct (http_text response) as [e|errorText]]]]|];
    (eexists; split; [cbn [fst]; rewrite <- ?app_assoc; reflexivity|];
     right; exists d, history; split; [reflexivity|]; split; [reflexivity|];
     reflexivity).
Qed.


Lemma no_fetch_fetches (t : list Effect) : no_fetch t -> fetches t = [].
Proof.
  unfold no_fetch, fetches. induction t as [|e t IH]; [reflexivity|].
  simpl. destruct (is_fetch e); simpl; [discriminate | exact IH].
Qed.

Lemma in_fetches (e : Effect) (t : list Effect) :
  In e t -> is_fetch e = true -> In e (fetches t).
Proof. intros H F. apply filter_In. now split. Qed.

(** What the three patterns give is a run of identifier characters of
    the URL, not empty. *)
Lemma first_match_sound (url docId : string) :
  first_match url patterns = Some docId ->
  docId <> EmptyString
  /\ UrlText.all_chars id_char docId = true
  /\ occurs_in docId url.
Proof.
  assert (Here : forall p s, match_here p s = Some docId ->
            docId <> EmptyString /\ UrlText.all_chars id_char docId = true
            /\ occurs_in docId s).
  { intros p s H.
    destruct (PatternFacts.match_here_sound p s docId H) as (rest & E & N & A & _).
    repeat split; try assumption. exists (literal p), rest. exact E. }
  assert (Search : forall p s, search p s = Some docId ->
            docId <> EmptyString /\ UrlText.all_chars id_char docId = true
            /\ occurs_in docId s).
  { intros p s H.
    destruct (PatternFacts.search_sound p s docId H) as (before & after & E & M & _).
    destruct (Here p after M) as (N & A & b & a & O).
    repeat split; try assumption. exists (before ++ b), a.
    now rewrite E, O, StrFacts.append_assoc. }
  unfold first_match, patterns, String_match.
  change (whole path_pattern) with false. change (whole query_pattern) with false.
  change (whole bare_pattern) with true. cbv iota.
  destruct (search path_pattern url) as [id|] eqn:P.
  { intros [= ->]. now apply (Search _ _ P). }
  destruct (search query_pattern url) as [id|] eqn:Q.
  { intros [= ->]. now apply (Search _ _ Q). }
  destruct (match_here bare_pattern url) as [id|] eqn:B; [|discriminate].
  intros [= ->]. now apply (Here _ _ B).
Qed.

(** The outbound calls of the handler, for every request. *)
Lemma serve_fetches (req : Request) :
  fetches (trace (serve URL_parse env req)) = []
  \/ exists q u h key docId,
       admitted URL_parse env req q u h key
       /\ first_match u patterns = Some docId
       /\ (fetches (trace (serve URL_parse env req)) = [FetchDocument (export_url docId)]
           \/ exists d history,
                outcome (fetchGoogleDocContent env u) = inr d
                /\ h = Some history
                /\ fetches (trace (serve URL_parse env req))
                   = [FetchDocument (export_url docId);
                      FetchModel (chat_request key
                                    (build_messages d (Str.slice_array history (-10)) q))]).
Proof.
  destruct (serve_cases req) as [(t & resp & E & N & _) | (q & u & h & key & A)].
  { left. rewrite E. now apply no_fetch_fetches. }
  destruct (serve_admitted_trace req q u key h A) as (t' & E & T).
  destruct (fetch_trace u) as [[Hn F] | (docId & t & Hid & F & Ft)].
  - left. rewrite E, F. simpl. destruct T as [T | (d & history & O & _)]; [exact T|].
    rewrite F in O. discriminate.
  - right. exists q, u, h, key, docId. split; [exact A|]. split; [exact Hid|].
    rewrite E, F, fetches_app. cbn [fetches filter is_fetch]. fold (fetches t).
    rewrite Ft. destruct T as [T | (d & history & O & Hh & T)]; rewrite T.
    + now left.
    + right. exists d, history. now repeat split.
Qed.

(** X9: the handler calls the network at most twice: at most one fetch
    of a document, then at most one call of the model, which is made
    only after a fetch of the document, when that fetch returned the
    document and the request has a history. *)
Theorem fetch_discipline (req : Request) :
  exists docs models,
    fetches (trace (serve URL_parse env req))
    = (map FetchDocument docs ++ map FetchModel models)%list
    /\ (List.length models <= List.length docs <= 1)%nat
    /\ forall request, In request models ->
         exists q u key d history,
           admitted URL_parse env req q u (Some history) key
           /\ outcome (fetchGoogleDocContent env u) = inr d
           /\ request
              = chat_request key (build_messages d (Str.slice_array history (-10)) q).
Proof.
  destruct (serve_fetches req) as [E | (q & u & h & key & docId & A & _ & E)].
  { exists [], []. rewrite E. split; [reflexivity|]. split; [simpl; lia | intros r []]. }
  destruct E as [E | (d & history & O & -> & E)]; rewrite E.
  - exists [export_url docId], []. split; [reflexivity|].
    split; [simpl; lia | intros r []].
  - exists [export_url docId],
           [chat_request key (build_messages d (Str.slice_array history (-10)) q)].
    split; [reflexivity|]. split; [simpl; lia|].
    intros r [<-|[]]. exists q, u, key, d, history.
    split; [exact A|]. split; [exact O | reflexivity].
Qed.

(** X10: whatever the request, the only document URL the handler fetches is
    the text export of an identifier made of identifier characters that
    occurs in the document URL of an admitted request. *)
Theorem document_fetch_is_an_export (req : Request) (x : string) :
  In (FetchDocument x) (trace (serve URL_parse env req)) ->
  exists q u h key docId,
    admitted URL_parse env req q u h key
    /\ x = "https://docs.google.com/document/d/" ++ docId ++ "/export?format=txt"
    /\ docId <> EmptyString
    /\ UrlText.all_chars id_char docId = true
    /\ occurs_in docId u.
Proof.
  intros H. apply in_fetches in H; [|reflexivity].
  destruct (serve_fetches req) as [E | (q & u & h & key & docId & A & Hid & E)].
  { rewrite E in H. destruct H. }
  exists q, u, h, key, docId. split; [exact A|].
  destruct (first_match_sound u docId Hid) as (N & C & O).
  repeat split; try assumption.
  destruct E as [E | (d & history & _ & _ & E)]; rewrite E in H.
  - destruct H as [H|[]]. now inversion H.
  - destruct H as [H|[H|[]]]; [now inversion H | discriminate].
Qed.


(** The answers of the handler. *)
Lemma serve_responses (req : Request) :
  exists resp,
    outcome (serve URL_parse env req) = inr resp
    /\ (In resp [Preflight; MissingField; InvalidUrl; Unavailable; UpstreamError;
                 RateLimited; QuotaExceeded]
        \/ (exists q u h key e,
              admitted URL_parse env req q u h key
              /\ outcome (fetchGoogleDocContent env u) = inl e
              /\ resp = json_response (error_message e) 400)
        \/ (exists upstream,
              status_ok (http_status upstream) = true /\ resp = relay upstream)).
Proof.
  destruct (serve_cases req) as [(t & resp & E & _ & I) | (q & u & h & key & A)].
  { exists resp. rewrite E. split; [reflexivity|].
    simpl in I.
    destruct I as [<-|[<-|[<-|[<-|[<-|[]]]]]]; left; simpl; tauto. }
  destruct (fetchGoogleDocContent env u) as [t r] eqn:F.
  rewrite (serve_admitted URL_parse env req q u key h t r A F).
  destruct r as [e|d].
  { eexists. split; [reflexivity|].
    right. left. exists q, u, h, key, e. rewrite F.
    split; [exact A|]. split; reflexivity. }
  destruct h as [history|].
  2: { eexists. split; [reflexivity|]. left. simpl. tauto. }
  cbv zeta.
  destruct (fetch_model env _) as [response|e].
  2: { eexists. split; [reflexivity|]. left. simpl. tauto. }
  destruct (status_ok (http_status response)) eqn:Ok.
  { eexists. split; [reflexivity|].
    right. right. exists response. now split. }
  destruct (http_status response =? 429).
  { eexists. split; [reflexivity|]. left. simpl. tauto. }
  destruct (http_status response =? 402).
  { eexists. split; [reflexivity|]. left. simpl. tauto. }
  destruct (http_text response) as [e|errorText];
    (eexists; split; [reflexivity|]; left; simpl; tauto).
Qed.

(** X11: the handler never throws: every request is answered, and the answer
    is the preflight answer, one of six fixed error answers, the message
    of the error of the document fetch with status 400, or the relay of
    a successful answer of the gateway. *)
Theorem serve_always_responds (req : Request) :
  exists resp,
    outcome (serve URL_parse env req) = inr resp
    /\ In (status resp) [200; 400; 402; 429; 500]
    /\ (In resp [Preflight; MissingField; InvalidUrl; Unavailable; UpstreamError;
                 RateLimited; QuotaExceeded]
        \/ (exists q u h key e,
              admitted URL_parse env req q u h key
              /\ outcome (fetchGoogleDocContent env u) = inl e
              /\ resp = json_response (error_message e) 400)
        \/ (exists upstream,
              status_ok (http_status upstream) = true /\ resp = relay upstream)).
Proof.
  destruct (serve_responses req) as (resp & O & C).
  exists resp. split; [exact O|]. split; [|exact C].
  destruct C as [I | [(q & u & h & key & e & _ & _ & ->) | (upstream & _ & ->)]].
  - simpl in I.
    destruct I as [<-|[<-|[<-|[<-|[<-|[<-|[<-|[]]]]]]]]; simpl; tauto.
  - simpl. tauto.
  - simpl. tauto.
Qed.

(** X12: when the document fetch fails, the request is answered with status
    400 and the message of the error, and the model is not called. *)
Theorem document_failure_reported (req : Request) (q u key : string)
    (h : option (list Message)) (e : JsError) :
  admitted URL_parse env req q u h key ->
  outcome (fetchGoogleDocContent env u) = inl e ->
  outcome (serve URL_parse env req) = inr (json_response (error_message e) 400)
  /\ trace (serve URL_parse env req) = trace (fetchGoogleDocContent env u)
  /\ model_requests (trace (serve URL_parse env req)) = [].
Proof.
  intros A O.
  destruct (fetchGoogleDocContent env u) as [t r] eqn:F.
  simpl in O. subst r.
  rewrite (serve_admitted URL_parse env req q u key h t (inl e) A F).
  split; [reflexivity|]. split; [reflexivity|].
  change t with (trace (t, @inl JsError string e)). rewrite <- F.
  apply fetch_document_only.
Qed.

(** X13: a document that is returned was read from a successful answer to the
    fetch of the export of the identifier, is at most 5 MB long and is
    not blank; the fetch and the reading of the body are the only effects. *)
Theorem fetched_document_is_usable (url content : string) :
  outcome (fetchGoogleDocContent env url) = inr content ->
  Z.of_nat (String.length content) <= 5242880
  /\ Str.all_ws content = false
  /\ exists docId response,
       first_match url patterns = Some docId
       /\ fetch_document env (export_url docId) = Resolved response
       /\ status_ok (http_status response) = true
       /\ declared_too_large response = false
       /\ http_text response = inr content
       /\ trace (fetchGoogleDocContent env url)
          = [FetchDocument (export_url docId); ReadText (http_status response)].
Proof.
  destruct (first_match url patterns) as [docId|] eqn:Hid.
  2: { unfold fetchGoogleDocContent. rewrite Hid. discriminate. }
  destruct (fetch_document env (export_url docId)) as [response|e] eqn:Hf.
  2: { rewrite (fetch_rejected url docId e Hid Hf). discriminate. }
  rewrite (fetch_resolved env url docId response Hid Hf). cbv zeta.
  destruct (status_ok (http_status response)) eqn:Ok; [|discriminate].
  cbn [negb].
  destruct (declared_too_large response) eqn:D; [discriminate|].
  destruct (http_text response) as [e|c] eqn:T; [discriminate|].
  destruct (Z.ltb_spec MAX_DOCUMENT_SIZE (Z.of_nat (String.length c))) as [L|L];
    [discriminate|].
  destruct (String.eqb c EmptyString || (String.length (Str.trim c) =? 0)%nat) eqn:B;
    [discriminate|].
  intros [= ->]. split; [exact L|]. split.
  - apply Bool.orb_false_iff in B as [_ B]. apply Nat.eqb_neq in B.
    destruct (Str.all_ws content) eqn:W; [|reflexivity].
    apply StrFacts.trim_empty in W. rewrite W in B. now destruct B.
  - exists docId, response. now repeat split.
Qed.

(** X14: when the fetch of the export rejects, the request is answered with
    status 400: with the time-out message for an abort, else with the
    message of the rejection; the model is not called. *)
Theorem document_fetch_rejection_reported (req : Request) (q u key docId : string)
    (h : option (list Message)) (e : JsError) :
  admitted URL_parse env req q u h key ->
  first_match u patterns = Some docId ->
  fetch_document env (export_url docId) = Rejected e ->
  serve URL_parse env req
  = ([FetchDocument (export_url docId)],
     inr (json_response
            (if String.eqb (error_name e) "AbortError"
             then "Document fetch timed out. Please try again."
             else error_message e) 400)).
Proof.
  intros A Hid Hf.
  rewrite (serve_admitted URL_parse env req q u key h _ _ A
             (fetch_rejected u docId e Hid Hf)).
  destruct (String.eqb (error_name e) "AbortError"); reflexivity.
Qed.

(** X15: a request without [conversationHistory] that passes the checks has
    its document fetched, and is then answered with the generic failure,
    status 500, without a call of the model. *)
Theorem absent_history_fails (req : Request) (q u key d : string) :
  admitted URL_parse env req q u None key ->
  outcome (fetchGoogleDocContent env u) = inr d ->
  outcome (serve URL_parse env req) = inr UpstreamError
  /\ model_requests (trace (serve URL_parse env req)) = []
  /\ exists docId, fetches (trace (serve URL_parse env req)) = [FetchDocument (export_url docId)].
Proof.
  intros A O.
  destruct (fetch_trace u) as [[_ F] | (docId & t & _ & E & Ft)].
  { rewrite F in O. discriminate. }
  destruct (fetchGoogleDocContent env u) as [t0 r] eqn:F.
  simpl in O, E. subst r t0.
  rewrite (serve_admitted URL_parse env req q u key None _ _ A F).
  split; [reflexivity|]. unfold trace. cbn [fst]. split.
  - rewrite model_requests_app.
    change (FetchDocument (export_url docId) :: t)
      with (trace (FetchDocument (export_url docId) :: t, @inr JsError string d)).
    rewrite <- F, fetch_document_only. reflexivity.
  - exists docId. rewrite fetches_app. cbn [fetches filter is_fetch]. fold (fetches t).
    rewrite Ft. reflexivity.
Qed.


End HandlerMore.

Section EndToEnd.

Variable JSON_parse : string -> option json.
Variable URL_parse : string -> option URL.
Variable env : Env.

(** X17: an error answer of the edge function reaches the user as its
    message: when the page receives the status of the answer, and its
    body parses as the object [{ error }], [streamChat] calls [onError]
    with the message of the answer and makes no other call. *)
Theorem error_reaches_user (req : Request) (resp : Response) (received : ChatResponse)
    (message : string) :
  outcome (serve URL_parse env req) = inr resp ->
  body resp = ErrorBody message ->
  message <> EmptyString ->
  resp_status received = status resp ->
  resp_json received = Some (JObject [("error", JString message)]) ->
  streamChat JSON_parse (Some received) = [onError (JString message)].
Proof.
  intros O B N S J.
  assert (Ok : status_ok (status resp) = false).
  { destruct (serve_responses URL_parse env req) as (resp' & O' & C).
    rewrite O in O'. injection O' as <-.
    destruct C as [I | [(q & u & h & key & e & _ & _ & ->) | (up & _ & ->)]].
    - simpl in I.
      destruct I as [<-|[<-|[<-|[<-|[<-|[<-|[<-|[]]]]]]]]; try reflexivity.
      discriminate.
    - reflexivity.
    - discriminate. }
  unfold streamChat. rewrite S, Ok, J. cbn [negb].
  apply String.eqb_neq in N.
  cbn. rewrite N. reflexivity.
Qed.

End EndToEnd.

(** ** The chat page and its inputs *)

Module TextFacts.
Import Str.

Lemma trimStart_head (s : string) :
  trimStart s = EmptyString
  \/ exists c r, trimStart s = String c r /\ isWhiteSpace c = false.
Proof.
  induction s as [|c s IH]; simpl; [now left|].
  destruct (isWhiteSpace c) eqn:W; [exact IH|]. right. now exists c, s.
Qed.

Lemma trimEnd_idem (s : string) : trimEnd (trimEnd s) = trimEnd s.
Proof.
  induction s as [|c s IH]; [reflexivity|]. simpl.
  destruct (trimEnd s) as [|a t] eqn:E.
  - destruct (isWhiteSpace c) eqn:W; simpl; [reflexivity | now rewrite W].
  - change (trimEnd (String c (String a t)))
      with (match trimEnd (String a t) with
            | EmptyString => if isWhiteSpace c then EmptyString else String c EmptyString
            | String x y => String c (String x y)
            end).
    now rewrite IH.
Qed.

Lemma trimEnd_head (c : ascii) (r : string) :
  isWhiteSpace c = false -> trimEnd (String c r) = String c (trimEnd r).
Proof. intros W. simpl. destruct (trimEnd r); [now rewrite W | reflexivity]. Qed.

(** Trimming twice is trimming once. *)
Lemma trim_idem (s : string) : trim (trim s) = trim s.
Proof.
  unfold trim. destruct (trimStart_head s) as [E | (c & r & E & W)]; rewrite E.
  - reflexivity.
  - rewrite (trimEnd_head c r W). simpl trimStart. rewrite W.
    rewrite <- (trimEnd_head c r W). apply trimEnd_idem.
Qed.

Lemma of_Z_inj (a b : Z) : of_Z a = of_Z b -> a = b.
Proof.
  unfold of_Z. intros H. apply DecimalZ.to_int_inj.
  assert (N : forall z, Z.to_int z <> Decimal.Pos Decimal.Nil
                        /\ Z.to_int z <> Decimal.Neg Decimal.Nil).
  { intros [|p|p]; simpl; split; try discriminate;
      intros [= E]; now apply (DecimalPos.Unsigned.to_uint_nonnil p). }
  apply (f_equal NilZero.int_of_string) in H.
  rewrite !NilZero.isi in H by apply N. now inversion H.
Qed.

End TextFacts.

Section PageFacts.
Import Page.

Lemma last_message_app (prev : list Message) (m : Message) :
  last_message (prev ++ [m])%list = Some m.
Proof.
  induction prev as [|x prev IH]; [reflexivity|].
  simpl. rewrite IH. now destruct prev.
Qed.

(** On a list that ends with the message of the answer, and holds its
    identifier nowhere else, the updater replaces the content of that
    message. *)
Lemma show_delta_last (assistantId c c' : string) (prev : list Message) :
  (forall m, In m prev -> id m <> assistantId) ->
  show_delta assistantId c' (prev ++ [mkMessage assistantId assistant c])%list
  = (prev ++ [mkMessage assistantId assistant c'])%list.
Proof.
  intros F. unfold show_delta. rewrite last_message_app. cbn [role id is_assistant andb].
  rewrite String.eqb_refl, map_app. cbn [map id role]. rewrite String.eqb_refl.
  f_equal. rewrite <- (map_id prev) at 2. apply map_ext_in.
  intros m Hm. apply F in Hm. apply String.eqb_neq in Hm. now rewrite Hm.
Qed.

Lemma show_delta_first (assistantId c : string) (prev : list Message) (m : Message) :
  id m <> assistantId ->
  show_delta assistantId c (prev ++ [m])%list = (prev ++ [m; mkMessage assistantId assistant c])%list.
Proof.
  intros N. unfold show_delta. rewrite last_message_app.
  apply String.eqb_neq in N. rewrite N, Bool.andb_false_r, <- app_assoc. reflexivity.
Qed.

(** After another update has emptied [messages], the updater of the next
    delta leaves the message of the answer alone on the page. *)
Lemma delta_after_clear (assistantId c : string) :
  show_delta assistantId c [] = [mkMessage assistantId assistant c].
Proof. reflexivity. Qed.

Lemma last_nonempty {A : Type} (x : A) (l : list A) (d d' : A) :
  last (x :: l) d = last (x :: l) d'.
Proof.
  revert x. induction l as [|y l IH]; intros x; [reflexivity|].
  change (last (y :: l) d = last (y :: l) d'). apply IH.
Qed.

Lemma show_deltas_last (assistantId c : string) (seen : list string) (prev : list Message) :
  (forall m, In m prev -> id m <> assistantId) ->
  fold_left (fun prev c' => show_delta assistantId c' prev) seen
    (prev ++ [mkMessage assistantId assistant c])%list
  = (prev ++ [mkMessage assistantId assistant (last seen c)])%list.
Proof.
  intros F. revert c. induction seen as [|c' seen IH]; intros c; [reflexivity|].
  cbn [fold_left]. rewrite (show_delta_last assistantId c c' prev F), IH.
  destruct seen as [|x seen]; [reflexivity|].
  now rewrite (last_nonempty x seen c' c).
Qed.

(** X18: when the updaters of [handleSend] are the only updates of
    [messages] while an answer is streamed (no other call of
    [setMessages], such as that of the Clear button, comes between them),
    the clock did not go back between the two calls of [Date.now()], and
    no earlier message has the identifier of the answer, the page shows
    the messages it had, the question, and one message of the assistant
    that holds the content the last update has read: the answer is not
    shown twice, and no other message is changed. *)
Theorem streamed_answer_is_one_message (now later : Z) (content final : string)
    (seen : list string) (messages : list Message) :
  now <= later ->
  (forall m, In m messages -> id m <> Str.of_Z (later + 1)) ->
  handleSend now later content (seen ++ [final]) messages
  = (messages ++ [mkMessage (Str.of_Z now) user content;
                  mkMessage (Str.of_Z (later + 1)) assistant final])%list.
Proof.
  intros L F. unfold handleSend.
  assert (N : Str.of_Z now <> Str.of_Z (later + 1)).
  { intros E. apply TextFacts.of_Z_inj in E. lia. }
  destruct seen as [|c seen]; cbn [app fold_left].
  - now apply show_delta_first.
  - rewrite show_delta_first by exact N.
    change (messages ++ [mkMessage (Str.of_Z now) user content;
                         mkMessage (Str.of_Z (later + 1)) assistant c])%list
      with (messages ++ ([mkMessage (Str.of_Z now) user content]
            ++ [mkMessage (Str.of_Z (later + 1)) assistant c]))%list.
    rewrite app_assoc, show_deltas_last.
    + rewrite last_last, <- app_assoc. reflexivity.
    + intros m Hm. apply in_app_or in Hm as [Hm|[<-|[]]]; [now apply F | exact N].
Qed.

End PageFacts.

Section InputFacts.
Import Str.

Lemma includes_step (s sub : string) :
  String_includes s sub
  = if String.prefix sub s then true
    else match s with
         | EmptyString => false
         | String _ s' => String_includes s' sub
         end.
Proof. destruct s; reflexivity. Qed.

Lemma includes_intro (before sub after : string) :
  String_includes (before ++ sub ++ after) sub = true.
Proof.
  induction before as [|c before IH]; rewrite includes_step.
  - change (EmptyString ++ sub ++ after) with (sub ++ after).
    now rewrite StrFacts.prefix_app.
  - destruct (String.prefix sub _); [reflexivity | exact IH].
Qed.

Lemma includes_inv (s sub : string) :
  String_includes s sub = true -> exists before after, s = before ++ sub ++ after.
Proof.
  induction s as [|c s IH]; rewrite includes_step.
  - destruct (String.prefix sub EmptyString) eqn:P; [|discriminate].
    intros _. destruct (StrFacts.prefix_inv _ _ P) as [x E].
    exists EmptyString, x. exact E.
  - destruct (String.prefix sub (String c s)) eqn:P.
    + intros _. destruct (StrFacts.prefix_inv _ _ P) as [x E].
      exists EmptyString, x. exact E.
    + intros H. destruct (IH H) as (before & after & E).
      exists (String c before), after. simpl. now rewrite E.
Qed.

Lemma trimStart_skip (b x : string) :
  all_ws b = true -> trimStart (b ++ x) = trimStart x.
Proof.
  induction b as [|c b IH]; simpl; [reflexivity|].
  destruct (isWhiteSpace c); [exact IH | discriminate].
Qed.

(** Trimming at the end keeps what comes before a character that is no
    white space. *)
Lemma trimEnd_keep (m : string) (c : ascii) (a : string) :
  isWhiteSpace c = false ->
  trimEnd ((m ++ String c EmptyString) ++ a) = (m ++ String c EmptyString) ++ trimEnd a.
Proof.
  intros W. induction m as [|x m IH].
  - simpl app. now apply TextFacts.trimEnd_head.
  - change (trimEnd (String x ((m ++ String c EmptyString) ++ a))
            = String x ((m ++ String c EmptyString) ++ trimEnd a)).
    simpl trimEnd. rewrite IH.
    destruct ((m ++ String c EmptyString) ++ trimEnd a) eqn:E; [|reflexivity].
    destruct m; discriminate.
Qed.

(** A text that starts and ends with no white space still occurs in the
    trimmed text. *)
Lemma includes_trim (s h : string) (c z : ascii) (m : string) :
  String c h = m ++ String z EmptyString ->
  isWhiteSpace c = false ->
  isWhiteSpace z = false ->
  String_includes s (String c h) = true ->
  String_includes (trim s) (String c h) = true.
Proof.
  intros L Wc Wz H. destruct (includes_inv s _ H) as (b & a & ->).
  unfold trim.
  assert (S : exists b', trimStart (b ++ String c h ++ a) = b' ++ String c h ++ a).
  { destruct (all_ws b) eqn:B.
    - exists EmptyString. rewrite (trimStart_skip b _ B). simpl. now rewrite Wc.
    - exists (trimStart b). now apply StrFacts.trimStart_app. }
  destruct S as [b' ->]. rewrite L.
  replace (b' ++ (m ++ String z EmptyString) ++ a)
    with (((b' ++ m) ++ String z EmptyString) ++ a)
    by now rewrite !StrFacts.append_assoc.
  rewrite (trimEnd_keep (b' ++ m) z a Wz).
  rewrite !StrFacts.append_assoc.
  rewrite <- (StrFacts.append_assoc m). apply includes_intro.
Qed.

Lemma isValidUrl_trim (url : string) : isValidUrl url = true -> isValidUrl (trim url) = true.
Proof.
  unfold isValidUrl. intros H. apply Bool.orb_true_iff in H as [H|H];
    apply Bool.orb_true_iff; [left | right].
  - now apply (includes_trim url "ocs.google.com" "d" "m" "docs.google.co").
  - now apply (includes_trim url "rive.google.com" "d" "m" "drive.google.co").
Qed.

(** X19: what [ChatInput] hands to the page is the trimmed input, which
    is not empty and which trimming leaves as it is; it hands over
    nothing while it is disabled, and the input is cleared afterwards. *)
Theorem chat_input_sends_trimmed (input : string) (disabled : bool) (sent : string) :
  fst (ChatInput_handleSubmit input disabled) = Some sent ->
  disabled = false
  /\ sent = trim input
  /\ sent <> EmptyString
  /\ trim sent = sent
  /\ snd (ChatInput_handleSubmit input disabled) = EmptyString.
Proof.
  unfold ChatInput_handleSubmit.
  destruct (String.eqb_spec (trim input) EmptyString) as [E|E]; cbn [negb andb];
    [discriminate|].
  destruct disabled; cbn [negb fst snd]; [discriminate|].
  intros [= <-]. repeat split; [exact E | apply TextFacts.trim_idem].
Qed.

(** X20: what [DocumentInput] hands to the page is the trimmed URL, not
    empty; a URL that the component shows as valid is still one after
    the trimming. *)
Theorem connect_sends_trimmed (url sent : string) :
  DocumentInput_handleSubmit url = Some sent ->
  sent = trim url
  /\ sent <> EmptyString
  /\ trim sent = sent
  /\ (isValidUrl url = true -> isValidUrl sent = true).
Proof.
  unfold DocumentInput_handleSubmit.
  destruct (String.eqb_spec (trim url) EmptyString) as [E|E]; cbn [negb];
    [discriminate|].
  intros [= <-]. repeat split;
    [exact E | apply TextFacts.trim_idem | apply isValidUrl_trim].
Qed.

End InputFacts.

(** ** Further concrete runs *)

Lemma nothing_read_after_done_witness :
  streamChat JsonText.JSON_parse
    (responded (reader_then [early_line; done_line] (Chunk late_line Errored)))
  = streamChat JsonText.JSON_parse (streamed [early_line; done_line]).
Proof.
  apply (nothing_read_after_done JsonText.JSON_parse [early_line; done_line]
           (Chunk late_line Errored)).
  vm_compute. reflexivity.
Defined.

Lemma deltas_before_transport_failure_witness :
  streamChat JsonText.JSON_parse
    (responded (reader_then [early_line; Str.literal "data: {`choices`:[{`delta`:{`content`:`llo`}}]}"]
                  Errored))
  = (map onDelta
       (read_deliveries JsonText.JSON_parse
          (complete_lines
             (concat_chunks
                [early_line; Str.literal "data: {`choices`:[{`delta`:{`content`:`llo`}}]}"])))
     ++ [onError connection_error])%list.
Proof.
  apply (deltas_before_transport_failure JsonText.JSON_parse
           [early_line; Str.literal "data: {`choices`:[{`delta`:{`content`:`llo`}}]}"]).
  vm_compute. reflexivity.
Defined.

Lemma chunking_is_irrelevant_witness :
  streamChat JsonText.JSON_parse
    (streamed [Str.literal "data: {`choices`:[{`del"; Str.literal "ta`:{`content`:`He`}}]}\n"])
  = streamChat JsonText.JSON_parse (streamed [early_line])
  /\ streamChat JsonText.JSON_parse
       (streamed [Str.literal "data: {`choices`:[{`del";
                  Str.literal "ta`:{`content`:`He`}}]}\n"])
     = (map onDelta
          (deliverable JsonText.JSON_parse
             (concat_chunks
                [Str.literal "data: {`choices`:[{`del";
                 Str.literal "ta`:{`content`:`He`}}]}\n"]))
        ++ [onDone])%list.
Proof.
  apply (chunking_is_irrelevant JsonText.JSON_parse
           [Str.literal "data: {`choices`:[{`del"; Str.literal "ta`:{`content`:`He`}}]}\n"]
           [early_line]).
  - vm_compute. reflexivity.
  - vm_compute. reflexivity.
Defined.

Lemma deltas_are_truthy_witness : Json.truthy (JString "late") = true.
Proof.
  apply (deltas_are_truthy JsonText.JSON_parse (streamed [late_line]) (JString "late")).
  vm_compute. left. reflexivity.
Defined.

Lemma crlf_like_lf_witness :
  let lines := [Str.literal "data: {`choices`:[{`delta`:{`content`:`He`}}]}";
                EmptyString;
                Str.literal "data: {`choices`:[{`delta`:{`content`:`llo`}}]}"] in
  streamChat JsonText.JSON_parse (streamed [join_lines crlf lines])
  = streamChat JsonText.JSON_parse (streamed [join_lines Str.nl lines]).
Proof.
  intros lines.
  apply (crlf_like_lf JsonText.JSON_parse lines
           [join_lines crlf lines] [join_lines Str.nl lines]).
  - intros l [<-|[<-|[<-|[]]]]; vm_compute; reflexivity.
  - vm_compute. reflexivity.
  - vm_compute. reflexivity.
  - vm_compute. reflexivity.
Defined.

Lemma unterminated_last_line_delivered_witness :
  let lines := [Str.literal "data: {`choices`:[{`delta`:{`content`:`He`}}]}"] in
  let raw := Str.literal "data: {`choices`:[{`delta`:{`content`:`llo`}}]}" in
  streamChat JsonText.JSON_parse (streamed [join_lines Str.nl lines ++ raw])
  = (map onDelta (deliverable JsonText.JSON_parse (join_lines Str.nl lines))
     ++ [onDelta (JString "llo"); onDone])%list.
Proof.
  intros lines raw.
  apply (unterminated_last_line_delivered JsonText.JSON_parse
           [join_lines Str.nl lines ++ raw] lines raw (JString "llo")).
  - vm_compute. reflexivity.
  - intros l [<-|[]]; vm_compute; reflexivity.
  - vm_compute. reflexivity.
  - vm_compute. reflexivity.
  - vm_compute. reflexivity.
Defined.

Lemma launch_admitted (document : HttpResponse) (h : option (list Message)) :
  admitted UrlText.URL_parse (sample_env document 200) (launch_request h)
    "When is the launch?" sample_url h "secret".
Proof.
  repeat split; try discriminate; vm_compute; reflexivity.
Defined.

Lemma document_fetch_is_an_export_witness :
  exists q u h key docId,
    admitted UrlText.URL_parse (sample_env public_document 200) (launch_request (Some []))
      q u h key
    /\ export_url "ABC123"
       = "https://docs.google.com/document/d/" ++ docId ++ "/export?format=txt"
    /\ docId <> EmptyString
    /\ UrlText.all_chars id_char docId = true
    /\ occurs_in docId u.
Proof.
  apply (document_fetch_is_an_export UrlText.URL_parse (sample_env public_document 200)
           (launch_request (Some [])) (export_url "ABC123")).
  vm_compute. left. reflexivity.
Defined.

Lemma document_failure_reported_witness :
  outcome (serve UrlText.URL_parse (sample_env private_document 200) (launch_request (Some [])))
  = inr (json_response (error_message DocumentPrivate) 400)
  /\ trace (serve UrlText.URL_parse (sample_env private_document 200)
              (launch_request (Some [])))
     = trace (fetchGoogleDocContent (sample_env private_document 200) sample_url)
  /\ model_requests
       (trace (serve UrlText.URL_parse (sample_env private_document 200)
                 (launch_request (Some []))))
     = [].
Proof.
  apply (document_failure_reported UrlText.URL_parse (sample_env private_document 200)
           (launch_request (Some [])) "When is the launch?" sample_url "secret"
           (Some []) DocumentPrivate).
  - apply launch_admitted.
  - vm_compute. reflexivity.
Defined.

Lemma fetched_document_is_usable_witness :
  Z.of_nat (String.length sample_document) <= 5242880
  /\ Str.all_ws sample_document = false
  /\ exists docId response,
       first_match sample_url patterns = Some docId
       /\ fetch_document (sample_env public_document 200) (export_url docId)
          = Resolved response
       /\ status_ok (http_status response) = true
       /\ declared_too_large response = false
       /\ http_text response = inr sample_document
       /\ trace (fetchGoogleDocContent (sample_env public_document 200) sample_url)
          = [FetchDocument (export_url docId); ReadText (http_status response)].
Proof.
  apply (fetched_document_is_usable (sample_env public_document 200) sample_url
           sample_document).
  vm_compute. reflexivity.
Defined.

Lemma document_fetch_rejection_reported_witness :
  serve UrlText.URL_parse offline_env (launch_request (Some []))
  = ([FetchDocument (export_url "ABC123")],
     inr (json_response "Document fetch timed out. Please try again." 400)).
Proof.
  apply (document_fetch_rejection_reported UrlText.URL_parse offline_env
           (launch_request (Some [])) "When is the launch?" sample_url "secret" "ABC123"
           (Some []) (mkError "AbortError" "The signal has been aborted")).
  - repeat split; try discriminate; vm_compute; reflexivity.
  - vm_compute. reflexivity.
  - reflexivity.
Defined.

Lemma absent_history_fails_witness :
  outcome (serve UrlText.URL_parse (sample_env public_document 200) (launch_request None))
  = inr UpstreamError
  /\ model_requests
       (trace (serve UrlText.URL_parse (sample_env public_document 200)
                 (launch_request None)))
     = []
  /\ exists docId,
       fetches (trace (serve UrlText.URL_parse (sample_env public_document 200)
                         (launch_request None)))
       = [FetchDocument (export_url docId)].
Proof.
  apply (absent_history_fails UrlText.URL_parse (sample_env public_document 200)
           (launch_request None) "When is the launch?" sample_url "secret"
           sample_document).
  - apply launch_admitted.
  - vm_compute. reflexivity.
Defined.


Lemma error_reaches_user_witness :
  streamChat JsonText.JSON_parse
    (Some (mkChatResponse 400
             (JsonText.JSON_parse
                (Str.literal "{`error`:`Document is private. Please make it publicly accessible.`}"))
             (Some Closed)))
  = [onError (JString "Document is private. Please make it publicly accessible.")].
Proof.
  apply (error_reaches_user JsonText.JSON_parse UrlText.URL_parse
           (sample_env private_document 200) (launch_request (Some []))
           (json_response "Document is private. Please make it publicly accessible." 400)).
  - vm_compute. reflexivity.
  - reflexivity.
  - discriminate.
  - reflexivity.
  - vm_compute. reflexivity.
Defined.

Lemma streamed_answer_is_one_message_witness :
  Page.handleSend 1700000000000 1700000000000 "When is the launch?" (["In"] ++ ["In March."])
    [Page.mkMessage "1600000000000" user "Hello"; Page.mkMessage "1600000000001" assistant "Hi."]
  = [Page.mkMessage "1600000000000" user "Hello";
     Page.mkMessage "1600000000001" assistant "Hi.";
     Page.mkMessage "1700000000000" user "When is the launch?";
     Page.mkMessage "1700000000001" assistant "In March."].
Proof.
  apply (streamed_answer_is_one_message 1700000000000 1700000000000 "When is the launch?"
           "In March." ["In"]
           [Page.mkMessage "1600000000000" user "Hello";
            Page.mkMessage "1600000000001" assistant "Hi."]).
  - lia.
  - intros m [<-|[<-|[]]]; vm_compute; discriminate.
Defined.

Lemma chat_input_sends_trimmed_witness :
  false = false
  /\ "When is the launch?" = Str.trim (Str.literal "  When is the launch?\n")
  /\ "When is the launch?" <> EmptyString
  /\ Str.trim "When is the launch?" = "When is the launch?"
  /\ snd (ChatInput_handleSubmit (Str.literal "  When is the launch?\n") false) = EmptyString.
Proof.
  apply (chat_input_sends_trimmed (Str.literal "  When is the launch?\n") false
           "When is the launch?").
  vm_compute. reflexivity.
Defined.

Lemma connect_sends_trimmed_witness :
  sample_url = Str.trim (" " ++ sample_url ++ " ")
  /\ sample_url <> EmptyString
  /\ Str.trim sample_url = sample_url
  /\ (isValidUrl (" " ++ sample_url ++ " ") = true -> isValidUrl sample_url = true).
Proof.
  apply (connect_sends_trimmed (" " ++ sample_url ++ " ") sample_url).
  vm_compute. reflexivity.
Defined.

Lemma skipped_lines_are_transparent_witness :
  let lines := [Str.literal ": keep-alive";
                Str.literal "data: {`choices`:[{`delta`:{`content`:`He`}}]}";
                EmptyString;
                "event: message";
                Str.literal "data: {`choices`:[{`delta`:{`content`:`llo`}}]}"] in
  streamChat JsonText.JSON_parse (streamed [join_lines Str.nl lines])
  = streamChat JsonText.JSON_parse
      (streamed [Str.literal "data: {`choices`:[{`delta`:{`content`:`He`}}]}\n";
                 Str.literal "data: {`choices`:[{`delta`:{`content`:`llo`}}]}\n"]).
Proof.
  intros lines.
  apply (skipped_lines_are_transparent JsonText.JSON_parse lines).
  - intros l [<-|[<-|[<-|[<-|[<-|[]]]]]]; vm_compute; reflexivity.
  - vm_compute. reflexivity.
  - vm_compute. reflexivity.
  - vm_compute. reflexivity.
Defined.
